(** * DigiHesabYar: the invoice reconciliation engine

    A shallow embedding of [apps/digihesabyar/back/services.py] (numeric
    normalizer, header matcher, ledger merger, pricing tiers, invoice
    processing) and of [recalc_profit] from [apps/digihesabyar/views.py],
    followed by the properties of the specification that were checked
    against it. *)

From Stdlib Require Import ZArith NArith List String Ascii Lia Permutation.
From Stdlib Require Import SpecFloat DecimalString Sorted.
From Stdlib Require DecimalPos.
From stdpp Require Import gmap list.

Local Open Scope Z_scope.

(* ===================================================================== *)
(** * Python values *)
(* ===================================================================== *)

(** A Python [str] is a sequence of Unicode code points. *)
Definition str := list N.

(** String literals of the source are written as UTF-8 Rocq strings and
    decoded to code points. *)
Fixpoint utf8_decode (bs : list N) : str :=
  match bs with
  | [] => []
  | b0 :: r0 =>
    if (b0 <? 128)%N then b0 :: utf8_decode r0
    else if (b0 <? 224)%N then
      match r0 with
      | b1 :: r1 => ((b0 - 192) * 64 + (b1 - 128))%N :: utf8_decode r1
      | _ => []
      end
    else if (b0 <? 240)%N then
      match r0 with
      | b1 :: b2 :: r2 =>
        ((b0 - 224) * 4096 + (b1 - 128) * 64 + (b2 - 128))%N :: utf8_decode r2
      | _ => []
      end
    else
      match r0 with
      | b1 :: b2 :: b3 :: r3 =>
        ((b0 - 240) * 262144 + (b1 - 128) * 4096 + (b2 - 128) * 64 + (b3 - 128))%N
          :: utf8_decode r3
      | _ => []
      end
  end.

Definition u (s : string) : str :=
  utf8_decode (map N_of_ascii (list_ascii_of_string s)).

(** A cell value as openpyxl hands it over ([values_only=True]), which is
    also the argument type of [_normalize_number]: [None], [bool], [int],
    [float], [str], or some other object (a date, a time, ...) of which
    the code only ever takes [str(...)]; [VObj s] is such an object whose
    [str()] is [s]. *)
Inductive value : Type :=
| VNone
| VBool (b : bool)
| VInt (n : Z)
| VFloat (f : spec_float)
| VStr (s : str)
| VObj (s : str).

(** The exceptions the modelled code can raise. *)
Inductive exn : Type :=
| OverflowError                (* int(round(inf)) *)
| ValueError                   (* int(round(nan)), int("...") *)
| IndexError                   (* row[idx] out of range *)
| OSError (msg : str)          (* the workbook cannot be opened or read *)
| DatabaseError (msg : str)    (* a failing query *)
| NoReverseMatch (msg : str).  (* redirect(to) on a text that names no URL *)

Inductive result (A : Type) : Type :=
| Ok (a : A)
| Raise (e : exn).
Arguments Ok {A} a.
Arguments Raise {A} e.

Definition bind {A B : Type} (r : result A) (k : A -> result B) : result B :=
  match r with
  | Ok a => k a
  | Raise e => Raise e
  end.

Notation "'let*' x ':=' r 'in' k" := (bind r (fun x => k))
  (at level 10, x name, r at level 200, k at level 200).

(** [str(e)] for the exceptions above. *)
Definition exn_str (e : exn) : str :=
  match e with
  | OverflowError => u "cannot convert float infinity to integer"
  | ValueError => u "cannot convert float NaN to integer"
  | IndexError => u "tuple index out of range"
  | OSError msg => msg
  | DatabaseError msg => msg
  | NoReverseMatch msg => msg
  end.

(* ===================================================================== *)
(** * Built-ins of [str] and [int] used by the source *)
(* ===================================================================== *)

(** [str.isspace] on one code point (what [str.strip()] removes). *)
Definition is_space (c : N) : bool :=
  ((9 <=? c) && (c <=? 13) || (28 <=? c) && (c <=? 32)
   || (c =? 133) || (c =? 160) || (c =? 5760)
   || (8192 <=? c) && (c <=? 8202)
   || (c =? 8232) || (c =? 8233) || (c =? 8239) || (c =? 8287)
   || (c =? 12288))%N.

Fixpoint lstrip (s : str) : str :=
  match s with
  | c :: r => if is_space c then lstrip r else s
  | [] => []
  end.

Definition rstrip (s : str) : str := rev (lstrip (rev s)).

(** [s.strip()] *)
Definition strip (s : str) : str := rstrip (lstrip s).

(** The zero digits of the decimal-digit runs of the Unicode database
    (category Nd, Unicode 14): each run is ten consecutive code points
    with the values 0 to 9. This is what [\d] matches in a [str] pattern
    and what [int()] accepts as a digit. *)
Definition decimal_zero_digits : list N :=
  [48; 1632; 1776; 1984; 2406; 2534; 2662; 2790; 2918; 3046; 3174; 3302;
   3430; 3558; 3664; 3792; 3872; 4160; 4240; 6112; 6160; 6470; 6608; 6784;
   6800; 6992; 7088; 7232; 7248; 42528; 43216; 43264; 43472; 43504; 43600;
   44016; 65296; 66720; 68912; 69734; 69872; 69942; 70096; 70384; 70736;
   70864; 71248; 71360; 71472; 71904; 72016; 72784; 73040; 73120; 92768;
   92864; 93008; 120782; 120792; 120802; 120812; 120822; 123200; 123632;
   125264; 130032]%N.

(** The decimal value of a code point, if it is a decimal digit. *)
Definition decimal_value (c : N) : option N :=
  match List.find (fun z => (z <=? c) && (c <? z + 10))%N decimal_zero_digits with
  | Some z => Some (c - z)%N
  | None => None
  end.

Definition is_digit (c : N) : bool :=
  match decimal_value c with Some _ => true | None => false end.

(** [s.replace(c, "")] for a one-character [c]. *)
Definition remove_char (c : N) (s : str) : str :=
  List.filter (fun x => negb (x =? c)%N) s.

(** [s.translate(str.maketrans(from, "0123456789"))] where [from] is the
    run of ten digits that starts at [zero]. *)
Definition translate_digits (zero : N) (s : str) : str :=
  map (fun c => if ((zero <=? c) && (c <? zero + 10))%N then (c - zero + 48)%N else c) s.

Definition PERSIAN_DIGITS : str -> str := translate_digits 1776.
Definition ARABIC_DIGITS : str -> str := translate_digits 1632.

(** [sys.get_int_max_str_digits()], CPython's default. *)
Definition int_max_str_digits : nat := 4300.

(** The digits of a decimal literal, underscores allowed between digits;
    [acc] is the value so far, [n] the number of digits so far and [prev]
    tells whether the previous character was a digit. *)
Fixpoint int_digits (s : str) (acc : Z) (n : nat) (prev : bool) : option (Z * nat) :=
  match s with
  | [] => if prev then Some (acc, n) else None
  | c :: r =>
    match decimal_value c with
    | Some d => int_digits r (10 * acc + Z.of_N d) (S n) true
    | None =>
      if (c =? 95)%N && prev then int_digits r acc n false else None
    end
  end.

(** [int(s)] for a [str] in base ten. *)
Definition py_int (s : str) : result Z :=
  let s := strip s in
  let '(neg, body) :=
    match s with
    | 45%N :: r => (true, r)
    | 43%N :: r => (false, r)
    | _ => (false, s)
    end in
  match int_digits body 0 0%nat false with
  | Some (v, n) =>
    if (int_max_str_digits <? n)%nat then Raise ValueError
    else Ok (if neg then - v else v)
  | None => Raise ValueError
  end.

(** [int(round(val))] for a [float]: round half to even, no integer for
    an infinity or a NaN. *)
Definition round_float (f : spec_float) : result Z :=
  match f with
  | S754_zero _ => Ok 0
  | S754_infinity _ => Raise OverflowError
  | S754_nan => Raise ValueError
  | S754_finite s m e =>
    let a :=
      if 0 <=? e then Z.pos m * 2 ^ e
      else
        let d := 2 ^ (- e) in
        let q := Z.pos m / d in
        let r := Z.pos m mod d in
        if 2 * r <? d then q
        else if d <? 2 * r then q + 1
        else if Z.even q then q else q + 1 in
    Ok (if s then - a else a)
  end.

(** [math.isnan] *)
Definition isnan (f : spec_float) : bool :=
  match f with S754_nan => true | _ => false end.

(** [str(n)] for an [int]. *)
Definition str_of_int (n : Z) : str :=
  map N_of_ascii
    (list_ascii_of_string (NilZero.string_of_int (Z.to_int n))).

(* ===================================================================== *)
(** * Numeric normalizer *)
(* ===================================================================== *)

(** The text branch of [_normalize_number], from [s = str(val)] on. *)
Definition normalize_text (s : str) : result Z :=
  let s := remove_char 1644 (remove_char 44 s) in
  let s := ARABIC_DIGITS (PERSIAN_DIGITS s) in
  let s := strip s in
  let is_negative := match s with 45%N :: _ => true | _ => false end in
  let s := List.filter is_digit s in
  let s := if is_negative && negb (Nat.eqb (length s) 0) then 45%N :: s else s in
  match s with
  | [] | [45%N] | [43%N] => Ok 0
  | _ =>
    match py_int s with
    | Ok n => Ok n
    | Raise ValueError => Ok 0
    | Raise e => Raise e
    end
  end.

Definition _normalize_number (val : value) : result Z :=
  match val with
  | VNone => Ok 0
  | VBool b => Ok (Z.b2z b)
  | VInt n => Ok n
  | VFloat f => if isnan f then Ok 0 else round_float f
  | VStr s => normalize_text s
  | VObj s => normalize_text s
  end.

Definition normalize_number (val : value) : result Z := _normalize_number val.

(* ===================================================================== *)
(** * Data model *)
(* ===================================================================== *)

(** [sale_type] is only ever ["cash"] or ["credit"]. *)
Inductive sale_type_t : Type := cash | credit.

(** The [kind] argument of [_apply_cost_sheet]. *)
Inductive kind_t : Type := commission | shipping | processing | platform_dev.

#[global] Instance sale_type_eq_dec : EqDecision sale_type_t.
Proof. solve_decision. Defined.

#[global] Instance sale_type_countable : Countable sale_type_t.
Proof.
  refine (inj_countable' (fun t => match t with cash => false | credit => true end)
                         (fun b : bool => if b then credit else cash) _).
  intros []; reflexivity.
Defined.

(** The dataclass [ParsedRow]. *)
Module ParsedRow.
Record t : Type := mk {
  sale_type : sale_type_t;
  order_id : str;
  dkpc : str;
  title : str;
  sale_amount : Z;
  is_return : bool;
  commission_amount : Z;
  shipping_fee : Z;
  processing_fee : Z;
  platform_dev_revenue : Z
}.

(** [ParsedRow(sale_type=.., order_id=.., dkpc=.., title=.., is_return=..)]:
    the other fields take their default, 0. *)
Definition new (st : sale_type_t) (o d ti : str) (ret : bool) : t :=
  mk st o d ti 0 ret 0 0 0 0.

Definition add_sale_amount (a : Z) (r : t) : t :=
  mk (sale_type r) (order_id r) (dkpc r) (title r) (sale_amount r + a)
     (is_return r) (commission_amount r) (shipping_fee r) (processing_fee r)
     (platform_dev_revenue r).

(** The [if kind == ... elif ...] chain of [_apply_cost_sheet]. *)
Definition add_cost (kind : kind_t) (a : Z) (r : t) : t :=
  match kind with
  | commission =>
    mk (sale_type r) (order_id r) (dkpc r) (title r) (sale_amount r)
       (is_return r) (commission_amount r + a) (shipping_fee r)
       (processing_fee r) (platform_dev_revenue r)
  | shipping =>
    mk (sale_type r) (order_id r) (dkpc r) (title r) (sale_amount r)
       (is_return r) (commission_amount r) (shipping_fee r + a)
       (processing_fee r) (platform_dev_revenue r)
  | processing =>
    mk (sale_type r) (order_id r) (dkpc r) (title r) (sale_amount r)
       (is_return r) (commission_amount r) (shipping_fee r)
       (processing_fee r + a) (platform_dev_revenue r)
  | platform_dev =>
    mk (sale_type r) (order_id r) (dkpc r) (title r) (sale_amount r)
       (is_return r) (commission_amount r) (shipping_fee r)
       (processing_fee r) (platform_dev_revenue r + a)
  end.
End ParsedRow.

(** The model [InvoiceRow] (the fields the code reads or writes). *)
Module InvoiceRow.
Record t : Type := mk {
  sale_type : sale_type_t;
  order_id : str;
  dkpc : str;
  title : str;
  sale_amount : Z;
  purchase_price : Z;
  commission_amount : Z;
  shipping_fee : Z;
  processing_fee : Z;
  platform_dev_revenue : Z;
  tax_amount : Z;
  profit : Z;
  is_return : bool
}.
End InvoiceRow.

(** The model [PricingTier]; [max_rows] is nullable. *)
Module PricingTier.
Record t : Type := mk {
  min_rows : Z;
  max_rows : option Z;
  price_per_invoice : Z
}.
End PricingTier.

(** The identity of a ledger line: the key of [rows_map]. *)
Definition key : Type := sale_type_t * str * str.

(** A worksheet is its rows, each row the tuple of its cell values (openpyxl
    pads every row to the width of the sheet); a workbook is its sheets by
    name, in the order of [wb.sheetnames]. *)
Definition worksheet : Type := list (list value).
Definition workbook : Type := list (str * worksheet).

(** [wb[sheet_name]], [None] when [sheet_name not in wb.sheetnames]. *)
Fixpoint wb_get (wb : workbook) (sheet_name : str) : option worksheet :=
  match wb with
  | [] => None
  | (n, ws) :: rest => if decide (n = sheet_name) then Some ws else wb_get rest sheet_name
  end.

(** The entries of [log_lines], one constructor per message of the source:
    - [LogSheetMissing]: "شیت .. پیدا نشد؛ از آن عبور می‌کنیم."
    - [LogCostSheetMissing]: "شیت .. پیدا نشد (kind=..)؛ از آن عبور می‌کنیم."
    - [LogNoHeader]: "شیت ..: هدر معتبر پیدا نشد."
    - [LogNoKeyColumns]: "شیت ..: ستون‌های کلیدی (...) پیدا نشد."
    - [LogSalesRead]: "شیت ..: n ردیف فروش/برگشتی خوانده شد."
    - [LogCostApplied]: "شیت ..: n ردیف هزینه روی ردیف‌های فروش اعمال شد (از ..)." *)
Inductive log_line : Type :=
| LogSheetMissing (sheet_name : str)
| LogCostSheetMissing (sheet_name : str) (kind : kind_t)
| LogNoHeader (sheet_name : str)
| LogNoKeyColumns (sheet_name : str)
| LogSalesRead (sheet_name : str) (count_rows : nat)
| LogCostApplied (sheet_name : str) (count_rows : nat).

(** The local state of [parse_invoice_excel]. [parsed_rows] and [rows_map]
    hold the same [ParsedRow] objects: the map is the store, the list
    holds the keys in first-seen order. *)
Record merge_state : Type := mk_state {
  rows_map : gmap key ParsedRow.t;
  parsed_rows : list key;
  log_lines : list log_line
}.

Definition initial_state : merge_state := mk_state ∅ [] [].

Definition log_append (l : log_line) (st : merge_state) : merge_state :=
  mk_state (rows_map st) (parsed_rows st) (log_lines st ++ [l]).

(** The list [parsed_rows] as [parse_invoice_excel] returns it. *)
Definition parsed_rows_out (st : merge_state) : list ParsedRow.t :=
  omap (fun k => rows_map st !! k) (parsed_rows st).

Definition is_None (v : value) : bool :=
  match v with VNone => true | _ => false end.

(** [row[idx]] *)
Definition py_index (row : list value) (idx : nat) : result value :=
  match row !! idx with
  | Some v => Ok v
  | None => Raise IndexError
  end.

(** [sub in s] for two [str]. *)
Fixpoint starts_with (p s : str) : bool :=
  match p, s with
  | [], _ => true
  | _ :: _, [] => false
  | a :: p', b :: s' => (a =? b)%N && starts_with p' s'
  end.

Fixpoint contains (sub s : str) : bool :=
  starts_with sub s ||
  match s with
  | [] => false
  | _ :: s' => contains sub s'
  end.

(** The loops of the source: a body run over a list, threading the local
    state, stopped by the first exception. *)
Fixpoint for_each {A S : Type} (body : S -> A -> result S) (l : list A) (s : S)
  : result S :=
  match l with
  | [] => Ok s
  | x :: rest => let* s' := body s x in for_each body rest s'
  end.

(* ===================================================================== *)
(** * Sheet names and header keywords *)
(* ===================================================================== *)

Definition KW_ORDER : list str := [u "شماره سفارش"; u "شناسه سفارش"].
Definition KW_DKPC : list str := [u "کد تنوع"; u "dkpc"; u "DKPC"].
Definition KW_TITLE : list str := [u "عنوان تنوع"; u "عنوان کالا"].
Definition KW_AMOUNT : list str := [u "مبلغ نهایی"; u "مبلغ کل"; u "مبلغ"].

(** One call of [_read_sales_sheet] or of [_apply_cost_sheet]. *)
Inductive sheet_call : Type :=
| ReadSales (sheet_name : str) (sale_type : sale_type_t) (is_return_sheet : bool)
| ApplyCost (sheet_name : str) (sale_type : sale_type_t) (kind : kind_t)
            (is_return_sheet : bool).

(** The four calls of [_read_sales_sheet], in the order of the source. *)
Definition sales_calls : list sheet_call :=
  [ ReadSales (u "فروش") cash false;
    ReadSales (u "برگشت از فروش") cash true;
    ReadSales (u "فروش اعتباری") credit false;
    ReadSales (u "برگشت از فروش اعتباری") credit true ].

(** The calls of [_apply_cost_sheet], in the order of the source. *)
Definition cost_calls : list sheet_call :=
  [ ApplyCost (u "کمیسیون فروش") cash commission false;
    ApplyCost (u "کمیسیون فروش اعتباری") credit commission false;
    ApplyCost (u "برگشت از کمیسیون فروش") cash commission true;
    ApplyCost (u "برگشت از کمیسیون فروش اعتباری") credit commission true;
    ApplyCost (u "هزینه ارسال") cash shipping false;
    ApplyCost (u "هزینه ارسال اعتباری") credit shipping false;
    ApplyCost (u "برگشت از هزینه ارسال") cash shipping true;
    ApplyCost (u "برگشت از هزینه ارسال اعتباری") credit shipping true;
    ApplyCost (u "هزینه پردازش") cash processing false;
    ApplyCost (u "هزینه پردازش اعتباری") credit processing false;
    ApplyCost (u "برگشت از هزینه پردازش") cash processing true;
    ApplyCost (u "برگشت از هزینه پردازش اعتباری") credit processing true;
    ApplyCost (u "درآمد توسعه پلتفرم") credit platform_dev false;
    ApplyCost (u "برگشت از درآمد توسعه پلتفرم") credit platform_dev true;
    ApplyCost (u "هزینه برگشت از مشتری") cash shipping false ].

Definition fixed_sequence : list sheet_call := sales_calls ++ cost_calls.

(* ===================================================================== *)
(** * Sheet locator, header matcher and ledger merger *)
(* ===================================================================== *)

Section Engine.

(** Two built-ins of the Python runtime stay abstract: [s.lower()] (the
    case mapping of the Unicode database) and [str(x)] of a [float] (its
    shortest round-trip repr). *)
Variable str_lower : str -> str.
Variable float_str : spec_float -> str.

(** [str(v)] *)
Definition py_str (v : value) : str :=
  match v with
  | VNone => u "None"
  | VBool b => if b then u "True" else u "False"
  | VInt n => str_of_int n
  | VFloat f => float_str f
  | VStr s => s
  | VObj s => s
  end.

(** ** [_get_header_row] *)

(** The test of the comprehension [texts]: [c is not None and str(c).strip()]. *)
Definition is_text (c : value) : bool :=
  negb (is_None c) &&
  match strip (py_str c) with [] => false | _ => true end.

Fixpoint find_header (rows : list (list value)) : list str :=
  match rows with
  | [] => []
  | row :: rest =>
    let texts := List.filter is_text row in
    if (3 <=? length texts)%nat
    then map (fun c => if is_None c then [] else strip (py_str c)) row
    else find_header rest
  end.

(** [ws.iter_rows(min_row=1, max_row=10)]: the first ten rows. *)
Definition _get_header_row (ws : worksheet) : list str :=
  find_header (take 10 ws).

(** ** [_find_col] *)

Fixpoint find_col_from (idx : nat) (headers : list str) (keywords : list str)
  : option nat :=
  match headers with
  | [] => None
  | name :: rest =>
    let name_lower := strip (str_lower name) in
    if existsb (fun kw => contains (str_lower kw) name_lower) keywords
    then Some idx
    else find_col_from (S idx) rest keywords
  end.

Definition _find_col (headers : list str) (keywords : list str) : option nat :=
  find_col_from 0 headers keywords.

(** ** [get_or_create] *)

(** Returns the state and the reference (the key) of the row. *)
Definition get_or_create (st : merge_state) (sale_type : sale_type_t)
    (order_id dkpc title : value) (is_return : bool) : merge_state * key :=
  let k : key := (sale_type, py_str order_id, py_str dkpc) in
  match rows_map st !! k with
  | None =>
    let row := ParsedRow.new sale_type (py_str order_id) (py_str dkpc)
                 (if is_None title then [] else py_str title) is_return in
    (mk_state (<[k := row]> (rows_map st)) (parsed_rows st ++ [k]) (log_lines st), k)
  | Some _ => (st, k)
  end.

(** An assignment to a field of the object behind a reference. *)
Definition update_row (k : key) (f : ParsedRow.t -> ParsedRow.t) (st : merge_state)
  : merge_state :=
  mk_state (alter f k (rows_map st)) (parsed_rows st) (log_lines st).

(** ** [_read_sales_sheet] *)

(** The body of the loop over the data rows; the accumulator is the
    state and [count_rows]. *)
Definition sales_row (sale_type : sale_type_t) (is_return_sheet : bool)
    (idx_order idx_dkpc : nat) (idx_title : option nat) (idx_amount : nat)
    (acc : merge_state * nat) (row : list value) : result (merge_state * nat) :=
  let '(st, count_rows) := acc in
  let* order_id := py_index row idx_order in
  let* dkpc := py_index row idx_dkpc in
  let* title :=
    match idx_title with
    | Some i => py_index row i
    | None => Ok (VStr [])
    end in
  let* amount_raw := py_index row idx_amount in
  if is_None order_id || is_None dkpc then Ok (st, count_rows)
  else
    let* amount := _normalize_number amount_raw in
    let k : key := (sale_type, py_str order_id, py_str dkpc) in
    let existing_parsed := rows_map st !! k in
    let is_return :=
      is_return_sheet ||
      match existing_parsed with
      | Some r => ParsedRow.is_return r
      | None => false
      end in
    let '(st, parsed) := get_or_create st sale_type order_id dkpc title is_return in
    let st :=
      if is_return_sheet
      then update_row parsed (ParsedRow.add_sale_amount (- Z.abs amount)) st
      else update_row parsed (ParsedRow.add_sale_amount amount) st in
    Ok (st, S count_rows).

Definition _read_sales_sheet (wb : workbook) (sheet_name : str)
    (sale_type : sale_type_t) (is_return_sheet : bool) (st : merge_state)
  : result merge_state :=
  match wb_get wb sheet_name with
  | None => Ok (log_append (LogSheetMissing sheet_name) st)
  | Some ws =>
    let headers := _get_header_row ws in
    match headers with
    | [] => Ok (log_append (LogNoHeader sheet_name) st)
    | _ =>
      let idx_order := _find_col headers KW_ORDER in
      let idx_dkpc := _find_col headers KW_DKPC in
      let idx_title := _find_col headers KW_TITLE in
      let idx_amount := _find_col headers KW_AMOUNT in
      match idx_order, idx_dkpc, idx_amount with
      | Some io, Some id, Some ia =>
        let* res :=
          for_each (sales_row sale_type is_return_sheet io id idx_title ia)
                   (drop 1 ws) (st, 0%nat) in
        let '(st, count_rows) := res in
        Ok (log_append (LogSalesRead sheet_name count_rows) st)
      | _, _, _ => Ok (log_append (LogNoKeyColumns sheet_name) st)
      end
    end
  end.

(** ** [_apply_cost_sheet] *)

Definition cost_row (sale_type : sale_type_t) (kind : kind_t) (sign : Z)
    (idx_order idx_dkpc idx_amount : nat)
    (acc : merge_state * nat) (row : list value) : result (merge_state * nat) :=
  let '(st, count_rows) := acc in
  let* order_id := py_index row idx_order in
  let* dkpc := py_index row idx_dkpc in
  let* amount_raw := py_index row idx_amount in
  if is_None order_id || is_None dkpc then Ok (st, count_rows)
  else
    let* n := _normalize_number amount_raw in
    let amount := n * sign in
    let k : key := (sale_type, py_str order_id, py_str dkpc) in
    let st :=
      match rows_map st !! k with
      | None =>
        let parsed := ParsedRow.new sale_type (py_str order_id) (py_str dkpc) [] false in
        mk_state (<[k := parsed]> (rows_map st)) (parsed_rows st ++ [k]) (log_lines st)
      | Some _ => st
      end in
    let st := update_row k (ParsedRow.add_cost kind amount) st in
    Ok (st, S count_rows).

Definition _apply_cost_sheet (wb : workbook) (sheet_name : str)
    (sale_type : sale_type_t) (kind : kind_t) (is_return_sheet : bool)
    (st : merge_state) : result merge_state :=
  match wb_get wb sheet_name with
  | None => Ok (log_append (LogCostSheetMissing sheet_name kind) st)
  | Some ws =>
    let headers := _get_header_row ws in
    match headers with
    | [] => Ok (log_append (LogNoHeader sheet_name) st)
    | _ =>
      let idx_order := _find_col headers KW_ORDER in
      let idx_dkpc := _find_col headers KW_DKPC in
      let idx_amount := _find_col headers KW_AMOUNT in
      match idx_order, idx_dkpc, idx_amount with
      | Some io, Some id, Some ia =>
        let sign := if is_return_sheet then -1 else 1 in
        let* res :=
          for_each (cost_row sale_type kind sign io id ia) (drop 1 ws) (st, 0%nat) in
        let '(st, count_rows) := res in
        Ok (log_append (LogCostApplied sheet_name count_rows) st)
      | _, _, _ => Ok (log_append (LogNoKeyColumns sheet_name) st)
      end
    end
  end.

(** ** [parse_invoice_excel] *)

Definition run_call (wb : workbook) (st : merge_state) (c : sheet_call)
  : result merge_state :=
  match c with
  | ReadSales n t r => _read_sales_sheet wb n t r st
  | ApplyCost n t k r => _apply_cost_sheet wb n t k r st
  end.

(** The sheet calls [calls] made one after the other on a fresh state. *)
Definition parse_with (calls : list sheet_call) (wb : workbook) : result merge_state :=
  for_each (run_call wb) calls initial_state.

(** [parse_invoice_excel] on an opened workbook: the calls of the source
    in their order. The result carries [parsed_rows] (see
    [parsed_rows_out]) and the log. *)
Definition parse_invoice_excel (wb : workbook) : result merge_state :=
  parse_with fixed_sequence wb.

End Engine.

(* ===================================================================== *)
(** * Pricing tiers *)
(* ===================================================================== *)

(** [PricingTier.objects.all().order_by("min_rows")]: the rows of the
    table in ascending [min_rows] (a stable insertion sort: rows with
    equal [min_rows] keep the order of the table). *)
Fixpoint insert_tier (x : PricingTier.t) (l : list PricingTier.t) : list PricingTier.t :=
  match l with
  | [] => [x]
  | y :: rest =>
    if PricingTier.min_rows x <=? PricingTier.min_rows y
    then x :: l
    else y :: insert_tier x rest
  end.

Definition order_by_min_rows (table : list PricingTier.t) : list PricingTier.t :=
  foldr insert_tier [] table.

(** The test of the loop of [calculate_price_for_row_count]. *)
Definition tier_matches (row_count : Z) (tier : PricingTier.t) : bool :=
  match PricingTier.max_rows tier with
  | None => PricingTier.min_rows tier <=? row_count
  | Some max_rows =>
    (PricingTier.min_rows tier <=? row_count) && (row_count <=? max_rows)
  end.

Definition calculate_price_for_row_count (table : list PricingTier.t) (row_count : Z) : Z :=
  if row_count <=? 0 then 0
  else
    match List.find (tier_matches row_count) (order_by_min_rows table) with
    | Some tier => PricingTier.price_per_invoice tier
    | None => 0
    end.

(* ===================================================================== *)
(** * Profit recalculation ([views.py]) *)
(* ===================================================================== *)

Definition set_profit_tax (profit tax : Z) (row : InvoiceRow.t) : InvoiceRow.t :=
  InvoiceRow.mk (InvoiceRow.sale_type row) (InvoiceRow.order_id row)
    (InvoiceRow.dkpc row) (InvoiceRow.title row) (InvoiceRow.sale_amount row)
    (InvoiceRow.purchase_price row) (InvoiceRow.commission_amount row)
    (InvoiceRow.shipping_fee row) (InvoiceRow.processing_fee row)
    (InvoiceRow.platform_dev_revenue row) tax profit (InvoiceRow.is_return row).

(** The body of the loop of [recalc_profit]. *)
Definition recalc_row (row : InvoiceRow.t) : InvoiceRow.t :=
  if InvoiceRow.is_return row || (InvoiceRow.purchase_price row <=? 0)
  then set_profit_tax 0 0 row
  else
    let tax := (InvoiceRow.commission_amount row + InvoiceRow.processing_fee row) / 10 in
    let total_cost :=
      match InvoiceRow.sale_type row with
      | cash =>
        InvoiceRow.purchase_price row + InvoiceRow.commission_amount row
        + InvoiceRow.shipping_fee row + InvoiceRow.processing_fee row + tax
      | credit =>
        InvoiceRow.purchase_price row + InvoiceRow.platform_dev_revenue row
        + InvoiceRow.commission_amount row + InvoiceRow.shipping_fee row
        + InvoiceRow.processing_fee row + tax
      end in
    set_profit_tax (InvoiceRow.sale_amount row - total_cost) tax row.

(** [recalc_profit(invoice)] on the rows of the invoice: every row is
    recomputed and written back ([bulk_update] of [profit], [tax_amount]). *)
Definition recalc_profit (rows : list InvoiceRow.t) : list InvoiceRow.t :=
  map recalc_row rows.

(** [InvoiceRow.objects.filter(invoice=invoice, dkpc=dkpc).update(purchase_price=price)] *)
Definition update_purchase_price (dkpc : str) (price : Z) (rows : list InvoiceRow.t)
  : list InvoiceRow.t :=
  map (fun row =>
         if decide (InvoiceRow.dkpc row = dkpc)
         then InvoiceRow.mk (InvoiceRow.sale_type row) (InvoiceRow.order_id row)
                (InvoiceRow.dkpc row) (InvoiceRow.title row)
                (InvoiceRow.sale_amount row) price
                (InvoiceRow.commission_amount row) (InvoiceRow.shipping_fee row)
                (InvoiceRow.processing_fee row) (InvoiceRow.platform_dev_revenue row)
                (InvoiceRow.tax_amount row) (InvoiceRow.profit row)
                (InvoiceRow.is_return row)
         else row) rows.

(** What the views write to the rows of an invoice once it is
    finalized: [invoice_prices] sets the purchase price of the rows of a
    variant code (the [update] of its upload loop and of its form loop),
    and [recalc_profit] recomputes every row. [invoice_prices] calls
    [recalc_profit] only when no price of the submission was rejected,
    so a write is not always followed by a recalculation. *)
Inductive row_write : Type :=
| WritePrice (dkpc : str) (price : Z)
| Recalc.

Definition apply_write (rows : list InvoiceRow.t) (wr : row_write)
  : list InvoiceRow.t :=
  match wr with
  | WritePrice dkpc price => update_purchase_price dkpc price rows
  | Recalc => recalc_profit rows
  end.

(** The rows after a history of writes, oldest first. *)
Definition apply_writes (history : list row_write) (rows : list InvoiceRow.t)
  : list InvoiceRow.t :=
  fold_left apply_write history rows.

(** What a write does to one row. *)
Definition write_to_row (row : InvoiceRow.t) (wr : row_write) : InvoiceRow.t :=
  match wr with
  | WritePrice dkpc price =>
    if decide (InvoiceRow.dkpc row = dkpc)
    then InvoiceRow.mk (InvoiceRow.sale_type row) (InvoiceRow.order_id row)
           (InvoiceRow.dkpc row) (InvoiceRow.title row)
           (InvoiceRow.sale_amount row) price
           (InvoiceRow.commission_amount row) (InvoiceRow.shipping_fee row)
           (InvoiceRow.processing_fee row) (InvoiceRow.platform_dev_revenue row)
           (InvoiceRow.tax_amount row) (InvoiceRow.profit row)
           (InvoiceRow.is_return row)
    else row
  | Recalc => recalc_row row
  end.

(** A write of a price, as opposed to a recalculation. *)
Definition is_price_write (wr : row_write) : bool :=
  match wr with
  | WritePrice _ _ => true
  | Recalc => false
  end.

(** A write of a price to another variant code than [dkpc]. *)
Definition writes_other_code (dkpc : str) (wr : row_write) : Prop :=
  match wr with
  | WritePrice d _ => d <> dkpc
  | Recalc => False
  end.

(* ===================================================================== *)
(** * Finalization and persistence ([process_invoice_file]) *)
(* ===================================================================== *)

(** The record that the loop of [process_invoice_file] creates for one
    [ParsedRow]; [purchase_price] and [profit] take their default, 0. *)
Definition stored_row (pr : ParsedRow.t) : InvoiceRow.t :=
  let is_return := ParsedRow.is_return pr || (ParsedRow.sale_amount pr <=? 0) in
  if is_return
  then InvoiceRow.mk (ParsedRow.sale_type pr) (ParsedRow.order_id pr)
         (ParsedRow.dkpc pr) (ParsedRow.title pr) 0 0 0 0 0 0 0 0 is_return
  else
    let sale_amount := Z.max 0 (ParsedRow.sale_amount pr) in
    let commission_amount := Z.max 0 (ParsedRow.commission_amount pr) in
    let shipping_fee := Z.max 0 (ParsedRow.shipping_fee pr) in
    let processing_fee := Z.max 0 (ParsedRow.processing_fee pr) in
    let platform_dev_revenue := Z.max 0 (ParsedRow.platform_dev_revenue pr) in
    let tax_amount := (commission_amount + processing_fee) / 10 in
    InvoiceRow.mk (ParsedRow.sale_type pr) (ParsedRow.order_id pr)
      (ParsedRow.dkpc pr) (ParsedRow.title pr) sale_amount 0 commission_amount
      shipping_fee processing_fee platform_dev_revenue tax_amount 0 is_return.

Inductive status_t : Type :=
| STATUS_PENDING | STATUS_PROCESSING | STATUS_DONE | STATUS_ERROR.

(** The model [InvoiceFile] (the fields [process_invoice_file] writes). *)
Module InvoiceFile.
Record t : Type := mk {
  status : status_t;
  error_message : str;
  row_count : Z;
  processing_price : Z
}.
End InvoiceFile.

(** What [process_invoice_file] works on: the Python object [invoice],
    its record in the database, the [InvoiceRow]s of this invoice, the
    tier table, and the number of queries issued so far. *)
Record world : Type := mk_world {
  invoice : InvoiceFile.t;
  db_invoice : InvoiceFile.t;
  db_rows : list InvoiceRow.t;
  db_tiers : list PricingTier.t;
  queries : nat
}.

(** What the function returns next to the row count: the log of a
    successful run, or the text built from the exception. *)
Inductive report : Type :=
| LogText (log : list log_line)
| ErrorText (e : exn).

Section Persistence.

(** Every query can fail: [faults n] is the exception raised by the
    [n]-th query, if any. *)
Variable faults : nat -> option exn.

(** Code that reads and writes the world and may raise. *)
Definition M (A : Type) : Type := world -> result A * world.

Definition tick (w : world) : world :=
  mk_world (invoice w) (db_invoice w) (db_rows w) (db_tiers w) (S (queries w)).

(** One query with the effect [effect] on the database. *)
Definition query (effect : world -> world) : M unit :=
  fun w =>
    match faults (queries w) with
    | Some e => (Raise e, tick w)
    | None => (Ok tt, tick (effect w))
    end.

(** [with transaction.atomic(): body]: the writes of [body] are committed
    when it ends normally, and undone when it raises or the commit
    fails; the Python objects keep what was assigned to them. *)
Definition rollback (before after : world) : world :=
  mk_world (invoice after) (db_invoice before) (db_rows before)
           (db_tiers before) (queries after).

Definition atomic {A : Type} (body : M A) : M A :=
  fun w =>
    match body w with
    | (Ok a, w') =>
      match faults (queries w') with
      | Some e => (Raise e, rollback w (tick w'))
      | None => (Ok a, tick w')
      end
    | (Raise e, w') => (Raise e, rollback w w')
    end.

(** [InvoiceRow.objects.filter(invoice=invoice).delete()] *)
Definition delete_rows : M unit :=
  query (fun w => mk_world (invoice w) (db_invoice w) [] (db_tiers w) (queries w)).

(** [InvoiceRow.objects.create(...)] *)
Definition create_row (r : InvoiceRow.t) : M unit :=
  query (fun w =>
           mk_world (invoice w) (db_invoice w) (db_rows w ++ [r]) (db_tiers w)
                    (queries w)).

(** The loop [for pr in parsed_rows] with its counter [row_count]. *)
Fixpoint create_rows (prs : list ParsedRow.t) (row_count : Z) : M Z :=
  match prs with
  | [] => fun w => (Ok row_count, w)
  | pr :: rest =>
    fun w =>
      match create_row (stored_row pr) w with
      | (Ok _, w') => create_rows rest (row_count + 1) w'
      | (Raise e, w') => (Raise e, w')
      end
  end.

(** The assignments [invoice.row_count = row_count],
    [invoice.processing_price = calculate_price_for_row_count(row_count)]
    and [invoice.status = STATUS_DONE]; the tier table is only queried
    for a positive [row_count]. *)
Definition price_invoice (row_count : Z) : M unit :=
  fun w =>
    let w1 :=
      mk_world
        (InvoiceFile.mk (InvoiceFile.status (invoice w))
           (InvoiceFile.error_message (invoice w)) row_count
           (InvoiceFile.processing_price (invoice w)))
        (db_invoice w) (db_rows w) (db_tiers w) (queries w) in
    let priced (w : world) :=
      mk_world
        (InvoiceFile.mk STATUS_DONE (InvoiceFile.error_message (invoice w))
           (InvoiceFile.row_count (invoice w))
           (calculate_price_for_row_count (db_tiers w) row_count))
        (db_invoice w) (db_rows w) (db_tiers w) (queries w) in
    if row_count <=? 0 then (Ok tt, priced w1)
    else query priced w1.

(** [invoice.save(update_fields=["row_count", "processing_price", "status"])] *)
Definition save_result : M unit :=
  query (fun w =>
           mk_world (invoice w)
             (InvoiceFile.mk (InvoiceFile.status (invoice w))
                (InvoiceFile.error_message (db_invoice w))
                (InvoiceFile.row_count (invoice w))
                (InvoiceFile.processing_price (invoice w)))
             (db_rows w) (db_tiers w) (queries w)).

(** The body of [with transaction.atomic()]. *)
Definition replace_rows (prs : list ParsedRow.t) : M unit :=
  fun w =>
    match delete_rows w with
    | (Raise e, w1) => (Raise e, w1)
    | (Ok _, w1) =>
      match create_rows prs 0 w1 with
      | (Raise e, w2) => (Raise e, w2)
      | (Ok row_count, w2) =>
        match price_invoice row_count w2 with
        | (Raise e, w3) => (Raise e, w3)
        | (Ok _, w3) => save_result w3
        end
      end
    end.

(** The two assignments [invoice.status = s] and
    [invoice.error_message = msg] on the Python object. *)
Definition assign_status (s : status_t) (msg : str) (w : world) : world :=
  mk_world
    (InvoiceFile.mk s msg (InvoiceFile.row_count (invoice w))
       (InvoiceFile.processing_price (invoice w)))
    (db_invoice w) (db_rows w) (db_tiers w) (queries w).

(** [invoice.save(update_fields=["status", "error_message"])]: a query
    like the others, it can fail. *)
Definition save_status : M unit :=
  query (fun w =>
           mk_world (invoice w)
             (InvoiceFile.mk (InvoiceFile.status (invoice w))
                (InvoiceFile.error_message (invoice w))
                (InvoiceFile.row_count (db_invoice w))
                (InvoiceFile.processing_price (db_invoice w)))
             (db_rows w) (db_tiers w) (queries w)).

(** The assignments followed by the save, as they stand before the
    [try] and in the handler. *)
Definition mark (s : status_t) (msg : str) : M unit :=
  fun w => save_status (assign_status s msg w).

Section WithRuntime.
Variable str_lower : str -> str.
Variable float_str : spec_float -> str.

(** The [try] block. [file] is what [load_workbook] makes of the
    uploaded file: a workbook, or the exception it raises. *)
Definition try_block (file : result workbook) : M (Z * list log_line) :=
  fun w =>
    match file with
    | Raise e => (Raise e, w)
    | Ok wb =>
      match parse_invoice_excel str_lower float_str wb with
      | Raise e => (Raise e, w)
      | Ok st =>
        match atomic (replace_rows (parsed_rows_out st)) w with
        | (Ok _, w') => (Ok (InvoiceFile.row_count (invoice w'), log_lines st), w')
        | (Raise e, w') => (Raise e, w')
        end
      end
    end.

(** [process_invoice_file(invoice)]. An exception of the first save
    leaves the function before the [try]; an exception of the [try]
    block is caught by the handler, whose own save can raise in turn,
    and that exception leaves the function. *)
Definition process_invoice_file (file : result workbook) : M (Z * report) :=
  fun w =>
    match mark STATUS_PROCESSING [] w with
    | (Raise e, w0) => (Raise e, w0)
    | (Ok _, w0) =>
      match try_block file w0 with
      | (Ok (row_count, log_text), w') => (Ok (row_count, LogText log_text), w')
      | (Raise e, w') =>
        match mark STATUS_ERROR (exn_str e) w' with
        | (Raise e', w'') => (Raise e', w'')
        | (Ok _, w'') => (Ok (0, ErrorText e), w'')
        end
      end
    end.
End WithRuntime.

End Persistence.

(* ===================================================================== *)
(** * Notions used in the statements *)
(* ===================================================================== *)

(** What a non-return row keeps while prices are written and profits
    recalculated: its flag and its non-negative commission and
    processing fee. *)
Definition clamped (r : InvoiceRow.t) : Prop :=
  InvoiceRow.is_return r = false ->
  0 <= InvoiceRow.commission_amount r /\ 0 <= InvoiceRow.processing_fee r.

(** The scenario of the tests: three tiers, the last one unbounded. *)
Definition scenario_tiers : list PricingTier.t :=
  [ PricingTier.mk 1 (Some 500) 490000;
    PricingTier.mk 501 (Some 1000) 890000;
    PricingTier.mk 1001 None 1290000 ].

(** No two tiers of the table match the same row count. *)
Definition non_overlapping (table : list PricingTier.t) : Prop :=
  forall (i j : nat) (t1 t2 : PricingTier.t) (n : Z),
    table !! i = Some t1 -> table !! j = Some t2 -> i <> j ->
    tier_matches n t1 = true -> tier_matches n t2 = true -> False.

(** The order of [order_by("min_rows")]. *)
Definition by_min_rows (a b : PricingTier.t) : Prop :=
  PricingTier.min_rows a <= PricingTier.min_rows b.

(* ===================================================================== *)
(** * The contributions of a workbook *)
(* ===================================================================== *)

(** What one data row of a sheet brings to the ledger, read off the row
    alone: the identity it names, the title and the flag that the line
    gets if this row creates it, and the amount it adds to one field.
    The merger is shown below to be the fold of [apply_contribution]
    over the contributions of the sheets, in processing order. *)

(** The accumulated fields of a ledger line. *)
Inductive field : Type := FSale | FCost (kind : kind_t).

Record contribution : Type := mk_contribution {
  c_key : key;
  c_title : str;
  c_return : bool;
  c_field : field;
  c_delta : Z
}.

Definition add_field (f : field) (a : Z) (r : ParsedRow.t) : ParsedRow.t :=
  match f with
  | FSale => ParsedRow.add_sale_amount a r
  | FCost kind => ParsedRow.add_cost kind a r
  end.

Definition get_field (f : field) (r : ParsedRow.t) : Z :=
  match f with
  | FSale => ParsedRow.sale_amount r
  | FCost commission => ParsedRow.commission_amount r
  | FCost shipping => ParsedRow.shipping_fee r
  | FCost processing => ParsedRow.processing_fee r
  | FCost platform_dev => ParsedRow.platform_dev_revenue r
  end.

Definition field_eqb (f g : field) : bool :=
  match f, g with
  | FSale, FSale => true
  | FCost commission, FCost commission => true
  | FCost shipping, FCost shipping => true
  | FCost processing, FCost processing => true
  | FCost platform_dev, FCost platform_dev => true
  | _, _ => false
  end.

(** The five accumulated amounts of a line. *)
Definition amounts (r : ParsedRow.t) : Z * Z * Z * Z * Z :=
  (ParsedRow.sale_amount r, ParsedRow.commission_amount r, ParsedRow.shipping_fee r,
   ParsedRow.processing_fee r, ParsedRow.platform_dev_revenue r).

(** The line of the contribution is created if it is missing, then the
    amount is added to its field. *)
Definition apply_contribution (c : contribution) (st : merge_state) : merge_state :=
  let k := c_key c in
  let st :=
    match rows_map st !! k with
    | None =>
      mk_state
        (<[k := ParsedRow.new (fst (fst k)) (snd (fst k)) (snd k) (c_title c) (c_return c)]>
           (rows_map st))
        (parsed_rows st ++ [k]) (log_lines st)
    | Some _ => st
    end in
  update_row k (add_field (c_field c) (c_delta c)) st.

(** The line that a contribution creates. *)
Definition created_row (c : contribution) : ParsedRow.t :=
  ParsedRow.new (fst (fst (c_key c))) (snd (fst (c_key c))) (snd (c_key c))
    (c_title c) (c_return c).

Definition apply_all (cs : list contribution) (st : merge_state) : merge_state :=
  fold_left (fun s c => apply_contribution c s) cs st.

(** Two states with the same ledger, whatever their logs. *)
Definition same_ledger (st st' : merge_state) : Prop :=
  rows_map st = rows_map st' /\ parsed_rows st = parsed_rows st'.

(** The contributions of the rows [rows], read with [read]. *)
Fixpoint collect (read : list value -> result (option contribution))
    (rows : list (list value)) : result (list contribution) :=
  match rows with
  | [] => Ok []
  | row :: rest =>
    let* oc := read row in
    let* more := collect read rest in
    Ok (match oc with Some c => c :: more | None => more end)
  end.

(** The first contribution that names the identity [k]. *)
Definition first_contribution (k : key) (cs : list contribution) : option contribution :=
  List.find (fun c => bool_decide (c_key c = k)) cs.

(** The sum of what the contributions add to the field [f] of the line [k]. *)
Definition field_sum (f : field) (k : key) (cs : list contribution) : Z :=
  foldr (fun c acc =>
           if bool_decide (c_key c = k) && field_eqb (c_field c) f
           then c_delta c + acc else acc) 0 cs.

(** The last non-empty title among the contributions that name [k]. *)
Definition last_nonempty_title (k : key) (cs : list contribution) : option str :=
  last (List.filter (fun t => negb (Nat.eqb (length t) 0))
          (map c_title (List.filter (fun c => bool_decide (c_key c = k)) cs))).

Section Contributions.

Variable str_lower : str -> str.
Variable float_str : spec_float -> str.

(** The contribution of a data row of a sales or return sheet; [None]
    for a row that the loop skips. *)
Definition sales_contribution (sale_type : sale_type_t) (is_return_sheet : bool)
    (idx_order idx_dkpc : nat) (idx_title : option nat) (idx_amount : nat)
    (row : list value) : result (option contribution) :=
  let* order_id := py_index row idx_order in
  let* dkpc := py_index row idx_dkpc in
  let* title :=
    match idx_title with
    | Some i => py_index row i
    | None => Ok (VStr [])
    end in
  let* amount_raw := py_index row idx_amount in
  if is_None order_id || is_None dkpc then Ok None
  else
    let* amount := _normalize_number amount_raw in
    Ok (Some (mk_contribution
                (sale_type, py_str float_str order_id, py_str float_str dkpc)
                (if is_None title then [] else py_str float_str title)
                is_return_sheet FSale
                (if is_return_sheet then - Z.abs amount else amount))).

(** The contribution of a data row of a cost sheet. *)
Definition cost_contribution (sale_type : sale_type_t) (kind : kind_t) (sign : Z)
    (idx_order idx_dkpc idx_amount : nat)
    (row : list value) : result (option contribution) :=
  let* order_id := py_index row idx_order in
  let* dkpc := py_index row idx_dkpc in
  let* amount_raw := py_index row idx_amount in
  if is_None order_id || is_None dkpc then Ok None
  else
    let* n := _normalize_number amount_raw in
    Ok (Some (mk_contribution
                (sale_type, py_str float_str order_id, py_str float_str dkpc)
                [] false (FCost kind) (n * sign))).

(** The contributions of the sheet of one call; none when the sheet is
    missing, has no header or lacks a key column. *)
Definition call_contributions (wb : workbook) (c : sheet_call)
  : result (list contribution) :=
  match c with
  | ReadSales sheet_name sale_type is_return_sheet =>
    match wb_get wb sheet_name with
    | None => Ok []
    | Some ws =>
      let headers := _get_header_row float_str ws in
      match headers with
      | [] => Ok []
      | _ =>
        match _find_col str_lower headers KW_ORDER,
              _find_col str_lower headers KW_DKPC,
              _find_col str_lower headers KW_AMOUNT with
        | Some io, Some id, Some ia =>
          collect (sales_contribution sale_type is_return_sheet io id
                     (_find_col str_lower headers KW_TITLE) ia)
                  (drop 1 ws)
        | _, _, _ => Ok []
        end
      end
    end
  | ApplyCost sheet_name sale_type kind is_return_sheet =>
    match wb_get wb sheet_name with
    | None => Ok []
    | Some ws =>
      let headers := _get_header_row float_str ws in
      match headers with
      | [] => Ok []
      | _ =>
        match _find_col str_lower headers KW_ORDER,
              _find_col str_lower headers KW_DKPC,
              _find_col str_lower headers KW_AMOUNT with
        | Some io, Some id, Some ia =>
          collect (cost_contribution sale_type kind
                     (if is_return_sheet then -1 else 1) io id ia)
                  (drop 1 ws)
        | _, _, _ => Ok []
        end
      end
    end
  end.

(** The contributions of the sheets of [calls], in processing order. *)
Fixpoint contributions (calls : list sheet_call) (wb : workbook)
  : result (list contribution) :=
  match calls with
  | [] => Ok []
  | c :: rest =>
    let* cs := call_contributions wb c in
    let* more := contributions rest wb in
    Ok (cs ++ more)
  end.

End Contributions.

(** The runtime functions used to evaluate examples: strings without
    cased letters outside ASCII, and no float among the cells. *)
Definition ascii_lower (s : str) : str :=
  map (fun c => if ((65 <=? c) && (c <=? 90))%N then (c + 32)%N else c) s.

Definition no_float_str (f : spec_float) : str := [].

(** The header row of the example sheets. *)
Definition example_header : list value :=
  [ VStr (u "شماره سفارش"); VStr (u "کد تنوع"); VStr (u "عنوان کالا");
    VStr (u "مبلغ نهایی") ].

(** A sale of 100 and a return of 30 for the same order line. *)
Definition wb_partial_return : workbook :=
  [ (u "فروش", [example_header; [VInt 1001; VInt 55; VStr (u "A"); VInt 100]]);
    (u "برگشت از فروش", [example_header; [VInt 1001; VInt 55; VStr (u "B"); VInt 30]]) ].

(** Two sale rows for the same order line, the first without a title. *)
Definition wb_titles : workbook :=
  [ (u "فروش", [example_header; [VInt 1001; VInt 55; VNone; VInt 100];
                 [VInt 1001; VInt 55; VStr (u "B"); VInt 50]]) ].

(** A sale, and a commission for an order line that no sales sheet names. *)
Definition wb_cost_only : workbook :=
  [ (u "فروش", [example_header; [VInt 1001; VInt 55; VStr (u "A"); VInt 100]]);
    (u "کمیسیون فروش", [example_header; [VInt 77; VInt 5; VNone; VInt 9]]) ].

Definition line_1001_55 : key := (cash, u "1001", u "55").
Definition line_77_5 : key := (cash, u "77", u "5").

(** The fixed sequence with its first two calls exchanged: the cash
    return sheet is read before the cash sale sheet. *)
Definition returns_first : list sheet_call :=
  match fixed_sequence with
  | a :: b :: rest => b :: a :: rest
  | l => l
  end.

(** The state in which a successful parse ends. *)
Definition parsed_state (calls : list sheet_call) (wb : workbook) : merge_state :=
  match parse_with ascii_lower no_float_str calls wb with
  | Ok st => st
  | Raise _ => initial_state
  end.

(** A sale of 100, its full return and a commission of 10 for one order
    line. *)
Definition wb_full_return : workbook :=
  [ (u "فروش", [example_header; [VInt 1001; VInt 55; VStr (u "A"); VInt 100]]);
    (u "برگشت از فروش",
     [example_header; [VInt 1001; VInt 55; VStr (u "A"); VStr (u "-100")]]);
    (u "کمیسیون فروش", [example_header; [VInt 1001; VInt 55; VNone; VInt 10]]) ].

(** No query fails. *)
Definition no_fault (n : nat) : option exn := None.

(** The query number [k] fails. *)
Definition fault_at (k : nat) (e : exn) (n : nat) : option exn :=
  if Nat.eqb n k then Some e else None.

(** Every query from number [k] on fails: the database is gone. *)
Definition fault_from (k : nat) (e : exn) (n : nat) : option exn :=
  if (k <=? n)%nat then Some e else None.

(** An invoice that was processed before and has one stored line. *)
Definition old_row : InvoiceRow.t :=
  InvoiceRow.mk cash (u "900") (u "7") (u "old") 5000 3000 100 0 0 0 10 1890 false.

Definition processed_world : world :=
  mk_world (InvoiceFile.mk STATUS_DONE [] 1 490000)
           (InvoiceFile.mk STATUS_DONE [] 1 490000)
           [old_row] scenario_tiers 0.

(** The scenario of the specification: a sale of "1,234" and a reversal
    of commission of "100" for the same order line. *)
Definition wb_reversal : workbook :=
  [ (u "فروش",
     [example_header; [VInt 1001; VInt 55; VStr (u "A"); VStr (u "1,234")]]);
    (u "برگشت از کمیسیون فروش",
     [example_header; [VInt 1001; VInt 55; VNone; VStr (u "100")]]) ].

(* ===================================================================== *)
(** * Notions used in the further properties *)
(* ===================================================================== *)

(** The code points of a Rocq string of ASCII characters. *)
Definition codes (s : string) : str := map N_of_ascii (list_ascii_of_string s).

(** The value of the decimal digits [d], most significant first, read
    after the value [acc]. *)
Fixpoint digits_value (d : Decimal.uint) (acc : N) : N :=
  match d with
  | Decimal.Nil => acc
  | Decimal.D0 d => digits_value d (10 * acc)
  | Decimal.D1 d => digits_value d (10 * acc + 1)
  | Decimal.D2 d => digits_value d (10 * acc + 2)
  | Decimal.D3 d => digits_value d (10 * acc + 3)
  | Decimal.D4 d => digits_value d (10 * acc + 4)
  | Decimal.D5 d => digits_value d (10 * acc + 5)
  | Decimal.D6 d => digits_value d (10 * acc + 6)
  | Decimal.D7 d => digits_value d (10 * acc + 7)
  | Decimal.D8 d => digits_value d (10 * acc + 8)
  | Decimal.D9 d => digits_value d (10 * acc + 9)
  end%N.

(** An ASCII decimal digit. *)
Definition ascii_digit (c : N) : Prop := (48 <= c < 58)%N.

(** The characters of [str(n)]: a minus sign or an ASCII digit. *)
Definition sign_or_digit (c : N) : Prop := (45 <= c < 58)%N.


(** The test of [_find_col] on one header: some keyword occurs in the
    lower-cased, trimmed name. *)
Definition header_matches (str_lower : str -> str) (keywords : list str) (name : str)
  : bool :=
  existsb (fun kw => contains (str_lower kw) (strip (str_lower name))) keywords.

(** The cell of a header row as [_get_header_row] returns it. *)
Definition header_cell (float_str : spec_float -> str) (c : value) : str :=
  if is_None c then [] else strip (py_str float_str c).

(** All rows of a worksheet have the same width (openpyxl pads them). *)
Definition rectangular (ws : worksheet) : Prop :=
  forall r1 r2, In r1 ws -> In r2 ws -> length r1 = length r2.

(** Some cell of some sheet of the workbook is an infinite float. *)
Definition has_infinite_cell (wb : workbook) : Prop :=
  exists n ws row s,
    wb_get wb n = Some ws /\ In row ws /\ In (VFloat (S754_infinity s)) row.

(** The sheet name of a call. *)
Definition call_sheet (c : sheet_call) : str :=
  match c with
  | ReadSales n _ _ => n
  | ApplyCost n _ _ _ => n
  end.

(** The identity that a parsed row carries. *)
Definition key_of (r : ParsedRow.t) : key :=
  (ParsedRow.sale_type r, ParsedRow.order_id r, ParsedRow.dkpc r).

(** The identity of a stored row. *)
Definition row_key (r : InvoiceRow.t) : key :=
  (InvoiceRow.sale_type r, InvoiceRow.order_id r, InvoiceRow.dkpc r).

(** The ledger is well formed: the list holds every key of the map once,
    and every row is stored under its own identity. *)
Definition ledger_ok (st : merge_state) : Prop :=
  NoDup (parsed_rows st) /\
  (forall k, In k (parsed_rows st) <-> is_Some (rows_map st !! k)) /\
  (forall k r, rows_map st !! k = Some r -> key_of r = k).

(** What reading one row can give: a contribution or a skip, or the
    [OverflowError] of an infinite cell of the row. *)
Definition row_outcome (row : list value) (r : result (option contribution)) : Prop :=
  (exists oc, r = Ok oc) \/
  (r = Raise OverflowError /\ exists s, In (VFloat (S754_infinity s)) row).


(** The stored form of a row: no negative amount, and a non-return row
    has a positive sale amount. *)
Definition row_well_formed (r : InvoiceRow.t) : Prop :=
  0 <= InvoiceRow.sale_amount r /\ 0 <= InvoiceRow.commission_amount r /\
  0 <= InvoiceRow.shipping_fee r /\ 0 <= InvoiceRow.processing_fee r /\
  0 <= InvoiceRow.platform_dev_revenue r /\ 0 <= InvoiceRow.tax_amount r /\
  (InvoiceRow.is_return r = false -> 0 < InvoiceRow.sale_amount r) /\
  (InvoiceRow.is_return r = true ->
   InvoiceRow.sale_amount r = 0 /\ InvoiceRow.commission_amount r = 0 /\
   InvoiceRow.shipping_fee r = 0 /\ InvoiceRow.processing_fee r = 0 /\
   InvoiceRow.platform_dev_revenue r = 0 /\ InvoiceRow.tax_amount r = 0).

(** [InvoiceFile.calculate_price_from_tiers] ([models.py]): the first row
    of the table, in [min_rows] order, filtered by
    [min_rows <= row_count and (max_rows >= row_count or max_rows is null)]. *)
Definition calculate_price_from_tiers (table : list PricingTier.t) (row_count : Z) : Z :=
  if row_count <=? 0 then 0
  else
    match
      head (List.filter
              (fun tier =>
                 (PricingTier.min_rows tier <=? row_count) &&
                 match PricingTier.max_rows tier with
                 | Some max_rows => row_count <=? max_rows
                 | None => true
                 end)
              (order_by_min_rows table))
    with
    | Some tier => PricingTier.price_per_invoice tier
    | None => 0
    end.

(** A row with another purchase price. *)
Definition with_price (price : Z) (row : InvoiceRow.t) : InvoiceRow.t :=
  InvoiceRow.mk (InvoiceRow.sale_type row) (InvoiceRow.order_id row)
    (InvoiceRow.dkpc row) (InvoiceRow.title row) (InvoiceRow.sale_amount row) price
    (InvoiceRow.commission_amount row) (InvoiceRow.shipping_fee row)
    (InvoiceRow.processing_fee row) (InvoiceRow.platform_dev_revenue row)
    (InvoiceRow.tax_amount row) (InvoiceRow.profit row) (InvoiceRow.is_return row).

(* ===================================================================== *)
(** * Wallet: payment and top-up ([views.py]) *)
(* ===================================================================== *)

Inductive txn_type_t : Type := TYPE_CREDIT | TYPE_DEBIT.

(** The model [WalletTransaction] (type, amount, invoice). *)
Record wallet_txn : Type := mk_txn {
  txn_type : txn_type_t;
  txn_amount : Z;
  txn_invoice : option nat
}.

(** The invoice of a payment: [processing_price] and [is_paid]. *)
Record bill : Type := mk_bill {
  bill_price : Z;
  bill_paid : bool
}.

(** What the wallet views work on, for one user: the balance of the
    wallet, its transactions (oldest first) and the invoices of the user
    by id. *)
Record account : Type := mk_account {
  balance : Z;
  transactions : list wallet_txn;
  bills : gmap nat bill
}.

(** The outcomes of [invoice_pay]. *)
Inductive pay_response : Type :=
| PayNotFound                      (* get_object_or_404 raises Http404 *)
| PayAlreadyPaid                   (* info, redirect to invoice_detail *)
| PayPriceNotSet                   (* error, redirect to invoice_detail *)
| PayInsufficient                  (* error, redirect to invoice_pay *)
| PayDone                          (* success, redirect to invoice_detail *)
| PayPage (price needed : Z).      (* the page invoice_pay.html *)

(** [invoice_pay(request, invoice_id)]; [post] tells whether the request
    method is POST. *)
Definition invoice_pay (post : bool) (invoice_id : nat) (a : account)
  : pay_response * account :=
  match bills a !! invoice_id with
  | None => (PayNotFound, a)
  | Some inv =>
    if bill_paid inv then (PayAlreadyPaid, a)
    else
      let price := bill_price inv in
      let needed := Z.max (price - balance a) 0 in
      if post then
        if price <=? 0 then (PayPriceNotSet, a)
        else if balance a <? price then (PayInsufficient, a)
        else
          (* with transaction.atomic(): the wallet is read again *)
          if balance a <? price then (PayInsufficient, a)
          else
            (PayDone,
             mk_account (balance a - price)
               (transactions a ++ [mk_txn TYPE_DEBIT price (Some invoice_id)])
               (<[invoice_id := mk_bill (bill_price inv) true]> (bills a)))
      else (PayPage price needed, a)
  end.

(** The range of a [BigIntegerField]: a value outside it makes the
    query that writes it fail. *)
Definition min_bigint : Z := -9223372036854775808.
Definition max_bigint : Z := 9223372036854775807.

Definition in_bigint (n : Z) : bool := (min_bigint <=? n) && (n <=? max_bigint).

(** The error of the database for a value outside the column. *)
Definition out_of_range : exn := DatabaseError (u "integer out of range").

(** The outcomes of [wallet_topup_view]. *)
Inductive topup_response : Type :=
| TopupInvalid                     (* error, redirect to wallet_topup *)
| TopupDone                        (* success, redirect to wallet *)
| TopupNext (next_url : str)       (* success, redirect(next_url) *)
| TopupPage.                       (* the page wallet_topup.html *)

Section Wallet.

(** Django's [redirect(to)] on the text of the query string: it raises
    for a text that names no URL pattern and does not look like a URL.
    [redirect to] is the exception it raises, if any. *)
Variable redirect : str -> option exn.

(** [wallet_topup_view(request)]; [post] is the posted ["amount"] of a
    POST request ([""] when the field is missing), [None] for a GET;
    [next_url] is [request.GET.get("next")]. The result is what the view
    returns or raises, with the account as the database has it then:
    an exception inside [transaction.atomic()] undoes the credit, an
    exception of [redirect(next_url)] comes after the commit. *)
Definition wallet_topup_view (post : option str) (next_url : option str) (a : account)
  : result topup_response * account :=
  match post with
  | Some raw_amount =>
    match normalize_number (VStr raw_amount) with
    | Raise e => (Raise e, a)
    | Ok amount =>
      if amount <=? 0 then (Ok TopupInvalid, a)
      else if negb (in_bigint (balance a + amount)) then
        (Raise out_of_range, a)              (* wallet.save *)
      else if negb (in_bigint amount) then
        (Raise out_of_range, a)              (* WalletTransaction.objects.create *)
      else
        let a' :=
          mk_account (balance a + amount)
            (transactions a ++ [mk_txn TYPE_CREDIT amount None])
            (bills a) in
        match next_url with
        | Some (c :: rest) =>
          match redirect (c :: rest) with
          | Some e => (Raise e, a')
          | None => (Ok (TopupNext (c :: rest)), a')
          end
        | _ => (Ok TopupDone, a')
        end
    end
  | None => (Ok TopupPage, a)
  end.

(** A request to one of the two views. *)
Inductive request : Type :=
| PayRequest (post : bool) (invoice_id : nat)
| TopupRequest (post : option str) (next_url : option str).

(** The account after a request, as the database has it. *)
Definition handle (a : account) (r : request) : account :=
  match r with
  | PayRequest post invoice_id => snd (invoice_pay post invoice_id a)
  | TopupRequest post next_url => snd (wallet_topup_view post next_url a)
  end.

End Wallet.

(** The credits minus the debits of a list of transactions. *)
Definition ledger_total (txns : list wallet_txn) : Z :=
  foldr (fun t acc =>
           match txn_type t with
           | TYPE_CREDIT => txn_amount t + acc
           | TYPE_DEBIT => acc - txn_amount t
           end) 0 txns.

(** The debits recorded for the invoice [invoice_id]. *)
Definition debits_for (invoice_id : nat) (txns : list wallet_txn) : list wallet_txn :=
  List.filter
    (fun t =>
       match txn_type t, txn_invoice t with
       | TYPE_DEBIT, Some i => Nat.eqb i invoice_id
       | _, _ => false
       end) txns.

(** An invoice has at most one debit, and only when it is paid. *)
Definition charged_once (a : account) : Prop :=
  forall invoice_id,
    (length (debits_for invoice_id (transactions a)) <= 1)%nat /\
    (length (debits_for invoice_id (transactions a)) = 1%nat ->
     exists inv, bills a !! invoice_id = Some inv /\ bill_paid inv = true).

(* ===================================================================== *)
(** * Export: totals and summary per variant code ([views.py]) *)
(* ===================================================================== *)

(** An entry of [dkpc_summary]. *)
Record dkpc_entry : Type := mk_entry {
  e_title : str;
  e_count : Z;
  e_sale : Z;
  e_profit : Z
}.

(** The six totals of the summary sheet. *)
Record totals : Type := mk_totals {
  total_sale : Z;
  total_profit : Z;
  total_commission : Z;
  total_shipping : Z;
  total_processing : Z;
  total_platform_dev : Z
}.

(** The local state of the loop of [export_invoice_excel]; [cash_rows]
    and [credit_rows] hold the rows whose [get_export_row()] was
    appended, [dkpc_summary] is a dict, kept in insertion order. *)
Record export_state : Type := mk_export {
  cash_rows : list InvoiceRow.t;
  credit_rows : list InvoiceRow.t;
  export_totals : totals;
  dkpc_summary : list (str * dkpc_entry)
}.

(** [d[key]["count"] += 1; d[key]["sale"] += sale; d[key]["profit"] += profit]
    on the entry of [key]. *)
Fixpoint summary_bump (key : str) (sale profit : Z) (d : list (str * dkpc_entry))
  : list (str * dkpc_entry) :=
  match d with
  | [] => []
  | (k, e) :: rest =>
    if decide (k = key)
    then (k, mk_entry (e_title e) (e_count e + 1) (e_sale e + sale)
                (e_profit e + profit)) :: rest
    else (k, e) :: summary_bump key sale profit rest
  end.

(** [key in d] *)
Definition summary_has (key : str) (d : list (str * dkpc_entry)) : bool :=
  existsb (fun ke => bool_decide (fst ke = key)) d.

(** The body of the loop [for r in rows]. *)
Definition export_row (s : export_state) (r : InvoiceRow.t) : export_state :=
  let to_sheet (s : export_state) :=
    match InvoiceRow.sale_type r with
    | cash => mk_export (cash_rows s ++ [r]) (credit_rows s) (export_totals s)
                (dkpc_summary s)
    | credit => mk_export (cash_rows s) (credit_rows s ++ [r]) (export_totals s)
                  (dkpc_summary s)
    end in
  if InvoiceRow.is_return r then to_sheet s
  else
    let t := export_totals s in
    let t' :=
      mk_totals (total_sale t + InvoiceRow.sale_amount r)
        (total_profit t + InvoiceRow.profit r)
        (total_commission t + InvoiceRow.commission_amount r)
        (total_shipping t + InvoiceRow.shipping_fee r)
        (total_processing t + InvoiceRow.processing_fee r)
        (total_platform_dev t + InvoiceRow.platform_dev_revenue r) in
    let d := dkpc_summary s in
    let d :=
      if summary_has (InvoiceRow.dkpc r) d then d
      else d ++ [(InvoiceRow.dkpc r, mk_entry (InvoiceRow.title r) 0 0 0)] in
    let d := summary_bump (InvoiceRow.dkpc r) (InvoiceRow.sale_amount r)
               (InvoiceRow.profit r) d in
    to_sheet (mk_export (cash_rows s) (credit_rows s) t' d).

(** [export_invoice_excel] up to the data frames: [None] when the invoice
    is not paid (redirect to the payment page); [rows] are the rows of
    the invoice in the order of the query. *)
Definition export_invoice_excel (is_paid : bool) (rows : list InvoiceRow.t)
  : option export_state :=
  if negb is_paid then None
  else Some (fold_left export_row rows (mk_export [] [] (mk_totals 0 0 0 0 0 0) [])).

(** The sum of a field over the rows that are not returns. *)
Definition sum_sales (f : InvoiceRow.t -> Z) (rows : list InvoiceRow.t) : Z :=
  foldr (fun r acc => if InvoiceRow.is_return r then acc else f r + acc) 0 rows.

(** The sum of a field over the entries of the summary. *)
Definition sum_entries (f : dkpc_entry -> Z) (d : list (str * dkpc_entry)) : Z :=
  foldr (fun ke acc => f (snd ke) + acc) 0 d.

(** The scenario of the specification: a balance of 1,000,000 and an
    unpaid invoice with that fee. *)
Definition example_account : account :=
  mk_account 1000000 [] {[ 7%nat := mk_bill 1000000 false ]}.

(** A [redirect] that accepts the texts with a "/" and refuses the
    others, as Django does for a text that names no URL pattern. *)
Definition example_redirect (to : str) : option exn :=
  if existsb (N.eqb 47) to then None else Some (NoReverseMatch to).

(** Two rows of one variant code, a return and a credit row. *)
Definition example_export_rows : list InvoiceRow.t :=
  [ InvoiceRow.mk cash (u "1001") (u "55") (u "A") 5000 3000 100 0 0 0 10 1890 false;
    InvoiceRow.mk cash (u "1002") (u "55") (u "A2") 7000 3000 100 0 0 0 10 3890 false;
    InvoiceRow.mk cash (u "1003") (u "56") (u "B") 0 0 0 0 0 0 0 0 true;
    InvoiceRow.mk credit (u "1004") (u "57") (u "C") 900 0 0 0 0 50 0 0 false ].

(** The invariant of the loop of [export_invoice_excel]. *)
Definition export_inv (done : list InvoiceRow.t) (s : export_state) : Prop :=
  cash_rows s
  = List.filter (fun r => match InvoiceRow.sale_type r with cash => true | credit => false end)
      done /\
  credit_rows s
  = List.filter (fun r => match InvoiceRow.sale_type r with cash => false | credit => true end)
      done /\
  export_totals s
  = mk_totals (sum_sales InvoiceRow.sale_amount done) (sum_sales InvoiceRow.profit done)
      (sum_sales InvoiceRow.commission_amount done)
      (sum_sales InvoiceRow.shipping_fee done)
      (sum_sales InvoiceRow.processing_fee done)
      (sum_sales InvoiceRow.platform_dev_revenue done) /\
  NoDup (map fst (dkpc_summary s)) /\
  sum_entries e_count (dkpc_summary s) = sum_sales (fun _ => 1) done /\
  sum_entries e_sale (dkpc_summary s) = sum_sales InvoiceRow.sale_amount done /\
  sum_entries e_profit (dkpc_summary s) = sum_sales InvoiceRow.profit done.

(* ===================================================================== *)
(** * Upload of purchase prices ([invoice_prices], [views.py]) *)
(* ===================================================================== *)

Definition min_purchase_price : Z := 1000.

(** [parse_price_value(raw)]: [None] for [""] and [None], and when
    [normalize_number] raises. *)
Definition parse_price_value (raw : value) : option Z :=
  match raw with
  | VNone => None
  | VStr [] => None
  | _ =>
    match normalize_number raw with
    | Ok value => Some value
    | Raise _ => None
    end
  end.

(** The two messages of [upload_error], with the variant code. *)
Inductive upload_error : Type :=
| PriceNegative (dkpc : str)
| PriceTooSmall (dkpc : str).

(** The state of the upload: the remembered prices ([ProductPrice], by
    variant code) and the rows of the invoice. *)
Record price_db : Type := mk_price_db {
  product_prices : gmap str Z;
  invoice_rows : list InvoiceRow.t
}.

(** The loop [for _, row_df in df.iterrows()], with its [continue]s and
    its [break]s; [df] gives, line by line, the two cells that
    [row_df.get(dkpc_col, "")] and [row_df.get(price_col)] return. *)
Fixpoint upload_loop (float_str : spec_float -> str) (df : list (value * value))
    (db : price_db) : option upload_error * price_db :=
  match df with
  | [] => (None, db)
  | (dkpc_cell, raw_price) :: rest =>
    let dkpc_val := strip (py_str float_str dkpc_cell) in
    match dkpc_val with
    | [] => upload_loop float_str rest db
    | _ =>
      match parse_price_value raw_price with
      | None => upload_loop float_str rest db
      | Some price_val =>
        if price_val <? 0 then (Some (PriceNegative dkpc_val), db)
        else if price_val <? min_purchase_price then (Some (PriceTooSmall dkpc_val), db)
        else
          upload_loop float_str rest
            (mk_price_db (<[dkpc_val := price_val]> (product_prices db))
               (update_purchase_price dkpc_val price_val (invoice_rows db)))
      end
    end
  end.

(** The upload branch of [invoice_prices] after the two columns were
    found: the loop, then [recalc_profit] when there was no error. *)
Definition upload_prices (float_str : spec_float -> str) (df : list (value * value))
    (db : price_db) : option upload_error * price_db :=
  match upload_loop float_str df db with
  | (None, db') =>
    (None, mk_price_db (product_prices db') (recalc_profit (invoice_rows db')))
  | (Some err, db') => (Some err, db')
  end.


(** The loop [for item in summary] of the form branch of
    [invoice_prices], with its flag [has_error]. [summary] holds the
    ([dkpc], [title]) items of the query over the non-return rows of the
    invoice, as it was evaluated at the start of the request;
    [post dkpc] is [request.POST.get(f"price_{dkpc}", "")]. A price
    outside the [BigIntegerField] makes [update_or_create] raise: the
    view ends there, with what it has written. Of a [ProductPrice] the
    price alone is kept here, not the title stored with it. *)
Fixpoint form_loop (post : str -> str) (summary : list (str * str))
    (has_error : bool) (db : price_db) : result bool * price_db :=
  match summary with
  | [] => (Ok has_error, db)
  | (dkpc, title) :: rest =>
    match parse_price_value (VStr (post dkpc)) with
    | None => form_loop post rest true db
    | Some price_val =>
      if price_val <? 0 then form_loop post rest true db
      else if price_val <? min_purchase_price then form_loop post rest true db
      else if negb (in_bigint price_val) then (Raise out_of_range, db)
      else
        form_loop post rest has_error
          (mk_price_db (<[dkpc := price_val]> (product_prices db))
             (update_purchase_price dkpc price_val (invoice_rows db)))
    end
  end.

(** The form branch of [invoice_prices]: the loop, then [recalc_profit]
    when no price was rejected. The result is [has_error]. *)
Definition form_prices (post : str -> str) (summary : list (str * str))
    (db : price_db) : result bool * price_db :=
  match form_loop post summary false db with
  | (Ok false, db') =>
    (Ok false, mk_price_db (product_prices db') (recalc_profit (invoice_rows db')))
  | other => other
  end.






(** A price list with an empty price cell (NaN in the data frame) in its
    second line. *)
Definition example_price_sheet : list (value * value) :=
  [ (VInt 55, VInt 60000); (VInt 56, VFloat S754_nan); (VInt 57, VInt 2000) ].
(* ===================================================================== *)
(** * Properties of the numeric normalizer *)
(* ===================================================================== *)

Example normalize_persian_sep :
  _normalize_number (VStr (u "۱۲۳٬۴۵۶")) = Ok 123456.
Proof. vm_compute. reflexivity. Qed.

Example normalize_arabic : _normalize_number (VStr (u "١٢٣")) = Ok 123.
Proof. vm_compute. reflexivity. Qed.

Example normalize_negative : _normalize_number (VStr (u "-123")) = Ok (-123).
Proof. vm_compute. reflexivity. Qed.

Example normalize_commas : _normalize_number (VStr (u "1,234,567")) = Ok 1234567.
Proof. vm_compute. reflexivity. Qed.

Example normalize_empty : _normalize_number (VStr []) = Ok 0.
Proof. vm_compute. reflexivity. Qed.

Example normalize_letters : _normalize_number (VStr (u "abc")) = Ok 0.
Proof. vm_compute. reflexivity. Qed.

Example normalize_None : _normalize_number VNone = Ok 0.
Proof. reflexivity. Qed.

Example normalize_nan : _normalize_number (VFloat S754_nan) = Ok 0.
Proof. reflexivity. Qed.

(** 2.5 and -3.5 round to the even neighbour. *)
Example normalize_float_half_down :
  _normalize_number (VFloat (S754_finite false 5 (-1))) = Ok 2.
Proof. vm_compute. reflexivity. Qed.

Example normalize_float_half_up :
  _normalize_number (VFloat (S754_finite true 7 (-1))) = Ok (-4).
Proof. vm_compute. reflexivity. Qed.

(** [int()] fails with [ValueError] or gives an integer. *)
Lemma py_int_raises s e : py_int s = Raise e -> e = ValueError.
Proof.
  unfold py_int.
  destruct (match strip s with
            | 45%N :: r => (true, r)
            | 43%N :: r => (false, r)
            | _ => (false, strip s)
            end) as [neg body].
  destruct (int_digits body 0 0%nat false) as [[v n]|]; [|congruence].
  destruct (int_max_str_digits <? n)%nat; congruence.
Qed.

(** The last step of the text branch, on whatever is left of the text. *)
Lemma parse_or_zero_total (t : str) :
  exists n,
    match t with
    | [] | [45%N] | [43%N] => Ok 0
    | _ =>
      match py_int t with
      | Ok n => Ok n
      | Raise ValueError => Ok 0
      | Raise e => Raise e
      end
    end = Ok n.
Proof.
  assert (H : exists n, match py_int t with
                        | Ok n => Ok n
                        | Raise ValueError => Ok 0
                        | Raise e => Raise e
                        end = Ok n).
  { destruct (py_int t) as [n|e] eqn:E; [eauto|].
    apply py_int_raises in E. subst e. eauto. }
  destruct t as [|c t']; [eauto|].
  revert H. generalize (py_int (c :: t')). intros r H.
  destruct c as [|p]; [destruct t'; exact H|].
  repeat (destruct p as [p|p|]; try (destruct t'; solve [exact H | eauto])).
Qed.

(** The text branch never raises. *)
Lemma normalize_text_total s : exists n, normalize_text s = Ok n.
Proof. unfold normalize_text. cbv zeta. apply parse_or_zero_total. Qed.

(** The normalizer raises on the two infinite floats, and only there. *)
Lemma normalize_raises_iff val e :
  _normalize_number val = Raise e <->
  e = OverflowError /\ exists s, val = VFloat (S754_infinity s).
Proof.
  split.
  - destruct val as [ |b|n|f|s|s]; simpl; try congruence.
    + destruct f as [s|s| |s m x]; simpl; try congruence.
      intros [= <-]. eauto.
    + destruct (normalize_text_total s) as [n ->]. congruence.
    + destruct (normalize_text_total s) as [n ->]. congruence.
  - intros [-> [s ->]]. reflexivity.
Qed.

(** C8 (the failing input): [_normalize_number] is not total. On the
    float infinity, [int(round(val))] raises [OverflowError] and the
    function returns no integer, although its docstring promises 0 for
    an invalid value and the NaN float next to it is guarded. *)
Theorem normalize_number_raises_on_infinity :
  _normalize_number (VFloat (S754_infinity false)) = Raise OverflowError.
Proof. reflexivity. Qed.

(* ===================================================================== *)
(** * Properties of the profit recalculation *)
(* ===================================================================== *)

(** [recalc_row] reads only fields that it does not write. *)
Lemma recalc_row_idem row : recalc_row (recalc_row row) = recalc_row row.
Proof.
  unfold recalc_row.
  destruct (InvoiceRow.is_return row || (InvoiceRow.purchase_price row <=? 0)) eqn:E;
    simpl; rewrite E; reflexivity.
Qed.

(** C9: the profit recalculation is idempotent. Whatever purchase prices
    were written to the rows of an invoice, a second [recalc_profit]
    leaves every row, and so its [profit] and [tax_amount], as the first
    one left it. *)
Theorem recalc_profit_idempotent (rows : list InvoiceRow.t) (prices : list (str * Z)) :
  let priced :=
    fold_left (fun rs p => update_purchase_price (fst p) (snd p) rs) prices rows in
  recalc_profit (recalc_profit priced) = recalc_profit priced.
Proof.
  intros priced. unfold recalc_profit.
  rewrite map_map. apply map_ext. intros row. apply recalc_row_idem.
Qed.

(** What a recalculation keeps of a row, and the tax it sets. *)
Lemma recalc_row_tax row :
  InvoiceRow.is_return (recalc_row row) = InvoiceRow.is_return row /\
  InvoiceRow.purchase_price (recalc_row row) = InvoiceRow.purchase_price row /\
  InvoiceRow.commission_amount (recalc_row row) = InvoiceRow.commission_amount row /\
  InvoiceRow.processing_fee (recalc_row row) = InvoiceRow.processing_fee row /\
  (InvoiceRow.is_return row = false ->
   InvoiceRow.tax_amount (recalc_row row) =
   if InvoiceRow.purchase_price row <=? 0 then 0
   else (InvoiceRow.commission_amount row + InvoiceRow.processing_fee row) / 10).
Proof.
  unfold recalc_row.
  destruct (InvoiceRow.is_return row) eqn:R;
    destruct (InvoiceRow.purchase_price row <=? 0) eqn:P;
    simpl; rewrite ?R; repeat split; solve [reflexivity | discriminate].
Qed.

Lemma stored_row_clamped pr : clamped (stored_row pr).
Proof.
  unfold clamped, stored_row.
  destruct (ParsedRow.is_return pr || (ParsedRow.sale_amount pr <=? 0)); simpl;
    intros; lia.
Qed.

Lemma stored_row_tax pr :
  InvoiceRow.is_return (stored_row pr) = false ->
  InvoiceRow.tax_amount (stored_row pr) =
  (InvoiceRow.commission_amount (stored_row pr)
   + InvoiceRow.processing_fee (stored_row pr)) / 10.
Proof.
  unfold stored_row.
  destruct (ParsedRow.is_return pr || (ParsedRow.sale_amount pr <=? 0)); simpl;
    [discriminate | reflexivity].
Qed.

Lemma apply_write_map rows wr :
  apply_write rows wr = map (fun r => write_to_row r wr) rows.
Proof. destruct wr; reflexivity. Qed.

Lemma apply_writes_map history : forall rows,
  apply_writes history rows = map (fun r => fold_left write_to_row history r) rows.
Proof.
  unfold apply_writes.
  induction history as [|wr history IH]; intros rows; simpl.
  - symmetry. apply map_id.
  - rewrite IH, apply_write_map, map_map. reflexivity.
Qed.

(** A write keeps the flag, the variant code, the commission and the
    processing fee of a row. *)
Lemma write_to_row_keeps row wr :
  InvoiceRow.is_return (write_to_row row wr) = InvoiceRow.is_return row /\
  InvoiceRow.dkpc (write_to_row row wr) = InvoiceRow.dkpc row /\
  InvoiceRow.commission_amount (write_to_row row wr) = InvoiceRow.commission_amount row /\
  InvoiceRow.processing_fee (write_to_row row wr) = InvoiceRow.processing_fee row.
Proof.
  destruct wr as [dkpc price|]; simpl.
  - destruct (decide (InvoiceRow.dkpc row = dkpc)); repeat split.
  - unfold recalc_row.
    destruct (InvoiceRow.is_return row || (InvoiceRow.purchase_price row <=? 0));
      repeat split.
Qed.

Lemma writes_keep history : forall row,
  InvoiceRow.is_return (fold_left write_to_row history row) = InvoiceRow.is_return row /\
  InvoiceRow.dkpc (fold_left write_to_row history row) = InvoiceRow.dkpc row /\
  InvoiceRow.commission_amount (fold_left write_to_row history row)
  = InvoiceRow.commission_amount row /\
  InvoiceRow.processing_fee (fold_left write_to_row history row)
  = InvoiceRow.processing_fee row.
Proof.
  induction history as [|wr history IH]; intros row; simpl; [repeat split|].
  destruct (IH (write_to_row row wr)) as (-> & -> & -> & ->).
  apply write_to_row_keeps.
Qed.

(** The tax of a non-return row after a write: the one it had, or the
    one of a recalculation. *)
Lemma write_to_row_tax row wr :
  InvoiceRow.is_return row = false ->
  InvoiceRow.tax_amount (write_to_row row wr) = InvoiceRow.tax_amount row \/
  InvoiceRow.tax_amount (write_to_row row wr)
  = (InvoiceRow.commission_amount row + InvoiceRow.processing_fee row) / 10 \/
  InvoiceRow.tax_amount (write_to_row row wr) = 0.
Proof.
  intros Hret. destruct wr as [dkpc price|]; simpl.
  - left. destruct (decide (InvoiceRow.dkpc row = dkpc)); reflexivity.
  - right. destruct (recalc_row_tax row) as (_ & _ & _ & _ & Ht).
    rewrite (Ht Hret). destruct (InvoiceRow.purchase_price row <=? 0); tauto.
Qed.

Lemma writes_tax history : forall row,
  InvoiceRow.is_return row = false ->
  InvoiceRow.tax_amount row
  = (InvoiceRow.commission_amount row + InvoiceRow.processing_fee row) / 10 \/
  InvoiceRow.tax_amount row = 0 ->
  InvoiceRow.tax_amount (fold_left write_to_row history row)
  = (InvoiceRow.commission_amount row + InvoiceRow.processing_fee row) / 10 \/
  InvoiceRow.tax_amount (fold_left write_to_row history row) = 0.
Proof.
  induction history as [|wr history IH]; intros row Hret Ht; simpl; [exact Ht|].
  destruct (write_to_row_keeps row wr) as (Hr & _ & Hc & Hp).
  specialize (IH (write_to_row row wr)). rewrite Hr, Hc, Hp in IH.
  apply IH; [exact Hret|].
  destruct (write_to_row_tax row wr Hret) as [->|H]; tauto.
Qed.

(** Writes of prices alone leave the tax as it is. *)
Lemma price_writes_tax history : forall row,
  forallb is_price_write history = true ->
  InvoiceRow.tax_amount (fold_left write_to_row history row) = InvoiceRow.tax_amount row.
Proof.
  induction history as [|wr history IH]; intros row H; simpl; [reflexivity|].
  simpl in H. apply andb_prop in H as [Hw Hh].
  rewrite (IH _ Hh). destruct wr as [dkpc price|]; [|discriminate].
  simpl. destruct (decide (InvoiceRow.dkpc row = dkpc)); reflexivity.
Qed.

(** Writes of prices to other variant codes leave the row as it is. *)
Lemma other_writes_row history : forall row,
  Forall (writes_other_code (InvoiceRow.dkpc row)) history ->
  fold_left write_to_row history row = row.
Proof.
  induction history as [|wr history IH]; intros row H; simpl; [reflexivity|].
  inversion H as [|wr' h' Hw Hh]; subst.
  destruct wr as [dkpc price|]; [|destruct Hw]. simpl in *.
  destruct (decide (InvoiceRow.dkpc row = dkpc)) as [E|_]; [congruence|].
  apply IH. exact Hh.
Qed.

(** C3 (as amended): at every point after finalization, whatever prices
    were written and whenever the profits were recalculated, a stored
    non-return line has a non-negative stored commission and processing
    fee, and its stored [tax_amount] is (commission_amount +
    processing_fee) // 10 or 0. It is (commission_amount +
    processing_fee) // 10 as long as no recalculation has run. After a
    recalculation, and until a price is written to the variant code of
    the line, it is that value when the purchase price of the line is
    positive and 0 when the purchase price is 0 or less. Writes of
    prices never change it: a price written without a recalculation
    after it leaves the tax of the last recalculation. *)
Theorem stored_tax_after_recalculations
    (prs : list ParsedRow.t) (history : list row_write) (i : nat)
    (r : InvoiceRow.t) :
  apply_writes history (map stored_row prs) !! i = Some r ->
  InvoiceRow.is_return r = false ->
  let full := (InvoiceRow.commission_amount r + InvoiceRow.processing_fee r) / 10 in
  0 <= InvoiceRow.commission_amount r /\
  0 <= InvoiceRow.processing_fee r /\
  (InvoiceRow.tax_amount r = full \/ InvoiceRow.tax_amount r = 0) /\
  (forallb is_price_write history = true -> InvoiceRow.tax_amount r = full) /\
  (forall before after,
     history = before ++ Recalc :: after ->
     Forall (writes_other_code (InvoiceRow.dkpc r)) after ->
     InvoiceRow.tax_amount r
     = if InvoiceRow.purchase_price r <=? 0 then 0 else full) /\
  (forall before after r0,
     history = before ++ after ->
     forallb is_price_write after = true ->
     apply_writes before (map stored_row prs) !! i = Some r0 ->
     InvoiceRow.tax_amount r = InvoiceRow.tax_amount r0).
Proof.
  intros Hi Hret full. subst full.
  rewrite apply_writes_map, !list_lookup_fmap in Hi.
  destruct (prs !! i) as [pr|] eqn:Epr; [|discriminate].
  simpl in Hi. injection Hi as <-.
  destruct (writes_keep history (stored_row pr)) as (Hr & Hd & Hc & Hp).
  rewrite Hr in Hret. rewrite Hc, Hp.
  pose proof (stored_row_clamped pr Hret) as [H1 H2].
  pose proof (stored_row_tax pr Hret) as Ht.
  split; [exact H1|]. split; [exact H2|]. split; [|split; [|split]].
  - apply writes_tax; [exact Hret|]. left. exact Ht.
  - intros Hw. rewrite (price_writes_tax _ _ Hw). exact Ht.
  - intros before after -> Hafter.
    rewrite fold_left_app in *. simpl in *.
    set (r0 := fold_left write_to_row before (stored_row pr)) in *.
    destruct (writes_keep after (recalc_row r0)) as (_ & Hd' & _ & _).
    rewrite Hd' in Hafter. rewrite (other_writes_row _ _ Hafter).
    destruct (writes_keep before (stored_row pr)) as (Hr0 & _ & Hc0 & Hp0).
    fold r0 in Hr0, Hc0, Hp0.
    destruct (recalc_row_tax r0) as (_ & Hpp & _ & _ & Ht0).
    rewrite Hpp, Ht0, Hc0, Hp0 by congruence. reflexivity.
  - intros before after r0 -> Hw H0.
    rewrite apply_writes_map, !list_lookup_fmap, Epr in H0.
    simpl in H0. injection H0 as <-.
    rewrite fold_left_app. apply price_writes_tax. exact Hw.
Qed.

(** A line with commission 5000 and processing fee 250: the price 60000
    is written and the profits are recalculated, then a price is written
    to another variant code; the tax is 525. *)
Lemma stored_tax_after_recalculations_witness :
  let r := InvoiceRow.mk cash (u "1001") (u "55") [] 100000 60000 5000 0 250 0
             525 34225 false in
  let full := (InvoiceRow.commission_amount r + InvoiceRow.processing_fee r) / 10 in
  0 <= InvoiceRow.commission_amount r /\
  0 <= InvoiceRow.processing_fee r /\
  (InvoiceRow.tax_amount r = full \/ InvoiceRow.tax_amount r = 0) /\
  (forallb is_price_write
     [WritePrice (u "55") 60000; Recalc; WritePrice (u "56") 2000] = true ->
   InvoiceRow.tax_amount r = full) /\
  (forall before after,
     [WritePrice (u "55") 60000; Recalc; WritePrice (u "56") 2000]
     = before ++ Recalc :: after ->
     Forall (writes_other_code (InvoiceRow.dkpc r)) after ->
     InvoiceRow.tax_amount r
     = if InvoiceRow.purchase_price r <=? 0 then 0 else full) /\
  (forall before after r0,
     [WritePrice (u "55") 60000; Recalc; WritePrice (u "56") 2000]
     = before ++ after ->
     forallb is_price_write after = true ->
     apply_writes before
       (map stored_row
          [ParsedRow.mk cash (u "1001") (u "55") [] 100000 false 5000 0 250 0])
     !! 0%nat = Some r0 ->
     InvoiceRow.tax_amount r = InvoiceRow.tax_amount r0).
Proof.
  intros r.
  apply (stored_tax_after_recalculations
           [ParsedRow.mk cash (u "1001") (u "55") [] 100000 false 5000 0 250 0]
           [WritePrice (u "55") 60000; Recalc; WritePrice (u "56") 2000] 0%nat r).
  - vm_compute. reflexivity.
  - reflexivity.
Defined.

(* ===================================================================== *)
(** * Properties of the pricing tiers *)
(* ===================================================================== *)

Example price_scenario :
  calculate_price_for_row_count scenario_tiers 100 = 490000 /\
  calculate_price_for_row_count scenario_tiers 750 = 890000 /\
  calculate_price_for_row_count scenario_tiers 2000 = 1290000 /\
  calculate_price_for_row_count scenario_tiers 0 = 0.
Proof. repeat split; reflexivity. Qed.

Lemma insert_tier_In x l t : In t (insert_tier x l) <-> t = x \/ In t l.
Proof.
  induction l as [|y l IH]; simpl.
  - intuition congruence.
  - destruct (PricingTier.min_rows x <=? PricingTier.min_rows y); simpl.
    + intuition congruence.
    + rewrite IH. intuition congruence.
Qed.

Lemma order_by_min_rows_In table t : In t (order_by_min_rows table) <-> In t table.
Proof.
  induction table as [|x table IH]; simpl; [reflexivity|].
  rewrite insert_tier_In, IH. intuition congruence.
Qed.

Lemma insert_tier_sorted x l :
  StronglySorted by_min_rows l -> StronglySorted by_min_rows (insert_tier x l).
Proof.
  induction 1 as [|y l Hs IH Hy]; simpl.
  - repeat constructor.
  - destruct (PricingTier.min_rows x <=? PricingTier.min_rows y) eqn:E.
    + apply Z.leb_le in E. constructor; [constructor; assumption|].
      constructor; [exact E|].
      eapply Forall_impl; [exact Hy|]. unfold by_min_rows. intros; lia.
    + apply Z.leb_gt in E. constructor; [exact IH|].
      apply Forall_forall. intros t Ht. apply list_elem_of_In in Ht.
      apply insert_tier_In in Ht as [->|Ht].
      * unfold by_min_rows. lia.
      * rewrite Forall_forall in Hy. apply Hy, list_elem_of_In, Ht.
Qed.

Lemma order_by_min_rows_sorted table :
  StronglySorted by_min_rows (order_by_min_rows table).
Proof.
  induction table as [|x table IH]; simpl; [constructor|].
  apply insert_tier_sorted, IH.
Qed.

(** In a list sorted by [min_rows], the first tier that matches [n] has
    the least [min_rows] among those that match. *)
Lemma first_match_least l n t t' :
  StronglySorted by_min_rows l ->
  List.find (tier_matches n) l = Some t ->
  In t' l -> tier_matches n t' = true ->
  PricingTier.min_rows t <= PricingTier.min_rows t'.
Proof.
  induction 1 as [|y l Hs IH Hy]; simpl; [discriminate|].
  destruct (tier_matches n y) eqn:E.
  - intros [= <-] [<-|Hin] _; [lia|].
    rewrite Forall_forall in Hy. apply Hy, list_elem_of_In, Hin.
  - intros Hf [<-|Hin] Hm; [congruence|]. apply IH; assumption.
Qed.

Lemma tier_matches_spec n t :
  tier_matches n t = true <->
  PricingTier.min_rows t <= n /\
  match PricingTier.max_rows t with Some mx => n <= mx | None => True end.
Proof.
  unfold tier_matches. destruct (PricingTier.max_rows t).
  - rewrite andb_true_iff, !Z.leb_le. reflexivity.
  - rewrite Z.leb_le. tauto.
Qed.

Lemma price_nonpositive table n : n <= 0 -> calculate_price_for_row_count table n = 0.
Proof.
  intros H. unfold calculate_price_for_row_count.
  apply Z.leb_le in H. rewrite H. reflexivity.
Qed.

Lemma price_above_all_tiers table n :
  (forall t, In t table -> exists mx, PricingTier.max_rows t = Some mx /\ mx < n) ->
  calculate_price_for_row_count table n = 0.
Proof.
  intros H. unfold calculate_price_for_row_count.
  destruct (n <=? 0); [reflexivity|].
  destruct (List.find (tier_matches n) (order_by_min_rows table)) as [t|] eqn:E;
    [|reflexivity].
  apply find_some in E as [Hin Hm].
  apply order_by_min_rows_In, H in Hin as (mx & Hmx & Hlt).
  apply tier_matches_spec in Hm. rewrite Hmx in Hm. lia.
Qed.

Lemma price_monotone_covered table n m :
  (forall t, In t table -> 0 <= PricingTier.price_per_invoice t) ->
  (forall t1 t2, In t1 table -> In t2 table ->
     PricingTier.min_rows t1 <= PricingTier.min_rows t2 ->
     PricingTier.price_per_invoice t1 <= PricingTier.price_per_invoice t2) ->
  n <= m ->
  (exists t, In t table /\ tier_matches m t = true) ->
  calculate_price_for_row_count table n <= calculate_price_for_row_count table m.
Proof.
  intros Hpos Hmono Hnm (t0 & Hin0 & Hm0).
  unfold calculate_price_for_row_count.
  destruct (n <=? 0) eqn:En.
  - destruct (m <=? 0); [lia|].
    destruct (List.find _ _) as [t|] eqn:E; [|lia].
    apply find_some in E as [Hin _]. apply Hpos, order_by_min_rows_In, Hin.
  - apply Z.leb_gt in En.
    assert (Em : (m <=? 0) = false) by (apply Z.leb_gt; lia). rewrite Em.
    destruct (List.find (tier_matches m) (order_by_min_rows table)) as [tm|] eqn:Fm.
    2:{ apply order_by_min_rows_In in Hin0.
        rewrite (find_none _ _ Fm _ Hin0) in Hm0. discriminate. }
    destruct (List.find (tier_matches n) (order_by_min_rows table)) as [tn|] eqn:Fn.
    2:{ apply find_some in Fm as [Hin _]. apply Hpos, order_by_min_rows_In, Hin. }
    pose proof (find_some _ _ Fm) as [Hinm Hmm].
    pose proof (find_some _ _ Fn) as [Hinn Hmn].
    apply Hmono; try (apply order_by_min_rows_In; assumption).
    destruct (Z.le_gt_cases (PricingTier.min_rows tn) (PricingTier.min_rows tm))
      as [Hle|Hgt]; [exact Hle|].
    apply (first_match_least _ n tn tm (order_by_min_rows_sorted table) Fn Hinm).
    apply tier_matches_spec. apply tier_matches_spec in Hmm, Hmn.
    destruct (PricingTier.max_rows tm); lia.
Qed.

(** C6 (as amended): for every tier table, with overlapping ranges or
    not, [calculate_price_for_row_count] is 0 for every [n <= 0] and for
    every [n] above the [max_rows] of all tiers when no tier is
    unbounded; and it is monotonic, [price n <= price m] for [n <= m],
    when the fees are non-negative, do not decrease with [min_rows], and
    the larger count [m] is matched by some tier. *)
Theorem price_for_row_count_zero_and_monotone (table : list PricingTier.t) :
  (forall n, n <= 0 -> calculate_price_for_row_count table n = 0) /\
  (forall n,
     (forall t, In t table -> exists mx, PricingTier.max_rows t = Some mx /\ mx < n) ->
     calculate_price_for_row_count table n = 0) /\
  ((forall t, In t table -> 0 <= PricingTier.price_per_invoice t) ->
   (forall t1 t2, In t1 table -> In t2 table ->
      PricingTier.min_rows t1 <= PricingTier.min_rows t2 ->
      PricingTier.price_per_invoice t1 <= PricingTier.price_per_invoice t2) ->
   forall n m, n <= m ->
     (exists t, In t table /\ tier_matches m t = true) ->
     calculate_price_for_row_count table n <= calculate_price_for_row_count table m).
Proof.
  split; [apply price_nonpositive|].
  split; [apply price_above_all_tiers|].
  intros Hpos Hmono n m Hnm Hcov. apply price_monotone_covered; assumption.
Qed.

(** The three parts on the tiers of the scenario. *)
Lemma price_for_row_count_witness :
  calculate_price_for_row_count scenario_tiers 0 = 0 /\
  calculate_price_for_row_count (take 2 scenario_tiers) 1001 = 0 /\
  calculate_price_for_row_count scenario_tiers 500
  <= calculate_price_for_row_count scenario_tiers 501.
Proof.
  split; [|split].
  - apply (proj1 (price_for_row_count_zero_and_monotone scenario_tiers)). lia.
  - apply (proj1 (proj2 (price_for_row_count_zero_and_monotone (take 2 scenario_tiers)))).
    simpl. intros t [<-|[<-|[]]]; simpl; eexists; (split; [reflexivity|lia]).
  - apply (proj2 (proj2 (price_for_row_count_zero_and_monotone scenario_tiers))).
    + simpl. intros t [<-|[<-|[<-|[]]]]; simpl; lia.
    + simpl. intros t1 t2 [<-|[<-|[<-|[]]]] [<-|[<-|[<-|[]]]]; simpl; lia.
    + lia.
    + exists (PricingTier.mk 501 (Some 1000) 890000). simpl. split; [tauto|reflexivity].
Defined.

(** C6 (the claim as stated fails): two tables with non-overlapping
    ranges on which the price decreases. In the first no tier is
    unbounded and the price falls to 0 above the last tier; in the second
    the ranges cover every positive count and the higher tier has the
    lower fee. *)
Lemma price_not_monotone_counterexample :
  let bounded := [ PricingTier.mk 1 (Some 500) 490000;
                   PricingTier.mk 501 (Some 1000) 890000 ] in
  let cheaper := [ PricingTier.mk 1 (Some 500) 490000;
                   PricingTier.mk 501 None 100000 ] in
  (non_overlapping bounded /\ 1000 <= 1001 /\
   ~ calculate_price_for_row_count bounded 1000
     <= calculate_price_for_row_count bounded 1001) /\
  (non_overlapping cheaper /\ 500 <= 501 /\
   ~ calculate_price_for_row_count cheaper 500
     <= calculate_price_for_row_count cheaper 501).
Proof.
  assert (Hno : forall a b c d p q,
             c < b -> a <= c ->
             non_overlapping [ PricingTier.mk a (Some c) p; PricingTier.mk b d q ]).
  { intros a b c d p q Hcb Hac i j t1 t2 n Hi Hj Hij H1 H2.
    apply tier_matches_spec in H1, H2.
    destruct i as [|[|i]], j as [|[|j]]; simpl in Hi, Hj; try discriminate;
      try congruence; injection Hi as <-; injection Hj as <-; simpl in *; lia. }
  split; (split; [apply Hno; lia|]); (split; [lia|]); vm_compute; congruence.
Qed.

(* ===================================================================== *)
(** * The merger as a fold over contributions *)
(* ===================================================================== *)

Section MergerTheory.

Variable str_lower : str -> str.
Variable float_str : spec_float -> str.

Lemma bind_Ok {A B : Type} (a : A) (k : A -> result B) : bind (Ok a) k = k a.
Proof. reflexivity. Qed.

Lemma bind_Raise {A B : Type} (e : exn) (k : A -> result B) :
  bind (Raise e) k = Raise e.
Proof. reflexivity. Qed.

(** The loop body of [_read_sales_sheet] applies the contribution of
    the row. *)
Lemma sales_row_spec t ret io id it ia st n row :
  sales_row float_str t ret io id it ia (st, n) row =
  match sales_contribution float_str t ret io id it ia row with
  | Raise e => Raise e
  | Ok None => Ok (st, n)
  | Ok (Some c) => Ok (apply_contribution c st, S n)
  end.
Proof.
  unfold sales_row, sales_contribution.
  destruct (py_index row io) as [order_id|e]; [|reflexivity].
  destruct (py_index row id) as [dkpc|e]; [|reflexivity].
  rewrite !bind_Ok.
  destruct (match it with Some i => py_index row i | None => Ok (VStr []) end)
    as [title|e]; [|reflexivity].
  rewrite !bind_Ok.
  destruct (py_index row ia) as [amount_raw|e]; [|reflexivity].
  rewrite !bind_Ok.
  destruct (is_None order_id || is_None dkpc); [reflexivity|].
  destruct (_normalize_number amount_raw) as [amount|e]; [|reflexivity].
  rewrite !bind_Ok.
  unfold get_or_create, apply_contribution. simpl. unfold key in *.
  repeat match goal with
         | |- context [match ?x with Some _ => _ | None => _ end] => destruct x eqn:?
         end;
    simpl; destruct ret; reflexivity.
Qed.

(** The loop body of [_apply_cost_sheet] applies the contribution of
    the row. *)
Lemma cost_row_spec t kind sign io id ia st n row :
  cost_row float_str t kind sign io id ia (st, n) row =
  match cost_contribution float_str t kind sign io id ia row with
  | Raise e => Raise e
  | Ok None => Ok (st, n)
  | Ok (Some c) => Ok (apply_contribution c st, S n)
  end.
Proof.
  unfold cost_row, cost_contribution.
  destruct (py_index row io) as [order_id|e]; [|reflexivity].
  destruct (py_index row id) as [dkpc|e]; [|reflexivity].
  rewrite !bind_Ok.
  destruct (py_index row ia) as [amount_raw|e]; [|reflexivity].
  rewrite !bind_Ok.
  destruct (is_None order_id || is_None dkpc); [reflexivity|].
  destruct (_normalize_number amount_raw) as [amount|e]; [|reflexivity].
  rewrite !bind_Ok.
  unfold apply_contribution. simpl. unfold key in *.
  repeat match goal with
         | |- context [match ?x with Some _ => _ | None => _ end] => destruct x eqn:?
         end;
    reflexivity.
Qed.

(** A loop whose body applies the contribution of each row applies the
    contributions collected from the rows. *)
Lemma for_each_rows_spec
    (step : merge_state * nat -> list value -> result (merge_state * nat))
    (read : list value -> result (option contribution)) :
  (forall st n row,
      step (st, n) row =
      match read row with
      | Raise e => Raise e
      | Ok None => Ok (st, n)
      | Ok (Some c) => Ok (apply_contribution c st, S n)
      end) ->
  forall rows st n,
    for_each step rows (st, n) =
    match collect read rows with
    | Raise e => Raise e
    | Ok cs => Ok (apply_all cs st, (n + length cs)%nat)
    end.
Proof.
  intros Hstep rows. induction rows as [|row rows IH]; intros st n; simpl.
  - rewrite Nat.add_0_r. reflexivity.
  - rewrite Hstep. destruct (read row) as [[c|]|e]; simpl.
    + rewrite IH. destruct (collect read rows) as [cs|e]; simpl; [|reflexivity].
      rewrite Nat.add_succ_r. reflexivity.
    + rewrite IH. destruct (collect read rows) as [cs|e]; reflexivity.
    + reflexivity.
Qed.

Lemma apply_contribution_log l c st :
  apply_contribution c (log_append l st) = log_append l (apply_contribution c st).
Proof.
  unfold apply_contribution, log_append, update_row. simpl.
  destruct (rows_map st !! c_key c); reflexivity.
Qed.

Lemma apply_all_log l cs st :
  apply_all cs (log_append l st) = log_append l (apply_all cs st).
Proof.
  revert st. induction cs as [|c cs IH]; intros st; simpl; [reflexivity|].
  rewrite apply_contribution_log. apply IH.
Qed.

Lemma apply_all_app cs1 cs2 st :
  apply_all (cs1 ++ cs2) st = apply_all cs2 (apply_all cs1 st).
Proof. unfold apply_all. apply fold_left_app. Qed.

(** One sheet call applies the contributions of its sheet and appends
    one line to the log. *)
Lemma run_call_spec wb st c :
  match call_contributions str_lower float_str wb c with
  | Raise e => run_call str_lower float_str wb st c = Raise e
  | Ok cs =>
    exists l, run_call str_lower float_str wb st c = Ok (log_append l (apply_all cs st))
  end.
Proof.
  destruct c as [n t r|n t k r]; simpl;
    unfold _read_sales_sheet, _apply_cost_sheet;
    (destruct (wb_get wb n) as [ws|]; [|simpl; eauto]);
    (destruct (_get_header_row float_str ws) as [|h hs] eqn:Eh; [simpl; eauto|]);
    (destruct (_find_col str_lower (h :: hs) KW_ORDER) as [io|]; [|simpl; eauto]);
    (destruct (_find_col str_lower (h :: hs) KW_DKPC) as [id|]; [|simpl; eauto]);
    (destruct (_find_col str_lower (h :: hs) KW_AMOUNT) as [ia|]; [|simpl; eauto]).
  - rewrite (for_each_rows_spec _ _
               (fun st n row => sales_row_spec t r io id _ ia st n row)).
    destruct (collect _ _) as [cs|e]; simpl; eauto.
  - rewrite (for_each_rows_spec _ _
               (fun st n row => cost_row_spec t k _ io id ia st n row)).
    destruct (collect _ _) as [cs|e]; simpl; eauto.
Qed.

Lemma same_ledger_log l st : same_ledger (log_append l st) st.
Proof. split; reflexivity. Qed.

Lemma apply_contribution_same c st st' :
  same_ledger st st' -> same_ledger (apply_contribution c st) (apply_contribution c st').
Proof.
  intros [Hm Hp]. unfold apply_contribution, same_ledger, update_row.
  rewrite Hm. destruct (rows_map st' !! c_key c); simpl; rewrite ?Hm, ?Hp; auto.
Qed.

Lemma apply_all_same cs st st' :
  same_ledger st st' -> same_ledger (apply_all cs st) (apply_all cs st').
Proof.
  revert st st'. induction cs as [|c cs IH]; intros st st' H; simpl; [exact H|].
  apply IH, apply_contribution_same, H.
Qed.

(** The sheet calls [calls], run from [st], apply the contributions of
    their sheets in order. *)
Lemma for_each_calls_spec wb calls st :
  match contributions str_lower float_str calls wb with
  | Raise e => for_each (run_call str_lower float_str wb) calls st = Raise e
  | Ok cs =>
    exists st',
      for_each (run_call str_lower float_str wb) calls st = Ok st' /\
      same_ledger st' (apply_all cs st)
  end.
Proof.
  revert st. induction calls as [|c calls IH]; intros st; simpl.
  - exists st. split; [reflexivity|split; reflexivity].
  - pose proof (run_call_spec wb st c) as Hc.
    destruct (call_contributions str_lower float_str wb c) as [cs|e]; simpl.
    + destruct Hc as [l ->]. simpl.
      specialize (IH (log_append l (apply_all cs st))).
      destruct (contributions str_lower float_str calls wb) as [more|e]; simpl.
      * destruct IH as (st' & -> & Hs). exists st'. split; [reflexivity|].
        rewrite apply_all_app.
        destruct Hs as [H1 H2].
        destruct (apply_all_same more _ _ (same_ledger_log l (apply_all cs st)))
          as [H3 H4].
        split; congruence.
      * exact IH.
    + rewrite Hc. reflexivity.
Qed.

(** [parse_with] in terms of contributions. *)
Lemma parse_with_spec calls wb st :
  parse_with str_lower float_str calls wb = Ok st ->
  exists cs,
    contributions str_lower float_str calls wb = Ok cs /\
    same_ledger st (apply_all cs initial_state).
Proof.
  unfold parse_with. intros H.
  pose proof (for_each_calls_spec wb calls initial_state) as Hs.
  destruct (contributions str_lower float_str calls wb) as [cs|e].
  - destruct Hs as (st' & Hst' & Hl). exists cs. split; [reflexivity|]. congruence.
  - congruence.
Qed.

Lemma parse_with_ok calls wb cs :
  contributions str_lower float_str calls wb = Ok cs ->
  exists st,
    parse_with str_lower float_str calls wb = Ok st /\
    same_ledger st (apply_all cs initial_state).
Proof.
  unfold parse_with. intros H.
  pose proof (for_each_calls_spec wb calls initial_state) as Hs.
  rewrite H in Hs. exact Hs.
Qed.

End MergerTheory.

(* ===================================================================== *)
(** * What the contributions make of a ledger line *)
(* ===================================================================== *)

Lemma lookup_apply_contribution c st k :
  rows_map (apply_contribution c st) !! k =
  if decide (c_key c = k)
  then Some (add_field (c_field c) (c_delta c)
               (default (created_row c) (rows_map st !! k)))
  else rows_map st !! k.
Proof.
  unfold apply_contribution, update_row, created_row. simpl.
  destruct (decide (c_key c = k)) as [<-|Hne].
  - destruct (rows_map st !! c_key c) as [r|] eqn:E; simpl.
    + rewrite lookup_alter_eq, E. reflexivity.
    + rewrite lookup_alter_eq, lookup_insert_eq. reflexivity.
  - destruct (rows_map st !! c_key c) as [r|] eqn:E; simpl.
    + rewrite lookup_alter_ne by exact Hne. reflexivity.
    + rewrite lookup_alter_ne, lookup_insert_ne by exact Hne. reflexivity.
Qed.

Lemma field_eqb_refl f : field_eqb f f = true.
Proof. destruct f as [|[]]; reflexivity. Qed.

Lemma get_field_add_field f g a r :
  get_field f (add_field g a r) = get_field f r + (if field_eqb g f then a else 0).
Proof. destruct f as [|[]], g as [|[]]; simpl; lia. Qed.

Lemma title_add_field g a r :
  ParsedRow.title (add_field g a r) = ParsedRow.title r /\
  ParsedRow.is_return (add_field g a r) = ParsedRow.is_return r.
Proof. destruct g as [|[]]; split; reflexivity. Qed.

Lemma first_contribution_cons k c cs :
  first_contribution k (c :: cs) =
  if decide (c_key c = k) then Some c else first_contribution k cs.
Proof.
  unfold first_contribution. simpl.
  destruct (decide (c_key c = k)) as [H|H].
  - rewrite bool_decide_eq_true_2 by exact H. reflexivity.
  - rewrite bool_decide_eq_false_2 by exact H. reflexivity.
Qed.

Lemma field_sum_cons f k c cs :
  field_sum f k (c :: cs) =
  (if decide (c_key c = k) then if field_eqb (c_field c) f then c_delta c else 0 else 0)
  + field_sum f k cs.
Proof.
  unfold field_sum. simpl. fold (field_sum f k cs).
  destruct (decide (c_key c = k)) as [H|H].
  - rewrite bool_decide_eq_true_2 by exact H. simpl.
    destruct (field_eqb (c_field c) f); lia.
  - rewrite bool_decide_eq_false_2 by exact H. simpl. lia.
Qed.

(** Every field of a line is what it was plus what the contributions
    add; a line exists afterwards if it existed or some contribution
    names it. *)
Lemma field_after_apply_all f k cs st :
  get_field f <$> (rows_map (apply_all cs st) !! k) =
  match rows_map st !! k with
  | Some r => Some (get_field f r + field_sum f k cs)
  | None =>
    match first_contribution k cs with
    | Some _ => Some (field_sum f k cs)
    | None => None
    end
  end.
Proof.
  revert st. induction cs as [|c cs IH]; intros st.
  - simpl. destruct (rows_map st !! k) as [r|]; simpl; [|reflexivity].
    f_equal. unfold field_sum. simpl. lia.
  - change (apply_all (c :: cs) st) with (apply_all cs (apply_contribution c st)).
    rewrite IH, lookup_apply_contribution, first_contribution_cons, field_sum_cons.
    destruct (decide (c_key c = k)) as [Hk|Hk].
    + rewrite get_field_add_field.
      destruct (rows_map st !! k) as [r|]; simpl; f_equal.
      * lia.
      * unfold created_row; destruct f as [|[]]; simpl; lia.
    + destruct (rows_map st !! k) as [r|]; simpl; [f_equal; lia|].
      destruct (first_contribution k cs); reflexivity.
Qed.

(** The title and the flag of a line are those it had, or those of the
    first contribution that names it: no later contribution changes
    them. *)
Lemma identity_after_apply_all k cs st :
  (fun r => (ParsedRow.title r, ParsedRow.is_return r))
    <$> (rows_map (apply_all cs st) !! k) =
  match rows_map st !! k with
  | Some r => Some (ParsedRow.title r, ParsedRow.is_return r)
  | None => (fun c => (c_title c, c_return c)) <$> first_contribution k cs
  end.
Proof.
  revert st. induction cs as [|c cs IH]; intros st.
  - simpl. destruct (rows_map st !! k); reflexivity.
  - change (apply_all (c :: cs) st) with (apply_all cs (apply_contribution c st)).
    rewrite IH, lookup_apply_contribution, first_contribution_cons.
    destruct (decide (c_key c = k)) as [Hk|Hk]; [|reflexivity].
    destruct (title_add_field (c_field c) (c_delta c)
                (default (created_row c) (rows_map st !! k))) as [-> ->].
    destruct (rows_map st !! k); reflexivity.
Qed.

Lemma field_sum_perm f k cs cs' :
  Permutation cs cs' -> field_sum f k cs = field_sum f k cs'.
Proof.
  induction 1 as [|c cs cs' _ IH|c1 c2 cs|cs1 cs2 cs3 _ IH1 _ IH2].
  - reflexivity.
  - rewrite !field_sum_cons, IH. reflexivity.
  - rewrite !field_sum_cons. lia.
  - congruence.
Qed.

Lemma first_contribution_None k cs :
  first_contribution k cs = None <-> forall c, In c cs -> c_key c <> k.
Proof.
  induction cs as [|c cs IH].
  - simpl. split; [intros _ c []|reflexivity].
  - rewrite first_contribution_cons. destruct (decide (c_key c = k)) as [H|H].
    + split; [discriminate|]. intros Hall. exfalso. apply (Hall c); [left; reflexivity|exact H].
    + rewrite IH. simpl. split.
      * intros Hall c' [<-|Hin]; auto.
      * intros Hall c' Hin. apply Hall. right. exact Hin.
Qed.

Lemma first_contribution_perm k cs cs' :
  Permutation cs cs' ->
  (first_contribution k cs = None <-> first_contribution k cs' = None).
Proof.
  intros HP. rewrite !first_contribution_None. split; intros H c Hin; apply H.
  - eapply Permutation_in; [symmetry; exact HP|exact Hin].
  - eapply Permutation_in; [exact HP|exact Hin].
Qed.

Lemma no_sale_contribution_sum k cs :
  (forall c, In c cs -> c_key c = k -> c_field c <> FSale) ->
  field_sum FSale k cs = 0.
Proof.
  induction cs as [|c cs IH]; intros H; [reflexivity|].
  rewrite field_sum_cons, IH by (intros c' Hin; apply H; right; exact Hin).
  destruct (decide (c_key c = k)) as [Hk|Hk]; [|reflexivity].
  specialize (H c (or_introl eq_refl) Hk).
  destruct (c_field c) as [|[]]; [congruence|reflexivity..].
Qed.

(** The amounts of two lines agree when all their fields do. *)
Lemma amounts_of_fields (o o' : option ParsedRow.t) :
  (forall f, get_field f <$> o = get_field f <$> o') -> amounts <$> o = amounts <$> o'.
Proof.
  intros H.
  pose proof (H FSale) as H0. pose proof (H (FCost commission)) as H1.
  pose proof (H (FCost shipping)) as H2. pose proof (H (FCost processing)) as H3.
  pose proof (H (FCost platform_dev)) as H4.
  destruct o as [r|], o' as [r'|]; simpl in *; try congruence.
  unfold amounts. congruence.
Qed.

Section MergerProperties.

Variable str_lower : str -> str.
Variable float_str : spec_float -> str.

(** The rows of a sales or return sheet contribute to [sale_amount],
    those of a cost sheet to a cost field. *)
Lemma collect_Forall (P : contribution -> Prop) read rows cs :
  (forall row c, read row = Ok (Some c) -> P c) ->
  collect read rows = Ok cs -> Forall P cs.
Proof.
  intros Hread. revert cs. induction rows as [|row rows IH]; intros cs; simpl.
  - intros [= <-]. constructor.
  - destruct (read row) as [oc|e] eqn:E; simpl; [|discriminate].
    destruct (collect read rows) as [more|e]; simpl; [|discriminate].
    intros [= <-]. destruct oc as [c|]; [|apply IH; reflexivity].
    constructor; [eapply Hread; exact E|apply IH; reflexivity].
Qed.

Lemma sales_contribution_field t ret io id it ia row c :
  sales_contribution float_str t ret io id it ia row = Ok (Some c) ->
  c_field c = FSale /\ c_return c = ret.
Proof.
  unfold sales_contribution.
  destruct (py_index row io) as [order_id|e]; [|discriminate].
  destruct (py_index row id) as [dkpc|e]; [|discriminate].
  rewrite !bind_Ok.
  destruct (match it with Some i => py_index row i | None => Ok (VStr []) end)
    as [title|e]; [|discriminate].
  rewrite !bind_Ok.
  destruct (py_index row ia) as [amount_raw|e]; [|discriminate].
  rewrite !bind_Ok.
  destruct (is_None order_id || is_None dkpc); [discriminate|].
  destruct (_normalize_number amount_raw) as [amount|e]; [|discriminate].
  rewrite !bind_Ok. intros [= <-]. split; reflexivity.
Qed.

Lemma cost_contribution_field t kind sign io id ia row c :
  cost_contribution float_str t kind sign io id ia row = Ok (Some c) ->
  c_field c = FCost kind /\ c_title c = [] /\ c_return c = false.
Proof.
  unfold cost_contribution.
  destruct (py_index row io) as [order_id|e]; [|discriminate].
  destruct (py_index row id) as [dkpc|e]; [|discriminate].
  rewrite !bind_Ok.
  destruct (py_index row ia) as [amount_raw|e]; [|discriminate].
  rewrite !bind_Ok.
  destruct (is_None order_id || is_None dkpc); [discriminate|].
  destruct (_normalize_number amount_raw) as [amount|e]; [|discriminate].
  rewrite !bind_Ok. intros [= <-]. repeat split; reflexivity.
Qed.

Lemma call_contributions_field wb call cs :
  call_contributions str_lower float_str wb call = Ok cs ->
  Forall (fun c =>
            match call with
            | ReadSales _ _ ret => c_field c = FSale /\ c_return c = ret
            | ApplyCost _ _ kind _ =>
              c_field c = FCost kind /\ c_title c = [] /\ c_return c = false
            end) cs.
Proof.
  destruct call as [n t r|n t k r]; simpl;
    (destruct (wb_get wb n) as [ws|]; [|intros [= <-]; constructor]);
    (destruct (_get_header_row float_str ws) as [|h hs]; [intros [= <-]; constructor|]);
    (destruct (_find_col str_lower (h :: hs) KW_ORDER) as [io|];
     [|intros [= <-]; constructor]);
    (destruct (_find_col str_lower (h :: hs) KW_DKPC) as [id|];
     [|intros [= <-]; constructor]);
    (destruct (_find_col str_lower (h :: hs) KW_AMOUNT) as [ia|];
     [|intros [= <-]; constructor]).
  - apply collect_Forall. intros row c. apply sales_contribution_field.
  - apply collect_Forall. intros row c. apply cost_contribution_field.
Qed.

(** Permuting the calls permutes the contributions. *)
Lemma contributions_perm wb calls calls' :
  Permutation calls calls' ->
  forall cs,
    contributions str_lower float_str calls wb = Ok cs ->
    exists cs',
      contributions str_lower float_str calls' wb = Ok cs' /\ Permutation cs cs'.
Proof.
  induction 1 as [|c l l' _ IH|c1 c2 l|l1 l2 l3 _ IH1 _ IH2]; intros cs; simpl.
  - intros [= <-]. exists []. split; [reflexivity|constructor].
  - destruct (call_contributions str_lower float_str wb c) as [a|e]; simpl;
      [|discriminate].
    destruct (contributions str_lower float_str l wb) as [more|e]; simpl;
      [|discriminate].
    intros [= <-]. destruct (IH more eq_refl) as (more' & -> & HP). simpl.
    exists (a ++ more'). split; [reflexivity|]. apply Permutation_app_head, HP.
  - destruct (call_contributions str_lower float_str wb c1) as [a1|e]; simpl.
    2:{ destruct (call_contributions str_lower float_str wb c2) as [a2|e2]; simpl;
          [|discriminate].
        destruct (contributions str_lower float_str l wb); simpl; discriminate. }
    destruct (call_contributions str_lower float_str wb c2) as [a2|e]; simpl;
      [|discriminate].
    destruct (contributions str_lower float_str l wb) as [more|e]; simpl;
      [|discriminate].
    intros [= <-]. exists (a1 ++ a2 ++ more). split; [reflexivity|].
    rewrite !app_assoc. apply Permutation_app_tail, Permutation_app_comm.
  - intros H1. destruct (IH1 cs H1) as (cs2 & H2 & HP2).
    destruct (IH2 cs2 H2) as (cs3 & H3 & HP3).
    exists cs3. split; [exact H3|]. etransitivity; eassumption.
Qed.

End MergerProperties.

(* ===================================================================== *)
(** * Properties of the ledger merger *)
(* ===================================================================== *)

Section MergerClaims.

Variable str_lower : str -> str.
Variable float_str : spec_float -> str.

Lemma stored_row_title r : InvoiceRow.title (stored_row r) = ParsedRow.title r.
Proof.
  unfold stored_row.
  destruct (ParsedRow.is_return r || (ParsedRow.sale_amount r <=? 0)); reflexivity.
Qed.

(** C4 (as amended): the stored title of a ledger line is the title of
    the first sheet contribution, in processing order, that carries the
    identity of the line (the empty string when that contribution comes
    from a cost sheet or from a row without a title); no later
    contribution changes it. *)
Theorem stored_title_is_first_contribution
    (wb : workbook) (st : merge_state) (k : key) (r : ParsedRow.t) :
  parse_invoice_excel str_lower float_str wb = Ok st ->
  rows_map st !! k = Some r ->
  exists cs c,
    contributions str_lower float_str fixed_sequence wb = Ok cs /\
    first_contribution k cs = Some c /\
    InvoiceRow.title (stored_row r) = c_title c.
Proof.
  intros Hp Hk.
  destruct (parse_with_spec _ _ _ _ _ Hp) as (cs & Hcs & Hm & _).
  pose proof (identity_after_apply_all k cs initial_state) as Hid.
  rewrite <- Hm, Hk in Hid. simpl in Hid. rewrite lookup_empty in Hid.
  destruct (first_contribution k cs) as [c|] eqn:Hc; [|discriminate].
  exists cs, c. split; [exact Hcs|]. split; [exact Hc|].
  rewrite stored_row_title. simpl in Hid. congruence.
Qed.

(** C5 (as amended): when the merge succeeds on a workbook, it succeeds
    for every permutation of the fixed sequence of sheets, the same
    identities get a ledger line, and every line has the same accumulated
    [sale_amount], [commission_amount], [shipping_fee], [processing_fee]
    and [platform_dev_revenue] as in the fixed order. *)
Theorem accumulated_amounts_order_independent
    (wb : workbook) (calls : list sheet_call) (st : merge_state) :
  Permutation fixed_sequence calls ->
  parse_invoice_excel str_lower float_str wb = Ok st ->
  exists st',
    parse_with str_lower float_str calls wb = Ok st' /\
    forall k, amounts <$> (rows_map st !! k) = amounts <$> (rows_map st' !! k).
Proof.
  intros HP Hp.
  destruct (parse_with_spec _ _ _ _ _ Hp) as (cs & Hcs & Hm & _).
  destruct (contributions_perm _ _ wb _ _ HP cs Hcs) as (cs' & Hcs' & HPc).
  destruct (parse_with_ok _ _ _ _ _ Hcs') as (st' & Hp' & Hm' & _).
  exists st'. split; [exact Hp'|].
  intros k. apply amounts_of_fields. intros f.
  rewrite Hm, Hm', !field_after_apply_all. simpl. rewrite lookup_empty.
  rewrite (field_sum_perm f k cs cs' HPc).
  pose proof (first_contribution_perm k cs cs' HPc) as Hn.
  destruct (first_contribution k cs), (first_contribution k cs'); try reflexivity.
  - destruct Hn as [_ Hn]. discriminate Hn. reflexivity.
  - destruct Hn as [Hn _]. discriminate Hn. reflexivity.
Qed.

(** A ledger line whose identity no row of a sales or return sheet
    names, so that all its contributions come from cost sheets, has
    [sale_amount] 0 after the merge. *)
Lemma cost_only_line_sale_amount
    (wb : workbook) (st : merge_state) (cs : list contribution) (k : key)
    (r : ParsedRow.t) :
  parse_invoice_excel str_lower float_str wb = Ok st ->
  contributions str_lower float_str fixed_sequence wb = Ok cs ->
  rows_map st !! k = Some r ->
  (forall c, In c cs -> c_key c = k -> c_field c <> FSale) ->
  ParsedRow.sale_amount r = 0.
Proof.
  intros Hp Hcs Hk Hcost.
  destruct (parse_with_spec _ _ _ _ _ Hp) as (cs0 & Hcs0 & Hm & _).
  unfold parse_invoice_excel in *. rewrite Hcs in Hcs0. injection Hcs0 as <-.
  pose proof (field_after_apply_all FSale k cs initial_state) as Hf.
  rewrite <- Hm, Hk in Hf. simpl in Hf. rewrite lookup_empty in Hf.
  rewrite (no_sale_contribution_sum k cs Hcost) in Hf.
  destruct (first_contribution k cs); congruence.
Qed.

End MergerClaims.

(** The scenario of the specification: the line is stored with the sale
    amount 1234, the negative commission clamped to 0, and tax 0. *)
Example reversal_scenario :
  map stored_row (parsed_rows_out (parsed_state fixed_sequence wb_reversal)) =
  [ InvoiceRow.mk cash (u "1001") (u "55") (u "A") 1234 0 0 0 0 0 0 0 false ].
Proof. vm_compute. reflexivity. Qed.

(** C1 (the failing input): a sale row and then a return row for the same
    order line. The return row finds the line that the sale row created,
    and [get_or_create] uses its [is_return] argument only for a new
    line: the flag of the line stays false, and the line is stored as a
    sale of 70. *)
Theorem return_row_on_existing_line_not_flagged :
  exists st r,
    parse_invoice_excel ascii_lower no_float_str wb_partial_return = Ok st /\
    rows_map st !! line_1001_55 = Some r /\
    ParsedRow.is_return r = false /\
    ParsedRow.sale_amount r = 70 /\
    InvoiceRow.is_return (stored_row r) = false.
Proof.
  exists (parsed_state fixed_sequence wb_partial_return).
  eexists. split; [vm_compute; reflexivity|].
  split; [vm_compute; reflexivity|]. repeat split.
Qed.

(** The part of C1 that the code keeps: the flag of a line, once the
    line exists, is never changed by a contribution. *)
Lemma is_return_never_changes c st k r :
  rows_map st !! k = Some r ->
  exists r',
    rows_map (apply_contribution c st) !! k = Some r' /\
    ParsedRow.is_return r' = ParsedRow.is_return r.
Proof.
  intros Hk. rewrite lookup_apply_contribution, Hk. simpl.
  destruct (decide (c_key c = k)); eexists; (split; [reflexivity|]);
    [apply title_add_field|reflexivity].
Qed.

(** C4 (the claim as stated fails): on [wb_partial_return] the line keeps
    the title of the sale row although the return row carries another
    one, and on [wb_titles] it keeps the empty title of its first row
    although the second row carries a title. *)
Lemma stored_title_counterexample :
  (exists st r cs,
      parse_invoice_excel ascii_lower no_float_str wb_partial_return = Ok st /\
      contributions ascii_lower no_float_str fixed_sequence wb_partial_return = Ok cs /\
      rows_map st !! line_1001_55 = Some r /\
      InvoiceRow.title (stored_row r) = u "A" /\
      last_nonempty_title line_1001_55 cs = Some (u "B")) /\
  (exists st r cs,
      parse_invoice_excel ascii_lower no_float_str wb_titles = Ok st /\
      contributions ascii_lower no_float_str fixed_sequence wb_titles = Ok cs /\
      rows_map st !! line_1001_55 = Some r /\
      InvoiceRow.title (stored_row r) = [] /\
      last_nonempty_title line_1001_55 cs = Some (u "B")).
Proof.
  split.
  - exists (parsed_state fixed_sequence wb_partial_return). do 2 eexists.
    split; [vm_compute; reflexivity|]. split; [vm_compute; reflexivity|].
    split; [vm_compute; reflexivity|]. split; vm_compute; reflexivity.
  - exists (parsed_state fixed_sequence wb_titles). do 2 eexists.
    split; [vm_compute; reflexivity|]. split; [vm_compute; reflexivity|].
    split; [vm_compute; reflexivity|]. split; vm_compute; reflexivity.
Qed.

(** On [wb_titles] the stored title is the empty title of the first row. *)
Lemma stored_title_witness :
  exists cs c,
    contributions ascii_lower no_float_str fixed_sequence wb_titles = Ok cs /\
    first_contribution line_1001_55 cs = Some c /\
    InvoiceRow.title
      (stored_row (ParsedRow.mk cash (u "1001") (u "55") [] 150 false 0 0 0 0))
    = c_title c.
Proof.
  apply (stored_title_is_first_contribution ascii_lower no_float_str wb_titles
           (parsed_state fixed_sequence wb_titles) line_1001_55).
  - vm_compute. reflexivity.
  - vm_compute. reflexivity.
Defined.

(** C5 (the claim as stated fails): on [wb_partial_return] the fixed
    sequence stores the line as a sale of 70, and the sequence that reads
    the return sheet first stores it as a return with amount 0. *)
Lemma stored_lines_order_counterexample :
  Permutation fixed_sequence returns_first /\
  exists st st' r r',
    parse_invoice_excel ascii_lower no_float_str wb_partial_return = Ok st /\
    parse_with ascii_lower no_float_str returns_first wb_partial_return = Ok st' /\
    rows_map st !! line_1001_55 = Some r /\
    rows_map st' !! line_1001_55 = Some r' /\
    InvoiceRow.sale_amount (stored_row r) = 70 /\
    InvoiceRow.is_return (stored_row r) = false /\
    InvoiceRow.sale_amount (stored_row r') = 0 /\
    InvoiceRow.is_return (stored_row r') = true /\
    stored_row r <> stored_row r'.
Proof.
  split; [apply perm_swap|].
  exists (parsed_state fixed_sequence wb_partial_return),
         (parsed_state returns_first wb_partial_return).
  do 2 eexists.
  split; [vm_compute; reflexivity|]. split; [vm_compute; reflexivity|].
  split; [vm_compute; reflexivity|]. split; [vm_compute; reflexivity|].
  repeat split. vm_compute. discriminate.
Qed.

(** On [wb_partial_return], reading the return sheet first gives the
    same amounts as the fixed sequence. *)
Lemma accumulated_amounts_witness :
  exists st',
    parse_with ascii_lower no_float_str returns_first wb_partial_return = Ok st' /\
    forall k,
      amounts <$> (rows_map (parsed_state fixed_sequence wb_partial_return) !! k)
      = amounts <$> (rows_map st' !! k).
Proof.
  apply (accumulated_amounts_order_independent ascii_lower no_float_str
           wb_partial_return returns_first).
  - apply perm_swap.
  - vm_compute. reflexivity.
Defined.


(* ===================================================================== *)
(** * Properties of finalization and persistence *)
(* ===================================================================== *)

Section PersistenceTheory.

Variable faults : nat -> option exn.

Lemma query_inv effect w r w' :
  query faults effect w = (r, w') ->
  (r = Ok tt /\ faults (queries w) = None /\ w' = tick (effect w)) \/
  (exists e, r = Raise e /\ faults (queries w) = Some e /\ w' = tick w).
Proof.
  unfold query. destruct (faults (queries w)) as [e|]; intros [= <- <-]; eauto.
Qed.

(** The loop of creations, when it ends normally, has appended the
    stored form of every parsed row and nothing else. *)
Lemma create_rows_ok prs : forall n w m w',
  create_rows faults prs n w = (Ok m, w') ->
  db_rows w' = db_rows w ++ map stored_row prs /\
  db_invoice w' = db_invoice w /\ invoice w' = invoice w /\
  db_tiers w' = db_tiers w /\ m = n + Z.of_nat (length prs) /\
  queries w' = (queries w + length prs)%nat /\
  (forall q, (queries w <= q < queries w')%nat -> faults q = None).
Proof.
  induction prs as [|pr prs IH]; intros n w m w'; simpl.
  - intros [= <- <-]. rewrite app_nil_r, Nat.add_0_r.
    repeat split; lia.
  - unfold create_row.
    destruct (query faults _ w) as [r w1] eqn:Eq.
    apply query_inv in Eq as [(-> & Hf & ->)|(e & -> & _ & _)]; [|discriminate].
    intros H. apply IH in H as (H1 & H2 & H3 & H4 & H5 & H6 & H7).
    simpl in *. rewrite H1, H2, H3, H4, H5, H6, <- app_assoc. simpl.
    repeat split; try lia.
    intros q Hq. destruct (decide (q = queries w)) as [->|Hne]; [exact Hf|].
    apply H7. lia.
Qed.

(** The body of the transaction, when it ends normally. *)
Lemma replace_rows_ok prs w w' :
  replace_rows faults prs w = (Ok tt, w') ->
  db_rows w' = map stored_row prs /\
  db_tiers w' = db_tiers w /\
  InvoiceFile.status (db_invoice w') = STATUS_DONE /\
  InvoiceFile.row_count (db_invoice w') = Z.of_nat (length prs) /\
  InvoiceFile.row_count (invoice w') = Z.of_nat (length prs) /\
  InvoiceFile.processing_price (db_invoice w') =
    calculate_price_for_row_count (db_tiers w) (Z.of_nat (length prs)) /\
  (queries w <= queries w')%nat /\
  (forall q, (queries w <= q < queries w')%nat -> faults q = None).
Proof.
  unfold replace_rows, delete_rows.
  destruct (query faults _ w) as [r w1] eqn:E1.
  apply query_inv in E1 as [(-> & Hf1 & ->)|(e & -> & _ & _)]; [|discriminate].
  destruct (create_rows faults prs 0 _) as [[m|e] w2] eqn:E2; [|discriminate].
  apply create_rows_ok in E2 as (H1 & H2 & H3 & H4 & -> & H6 & H7).
  simpl in *. rewrite Z.add_0_l.
  unfold price_invoice, save_result.
  destruct (Z.of_nat (length prs) <=? 0) eqn:En.
  - intros E4. apply query_inv in E4 as [(_ & Hf4 & ->)|(e & [=] & _)].
    simpl in *. rewrite H1, H4, H6.
    split; [reflexivity|]. split; [reflexivity|]. split; [reflexivity|].
    split; [reflexivity|]. split; [reflexivity|]. split; [reflexivity|].
    split; [lia|].
    intros q Hq.
    destruct (decide (q = queries w)) as [->|?]; [exact Hf1|].
    destruct (decide (q = queries w2)) as [->|?]; [exact Hf4|].
    apply H7. lia.
  - destruct (query faults _ _) as [r w3] eqn:E3.
    apply query_inv in E3 as [(-> & Hf3 & ->)|(e & -> & _ & _)]; [|discriminate].
    intros E4. apply query_inv in E4 as [(_ & Hf4 & ->)|(e & [=] & _)].
    simpl in *. rewrite H1, H4, H6.
    split; [reflexivity|]. split; [reflexivity|]. split; [reflexivity|].
    split; [reflexivity|]. split; [reflexivity|]. split; [reflexivity|].
    split; [lia|].
    intros q Hq.
    destruct (decide (q = queries w)) as [->|?]; [exact Hf1|].
    destruct (decide (q = queries w2)) as [->|?]; [exact Hf3|].
    destruct (decide (q = S (queries w2))) as [->|?]; [exact Hf4|].
    apply H7. lia.
Qed.

(** A transaction that raises leaves the database as it was. *)
Lemma atomic_raise {A : Type} (body : M A) w e w' :
  atomic faults body w = (Raise e, w') ->
  db_rows w' = db_rows w /\ db_invoice w' = db_invoice w /\ db_tiers w' = db_tiers w.
Proof.
  unfold atomic. destruct (body w) as [[a|e0] w0].
  - destruct (faults (queries w0)); intros [= <- <-]. repeat split.
  - intros [= <- <-]. repeat split.
Qed.

Lemma atomic_ok {A : Type} (body : M A) w a w' :
  atomic faults body w = (Ok a, w') ->
  exists w0, body w = (Ok a, w0) /\ faults (queries w0) = None /\ w' = tick w0.
Proof.
  unfold atomic. destruct (body w) as [[a0|e0] w0]; [|discriminate].
  destruct (faults (queries w0)) eqn:E; intros [= <- <-]. eauto.
Qed.

Section WithRuntime.
Variable str_lower : str -> str.
Variable float_str : spec_float -> str.

(** A [try] block that raises has not changed the database. *)
Lemma try_block_raise file w e w' :
  try_block faults str_lower float_str file w = (Raise e, w') ->
  db_rows w' = db_rows w /\ db_invoice w' = db_invoice w.
Proof.
  unfold try_block. destruct file as [wb|e0]; [|intros [= <- <-]; split; reflexivity].
  destruct (parse_invoice_excel str_lower float_str wb) as [st|e0];
    [|intros [= <- <-]; split; reflexivity].
  destruct (atomic faults _ w) as [[a|e0] w0] eqn:E; [discriminate|].
  intros [= <- <-]. apply atomic_raise in E. tauto.
Qed.

(** A [try] block that ends normally has replaced the rows of the
    invoice by the stored form of the parsed rows, and none of its
    queries has failed. *)
Lemma try_block_ok wb w n log w' :
  try_block faults str_lower float_str (Ok wb) w = (Ok (n, log), w') ->
  exists st,
    parse_invoice_excel str_lower float_str wb = Ok st /\
    log = log_lines st /\
    n = Z.of_nat (length (parsed_rows_out st)) /\
    db_rows w' = map stored_row (parsed_rows_out st) /\
    InvoiceFile.status (db_invoice w') = STATUS_DONE /\
    InvoiceFile.row_count (db_invoice w') = n /\
    InvoiceFile.processing_price (db_invoice w') =
      calculate_price_for_row_count (db_tiers w) n /\
    (forall q, (queries w <= q < queries w')%nat -> faults q = None).
Proof.
  unfold try_block.
  destruct (parse_invoice_excel str_lower float_str wb) as [st|e0]; [|discriminate].
  destruct (atomic faults _ w) as [[[]|e0] w0] eqn:E; [|discriminate].
  intros [= <- <- <-]. exists st.
  apply atomic_ok in E as (w1 & Hb & Hc & ->).
  apply replace_rows_ok in Hb as (H1 & H2 & H3 & H4 & H5 & H6 & H7 & H8).
  simpl. rewrite H5. repeat split; try assumption.
  intros q Hq. destruct (decide (q = queries w1)) as [->|?]; [exact Hc|].
  apply H8. lia.
Qed.

(** The three kinds of failure make the [try] block raise. *)
Lemma unreadable_workbook_raises e w :
  try_block faults str_lower float_str (Raise e) w = (Raise e, w).
Proof. reflexivity. Qed.

Lemma merge_exception_raises wb e w :
  parse_invoice_excel str_lower float_str wb = Raise e ->
  try_block faults str_lower float_str (Ok wb) w = (Raise e, w).
Proof. intros H. unfold try_block. rewrite H. reflexivity. Qed.

Lemma failed_query_raises wb w r w' q e :
  try_block faults str_lower float_str (Ok wb) w = (r, w') ->
  (queries w <= q < queries w')%nat -> faults q = Some e ->
  exists e', r = Raise e'.
Proof.
  intros H Hq Hf. destruct r as [[n log]|e']; [|eauto].
  apply try_block_ok in H as (st & _ & _ & _ & _ & _ & _ & _ & Hnone).
  rewrite (Hnone q Hq) in Hf. discriminate.
Qed.

(** What the assignments and the save of a status do. *)
Lemma mark_inv s msg w r w' :
  mark faults s msg w = (r, w') ->
  db_rows w' = db_rows w /\ db_tiers w' = db_tiers w /\
  queries w' = S (queries w) /\
  ((r = Ok tt /\ faults (queries w) = None /\
    db_invoice w' =
      InvoiceFile.mk s msg (InvoiceFile.row_count (db_invoice w))
        (InvoiceFile.processing_price (db_invoice w))) \/
   (exists e, r = Raise e /\ faults (queries w) = Some e /\
              db_invoice w' = db_invoice w)).
Proof.
  unfold mark, save_status. intros H.
  apply query_inv in H as [(-> & Hf & ->)|(e & -> & Hf & ->)]; simpl.
  - split; [reflexivity|]. split; [reflexivity|]. split; [reflexivity|].
    left. repeat split. exact Hf.
  - split; [reflexivity|]. split; [reflexivity|]. split; [reflexivity|].
    right. exists e. repeat split. exact Hf.
Qed.

(** A run that returns a log went through the first save and the [try]
    block without an exception. *)
Lemma process_ok_inv file w n log w' :
  process_invoice_file faults str_lower float_str file w
  = (Ok (n, LogText log), w') ->
  exists w0,
    mark faults STATUS_PROCESSING [] w = (Ok tt, w0) /\
    try_block faults str_lower float_str file w0 = (Ok (n, log), w').
Proof.
  unfold process_invoice_file.
  destruct (mark faults STATUS_PROCESSING [] w) as [[[]|e0] w0] eqn:Em;
    [|discriminate].
  destruct (try_block faults str_lower float_str file w0) as [[[m l]|e] w1] eqn:E.
  - intros [= <- <- <-]. exists w0. split; [reflexivity|exact E].
  - destruct (mark faults STATUS_ERROR (exn_str e) w1) as [[[]|e1] w2];
      discriminate.
Qed.

(** When the first status write fails, the function raises before the
    [try] and the database is as it was. *)
Lemma first_status_write_fails file w e :
  faults (queries w) = Some e ->
  exists w',
    process_invoice_file faults str_lower float_str file w = (Raise e, w') /\
    db_rows w' = db_rows w /\ db_invoice w' = db_invoice w.
Proof.
  intros Hf. unfold process_invoice_file.
  destruct (mark faults STATUS_PROCESSING [] w) as [r w0] eqn:Em.
  apply mark_inv in Em as (Hr & _ & _ & [(_ & Hn & _)|(e0 & -> & He & Hi)]);
    [congruence|].
  exists w0. rewrite Hf in He. injection He as <-. repeat split; assumption.
Qed.

(** C7 (as amended): when, after the first status write, the [try]
    block of a run raises (the workbook cannot be opened, the merge
    raises, or a query of the replacement fails), the stored lines of
    the invoice are those from before the run. When the status write of
    the handler succeeds, [process_invoice_file] returns 0 with the
    error text and the record of the invoice ends in the error state
    with the text of the exception; when that write fails too,
    [process_invoice_file] raises its exception and the record of the
    invoice is left in the processing state. *)
Theorem failed_run_marks_invoice_and_keeps_rows
    (file : result workbook) (w w0 w1 : world) (e : exn) :
  mark faults STATUS_PROCESSING [] w = (Ok tt, w0) ->
  try_block faults str_lower float_str file w0 = (Raise e, w1) ->
  let '(r, w') := process_invoice_file faults str_lower float_str file w in
  db_rows w' = db_rows w /\
  match faults (queries w1) with
  | None =>
    r = Ok (0, ErrorText e) /\
    InvoiceFile.status (db_invoice w') = STATUS_ERROR /\
    InvoiceFile.error_message (db_invoice w') = exn_str e
  | Some e' =>
    r = Raise e' /\
    InvoiceFile.status (db_invoice w') = STATUS_PROCESSING
  end.
Proof.
  intros Hm Ht. unfold process_invoice_file. rewrite Hm, Ht.
  apply mark_inv in Hm as (Hr0 & _ & _ & [(_ & _ & Hi0)|(e0 & [=] & _)]).
  apply try_block_raise in Ht as [Hr1 Hi1].
  destruct (mark faults STATUS_ERROR (exn_str e) w1) as [r2 w2] eqn:Eh.
  apply mark_inv in Eh as (Hr2 & _ & _ & [(-> & Hf & Hi2)|(e2 & -> & Hf & Hi2)]);
    rewrite Hf.
  - split; [congruence|]. rewrite Hi2. repeat split.
  - split; [congruence|]. split; [reflexivity|].
    rewrite Hi2, Hi1, Hi0. reflexivity.
Qed.

(** C2: after a successful run, the stored record of every
    accumulated line whose [sale_amount] is 0 or less is a return
    with [sale_amount], [commission_amount], [shipping_fee],
    [processing_fee], [platform_dev_revenue] and [tax_amount] all 0,
    whatever its [is_return] flag was. *)
Theorem nonpositive_sale_stored_as_zero_return
    (wb : workbook) (w w' : world) (n : Z) (log : list log_line)
    (st : merge_state) (i : nat) (pr : ParsedRow.t) :
  process_invoice_file faults str_lower float_str (Ok wb) w
  = (Ok (n, LogText log), w') ->
  parse_invoice_excel str_lower float_str wb = Ok st ->
  parsed_rows_out st !! i = Some pr ->
  ParsedRow.sale_amount pr <= 0 ->
  exists r,
    db_rows w' !! i = Some r /\
    InvoiceRow.is_return r = true /\
    InvoiceRow.sale_amount r = 0 /\
    InvoiceRow.commission_amount r = 0 /\
    InvoiceRow.shipping_fee r = 0 /\
    InvoiceRow.processing_fee r = 0 /\
    InvoiceRow.platform_dev_revenue r = 0 /\
    InvoiceRow.tax_amount r = 0.
Proof.
  intros H Hp Hi Hs.
  apply process_ok_inv in H as (w0 & _ & E).
  apply try_block_ok in E as (st0 & Hp0 & _ & _ & Hrows & _).
  rewrite Hp in Hp0. injection Hp0 as <-.
  exists (stored_row pr). split.
  - rewrite Hrows, list_lookup_fmap, Hi. reflexivity.
  - unfold stored_row. apply Z.leb_le in Hs. rewrite Hs, orb_true_r. simpl.
    repeat split.
Qed.

End WithRuntime.

End PersistenceTheory.

(** The run on [wb_full_return]: the line nets to 0 without the return
    flag and is stored as a return with 0 everywhere. *)
Lemma nonpositive_sale_witness :
  exists r,
    db_rows (snd (process_invoice_file no_fault ascii_lower no_float_str
                    (Ok wb_full_return) processed_world)) !! 0%nat = Some r /\
    InvoiceRow.is_return r = true /\
    InvoiceRow.sale_amount r = 0 /\
    InvoiceRow.commission_amount r = 0 /\
    InvoiceRow.shipping_fee r = 0 /\
    InvoiceRow.processing_fee r = 0 /\
    InvoiceRow.platform_dev_revenue r = 0 /\
    InvoiceRow.tax_amount r = 0.
Proof.
  apply (nonpositive_sale_stored_as_zero_return no_fault ascii_lower no_float_str
           wb_full_return processed_world _ 1
           (log_lines (parsed_state fixed_sequence wb_full_return))
           (parsed_state fixed_sequence wb_full_return) 0%nat
           (ParsedRow.mk cash (u "1001") (u "55") (u "A") 0 false 10 0 0 0)).
  - vm_compute. reflexivity.
  - vm_compute. reflexivity.
  - vm_compute. reflexivity.
  - simpl. lia.
Defined.

(** A run on [wb_partial_return] whose third query, the creation of the
    first row after the status write and the deletion, fails: the
    invoice is marked failed and still has its old line. *)
Lemma failed_run_witness :
  let e := DatabaseError (u "connection lost") in
  let faults := fault_at 2 e in
  let w0 := snd (mark faults STATUS_PROCESSING [] processed_world) in
  let w1 := snd (try_block faults ascii_lower no_float_str (Ok wb_partial_return) w0) in
  let '(r, w') := process_invoice_file faults ascii_lower no_float_str
                    (Ok wb_partial_return) processed_world in
  db_rows w' = db_rows processed_world /\
  match faults (queries w1) with
  | None =>
    r = Ok (0, ErrorText e) /\
    InvoiceFile.status (db_invoice w') = STATUS_ERROR /\
    InvoiceFile.error_message (db_invoice w') = exn_str e
  | Some e' =>
    r = Raise e' /\
    InvoiceFile.status (db_invoice w') = STATUS_PROCESSING
  end.
Proof.
  intros e faults w0 w1.
  apply (failed_run_marks_invoice_and_keeps_rows faults ascii_lower no_float_str
           (Ok wb_partial_return) processed_world w0 w1 e).
  - vm_compute. reflexivity.
  - vm_compute. reflexivity.
Defined.

(** C7 (the claim as stated fails): the database is lost after the first
    status write of a run on [wb_partial_return]. The deletion fails,
    the status write of the handler fails as well, the function raises,
    and the record of the invoice is not in the error state and carries
    no error text. *)
Lemma failed_run_counterexample :
  let e := DatabaseError (u "connection lost") in
  let out := process_invoice_file (fault_from 1 e) ascii_lower no_float_str
               (Ok wb_partial_return) processed_world in
  fst out = Raise e /\
  InvoiceFile.status (db_invoice (snd out)) <> STATUS_ERROR /\
  InvoiceFile.error_message (db_invoice (snd out)) = [].
Proof.
  vm_compute. split; [reflexivity|]. split; [discriminate|reflexivity].
Qed.

(** An infinite amount in a sales sheet makes the merge itself raise. *)
Example merge_raises_on_infinite_amount :
  parse_invoice_excel ascii_lower no_float_str
    [ (u "فروش", [example_header;
                   [VInt 1001; VInt 55; VNone; VFloat (S754_infinity false)]]) ]
  = Raise OverflowError.
Proof. vm_compute. reflexivity. Qed.

(* ===================================================================== *)
(** * Further properties of the numeric normalizer *)
(* ===================================================================== *)

Lemma digits_value_spec d acc :
  digits_value d acc
  = (DecimalPos.Unsigned.of_lu (Decimal.rev d)
     + acc * 10 ^ DecimalPos.Unsigned.usize d)%N.
Proof.
  revert acc. unfold Decimal.rev.
  induction d; intros acc; simpl digits_value; simpl DecimalPos.Unsigned.usize;
    [simpl; lia|..];
    rewrite IHd; simpl Decimal.revapp;
    rewrite (DecimalPos.Unsigned.of_lu_revapp d (_ Decimal.Nil));
    rewrite N.pow_succ_r'; simpl DecimalPos.Unsigned.of_lu; unfold Decimal.rev; lia.
Qed.

Lemma digits_value_to_uint p : digits_value (Pos.to_uint p) 0 = Npos p.
Proof.
  rewrite digits_value_spec, N.mul_0_l, N.add_0_r.
  rewrite <- DecimalPos.Unsigned.of_uint_alt. apply DecimalPos.Unsigned.of_to.
Qed.

(** The characters of a decimal numeral are ASCII digits, and [int()]
    reads them as the numeral's value. *)
Lemma codes_uint_digits d : Forall ascii_digit (codes (NilEmpty.string_of_uint d)).
Proof.
  unfold codes, ascii_digit.
  induction d; simpl; constructor; try assumption; simpl; lia.
Qed.

Lemma int_digits_uint d : forall acc n prev,
  d <> Decimal.Nil ->
  int_digits (codes (NilEmpty.string_of_uint d)) (Z.of_N acc) n prev
  = Some (Z.of_N (digits_value d acc),
          (n + length (codes (NilEmpty.string_of_uint d)))%nat).
Proof.
  induction d; intros acc n prev Hd; [congruence|..];
    unfold codes in *; simpl list_ascii_of_string; simpl map;
    cbn [int_digits];
    match goal with
    | |- context [decimal_value ?c] =>
      change (decimal_value c) with (Some (c - 48)%N)
    end; cbv beta iota;
    (destruct d;
     [ simpl; f_equal; apply pair_equal_spec; split; lia
     | match goal with
       | |- int_digits ?s ?a _ _ = _ =>
         match a with
         | (10 * Z.of_N acc + Z.of_N ?k) =>
           replace a with (Z.of_N (10 * acc + k)) by lia
         end
       end;
       rewrite IHd by discriminate;
       f_equal; apply pair_equal_spec; split;
       [ cbn [digits_value]; f_equal; f_equal; lia
       | cbn [length map list_ascii_of_string NilEmpty.string_of_uint]; lia ] .. ]).
Qed.

(** Comparisons of a code point with a constant, decided by [lia]. *)
Ltac decide_code_tests :=
  repeat match goal with
         | |- context [(?a <=? ?b)%N] =>
           first [ replace (a <=? b)%N with true by (symmetry; apply N.leb_le; lia)
                 | replace (a <=? b)%N with false by (symmetry; apply N.leb_gt; lia) ]
         | |- context [(?a <? ?b)%N] =>
           first [ replace (a <? b)%N with true by (symmetry; apply N.ltb_lt; lia)
                 | replace (a <? b)%N with false by (symmetry; apply N.ltb_ge; lia) ]
         | |- context [(?a =? ?b)%N] =>
           first [ replace (a =? b)%N with true by (symmetry; apply N.eqb_eq; lia)
                 | replace (a =? b)%N with false by (symmetry; apply N.eqb_neq; lia) ]
         end.

Lemma is_space_sign_or_digit c : sign_or_digit c -> is_space c = false.
Proof. unfold sign_or_digit, is_space. intros H. decide_code_tests. reflexivity. Qed.

Lemma lstrip_sign_or_digit s : Forall sign_or_digit s -> lstrip s = s.
Proof.
  destruct 1 as [|c s Hc Hs]; simpl; [reflexivity|].
  rewrite is_space_sign_or_digit by exact Hc. reflexivity.
Qed.

Lemma strip_sign_or_digit s : Forall sign_or_digit s -> strip s = s.
Proof.
  intros H. unfold strip, rstrip.
  rewrite (lstrip_sign_or_digit s H).
  rewrite lstrip_sign_or_digit by (apply Forall_rev; exact H).
  apply rev_involutive.
Qed.

Lemma remove_char_sign_or_digit c s :
  (c < 45 \/ 58 <= c)%N -> Forall sign_or_digit s -> remove_char c s = s.
Proof.
  intros Hc. unfold remove_char. induction 1 as [|x s Hx Hs IH]; simpl; [reflexivity|].
  unfold sign_or_digit in Hx. decide_code_tests. simpl. rewrite IH. reflexivity.
Qed.

Lemma translate_sign_or_digit zero s :
  (58 <= zero)%N -> Forall sign_or_digit s -> translate_digits zero s = s.
Proof.
  intros Hz. unfold translate_digits. induction 1 as [|x s Hx Hs IH]; simpl; [reflexivity|].
  unfold sign_or_digit in Hx. decide_code_tests. simpl. rewrite IH. reflexivity.
Qed.

Lemma decimal_value_ascii c : ascii_digit c -> decimal_value c = Some (c - 48)%N.
Proof.
  unfold ascii_digit, decimal_value. intros H. simpl List.find.
  decide_code_tests. reflexivity.
Qed.

Lemma filter_is_digit_ascii s : Forall ascii_digit s -> List.filter is_digit s = s.
Proof.
  induction 1 as [|c s Hc Hs IH]; simpl; [reflexivity|].
  unfold is_digit at 1. rewrite decimal_value_ascii by exact Hc. rewrite IH. reflexivity.
Qed.

Lemma ascii_digit_cases c :
  ascii_digit c ->
  c = 48%N \/ c = 49%N \/ c = 50%N \/ c = 51%N \/ c = 52%N \/ c = 53%N \/
  c = 54%N \/ c = 55%N \/ c = 56%N \/ c = 57%N.
Proof. unfold ascii_digit. lia. Qed.

(** [_normalize_number] on a text made of an optional minus sign and
    ASCII digits is [int()] of the digits, with the sign. *)
Lemma normalize_text_signed_digits (neg : bool) (ds : str) (v : Z) (k : nat) :
  ds <> [] -> Forall ascii_digit ds ->
  int_digits ds 0 0%nat false = Some (v, k) ->
  (k <= int_max_str_digits)%nat ->
  normalize_text ((if neg then [45%N] else []) ++ ds) = Ok (if neg then - v else v).
Proof.
  intros Hne Hds Hv Hk.
  assert (Hall : Forall sign_or_digit ((if neg then [45%N] else []) ++ ds)).
  { apply Forall_app. split.
    - destruct neg; repeat constructor; unfold sign_or_digit; lia.
    - eapply Forall_impl; [exact Hds|]. unfold ascii_digit, sign_or_digit. intros; lia. }
  assert (Hlim : (int_max_str_digits <? k)%nat = false) by (apply Nat.ltb_ge; exact Hk).
  unfold normalize_text, PERSIAN_DIGITS, ARABIC_DIGITS.
  rewrite (remove_char_sign_or_digit 44) by (assumption || lia).
  rewrite (remove_char_sign_or_digit 1644) by (assumption || lia).
  rewrite (translate_sign_or_digit 1776) by (assumption || lia).
  rewrite (translate_sign_or_digit 1632) by (assumption || lia).
  rewrite strip_sign_or_digit by assumption.
  destruct neg; cbn [app] in *.
  - cbn [List.filter]. change (is_digit 45) with false. cbv iota.
    rewrite filter_is_digit_ascii by exact Hds.
    unfold py_int. destruct ds as [|c ds']; [congruence|].
    cbn [length Nat.eqb negb andb]. rewrite strip_sign_or_digit by exact Hall.
    rewrite Hv, Hlim. reflexivity.
  - rewrite filter_is_digit_ascii by exact Hds.
    destruct ds as [|c ds']; [congruence|].
    destruct (ascii_digit_cases c (Forall_inv Hds))
      as [->|[->|[->|[->|[->|[->|[->|[->|[->| ->]]]]]]]]];
      cbn [andb]; cbv beta iota; unfold py_int;
      rewrite strip_sign_or_digit by exact Hall;
      cbv beta iota; rewrite Hv, Hlim; destruct ds'; reflexivity.
Qed.

Lemma codes_string_of_uint p :
  NilZero.string_of_uint (Pos.to_uint p) = NilEmpty.string_of_uint (Pos.to_uint p).
Proof.
  pose proof (DecimalPos.Unsigned.to_uint_nonnil p) as H.
  destruct (Pos.to_uint p); [congruence|reflexivity..].
Qed.

Lemma codes_uint_nonempty d : d <> Decimal.Nil -> codes (NilEmpty.string_of_uint d) <> [].
Proof. destruct d; [congruence|discriminate..]. Qed.

(** X2: [str(n)] is read back as [n]: for every integer [n] whose decimal
    text is within the digit limit of [int()], [_normalize_number] of the
    text [str(n)] is [n]. *)
Theorem normalize_number_of_str_of_int (n : Z) :
  (length (str_of_int n) <= int_max_str_digits)%nat ->
  _normalize_number (VStr (str_of_int n)) = Ok n.
Proof.
  unfold str_of_int. fold (codes (NilZero.string_of_int (Z.to_int n))).
  destruct n as [|p|p]; intros Hlen.
  - reflexivity.
  - cbn [Z.to_int NilZero.string_of_int] in *. rewrite codes_string_of_uint in *.
    pose proof (DecimalPos.Unsigned.to_uint_nonnil p) as Hnil.
    pose proof (int_digits_uint (Pos.to_uint p) 0%N 0%nat false Hnil) as Hv.
    rewrite digits_value_to_uint in Hv.
    apply (normalize_text_signed_digits false _ _ _
             (codes_uint_nonempty _ Hnil) (codes_uint_digits _) Hv).
    simpl in *. lia.
  - cbn [Z.to_int NilZero.string_of_int] in *. rewrite codes_string_of_uint in *.
    pose proof (DecimalPos.Unsigned.to_uint_nonnil p) as Hnil.
    pose proof (int_digits_uint (Pos.to_uint p) 0%N 0%nat false Hnil) as Hv.
    rewrite digits_value_to_uint in Hv.
    change (codes (String "-" (NilEmpty.string_of_uint (Pos.to_uint p))))
      with ([45%N] ++ codes (NilEmpty.string_of_uint (Pos.to_uint p))) in *.
    apply (normalize_text_signed_digits true _ _ _
             (codes_uint_nonempty _ Hnil) (codes_uint_digits _) Hv).
    rewrite length_app in Hlen. simpl in *. lia.
Qed.

(** The text "-1234" of the integer -1234. *)
Lemma normalize_number_of_str_of_int_witness :
  _normalize_number (VStr (str_of_int (-1234))) = Ok (-1234).
Proof.
  apply normalize_number_of_str_of_int.
  change (5 <= int_max_str_digits)%nat. unfold int_max_str_digits. lia.
Defined.

Lemma remove_translate c zero s :
  (58 <= zero)%N ->
  (c < 48 \/ (58 <= c /\ (c < zero \/ zero + 10 <= c)))%N ->
  remove_char c (translate_digits zero s) = translate_digits zero (remove_char c s).
Proof.
  intros Hz Hc. unfold remove_char, translate_digits.
  induction s as [|x s IH]; [reflexivity|].
  cbn [map List.filter]. rewrite IH.
  assert (E : negb ((if (zero <=? x)%N && (x <? zero + 10)%N
                     then (x - zero + 48)%N else x) =? c)%N = negb (x =? c)%N).
  { destruct ((zero <=? x)%N && (x <? zero + 10)%N) eqn:Ex; [|reflexivity].
    apply andb_true_iff in Ex as [H1 H2]. apply N.leb_le in H1. apply N.ltb_lt in H2.
    f_equal. transitivity false; [|symmetry]; apply N.eqb_neq; lia. }
  rewrite E. destruct (negb (x =? c)%N); reflexivity.
Qed.

Lemma translate_idem zero s :
  (58 <= zero)%N ->
  translate_digits zero (translate_digits zero s) = translate_digits zero s.
Proof.
  intros Hz. unfold translate_digits. rewrite map_map. apply map_ext. intros x.
  destruct ((zero <=? x)%N && (x <? zero + 10)%N) eqn:Ex; [|rewrite Ex; reflexivity].
  apply andb_true_iff in Ex as [H1 H2]. apply N.leb_le in H1. apply N.ltb_lt in H2.
  replace (zero <=? x - zero + 48)%N with false by (symmetry; apply N.leb_gt; lia).
  reflexivity.
Qed.

Lemma translate_arabic_persian_arabic s :
  ARABIC_DIGITS (PERSIAN_DIGITS (ARABIC_DIGITS s)) = ARABIC_DIGITS (PERSIAN_DIGITS s).
Proof.
  unfold ARABIC_DIGITS, PERSIAN_DIGITS, translate_digits. rewrite !map_map.
  apply map_ext. intros x.
  destruct ((1632 <=? x)%N && (x <? 1632 + 10)%N) eqn:Ex.
  - apply andb_true_iff in Ex as [H1 H2]. apply N.leb_le in H1. apply N.ltb_lt in H2.
    replace (1776 <=? x - 1632 + 48)%N with false by (symmetry; apply N.leb_gt; lia).
    replace (1776 <=? x)%N with false by (symmetry; apply N.leb_gt; lia).
    cbn [andb].
    replace (1632 <=? x - 1632 + 48)%N with false by (symmetry; apply N.leb_gt; lia).
    replace (1632 <=? x)%N with true by (symmetry; apply N.leb_le; lia).
    replace (x <? 1632 + 10)%N with true by (symmetry; apply N.ltb_lt; lia).
    reflexivity.
  - reflexivity.
Qed.

(** X3: the script of the digits does not matter: a text and the same
    text with its Persian digits, or its Arabic-Indic digits, replaced
    by ASCII digits normalize to the same result. *)
Theorem normalize_text_digit_script (s : str) :
  normalize_text (PERSIAN_DIGITS s) = normalize_text s /\
  normalize_text (ARABIC_DIGITS s) = normalize_text s.
Proof.
  assert (HP : ARABIC_DIGITS (PERSIAN_DIGITS
                 (remove_char 1644 (remove_char 44 (PERSIAN_DIGITS s))))
               = ARABIC_DIGITS (PERSIAN_DIGITS (remove_char 1644 (remove_char 44 s)))).
  { unfold PERSIAN_DIGITS. rewrite !remove_translate by lia.
    rewrite translate_idem by lia. reflexivity. }
  assert (HA : ARABIC_DIGITS (PERSIAN_DIGITS
                 (remove_char 1644 (remove_char 44 (ARABIC_DIGITS s))))
               = ARABIC_DIGITS (PERSIAN_DIGITS (remove_char 1644 (remove_char 44 s)))).
  { unfold ARABIC_DIGITS at 2. rewrite !remove_translate by lia.
    apply translate_arabic_persian_arabic. }
  unfold normalize_text. cbv zeta. rewrite HP, HA. split; reflexivity.
Qed.

Lemma int_digits_nonneg s : forall acc n prev v k,
  0 <= acc -> int_digits s acc n prev = Some (v, k) -> 0 <= v.
Proof.
  induction s as [|c s IH]; intros acc n prev v k Hacc; simpl.
  - destruct prev; [|discriminate]. intros [= <- <-]. exact Hacc.
  - destruct (decimal_value c) as [d|].
    + apply IH. lia.
    + destruct ((c =? 95)%N && prev); [|discriminate]. apply IH. exact Hacc.
Qed.

Lemma In_lstrip x s : In x (lstrip s) -> In x s.
Proof.
  induction s as [|c s IH]; simpl; [tauto|].
  destruct (is_space c); [right; apply IH; assumption|intros H; exact H].
Qed.

Lemma In_strip x s : In x (strip s) -> In x s.
Proof.
  unfold strip, rstrip. rewrite <- in_rev. intros H.
  apply In_lstrip in H. rewrite <- in_rev in H. apply In_lstrip, H.
Qed.

Lemma In_translate_minus zero s :
  (58 <= zero)%N -> In 45%N (translate_digits zero s) -> In 45%N s.
Proof.
  intros Hz. unfold translate_digits. rewrite in_map_iff. intros (x & Hx & Hin).
  destruct ((zero <=? x)%N && (x <? zero + 10)%N) eqn:Ex; [|subst x; exact Hin].
  apply andb_true_iff in Ex as [H1 H2]. apply N.leb_le in H1. lia.
Qed.

Lemma py_int_negative s n :
  py_int s = Ok n -> n < 0 -> exists r, strip s = 45%N :: r.
Proof.
  unfold py_int. intros H Hn.
  destruct (strip s) as [|c r] eqn:Es.
  - simpl in H. discriminate.
  - destruct (N.eq_dec c 45%N) as [->|Hc]; [eauto|].
    exfalso.
    assert (Hb : exists body,
                   match int_digits body 0 0%nat false with
                   | Some (v, k) =>
                     if (int_max_str_digits <? k)%nat then Raise ValueError else Ok v
                   | None => Raise ValueError
                   end = Ok n).
    { destruct (N.eq_dec c 43%N) as [->|Hc'].
      - exists r. exact H.
      - exists (c :: r). destruct c as [|p]; [exact H|].
        repeat (destruct p as [p|p|]; try exact H); congruence. }
    destruct Hb as (body & Hb).
    destruct (int_digits body 0 0%nat false) as [[v k]|] eqn:Ev; [|discriminate].
    apply int_digits_nonneg in Ev; [|lia].
    destruct (int_max_str_digits <? k)%nat; [discriminate|].
    injection Hb as <-. lia.
Qed.

Lemma parse_or_zero_nonzero (t : str) (X : result Z) (n : Z) :
  match t with
  | [] | [45%N] | [43%N] => Ok 0
  | _ => X
  end = Ok n ->
  n <> 0 -> X = Ok n.
Proof.
  intros H Hn.
  destruct t as [|c t']; [simpl in H; congruence|].
  destruct c as [|p]; [destruct t'; exact H|].
  repeat (destruct p as [p|p|];
          try (destruct t'; solve [exact H | simpl in H; congruence])).
Qed.

(** X4: a negative result needs a minus sign: when [_normalize_number]
    makes a negative integer of a text, the text contains the character
    "-" (a word such as "منفی" is not a sign). *)
Theorem normalize_text_negative_has_minus (s : str) (n : Z) :
  normalize_text s = Ok n -> n < 0 -> In 45%N s.
Proof.
  unfold normalize_text. cbv zeta.
  set (t := strip (ARABIC_DIGITS (PERSIAN_DIGITS (remove_char 1644 (remove_char 44 s))))).
  set (f := List.filter is_digit t).
  intros H Hn.
  apply parse_or_zero_nonzero in H; [|lia].
  destruct (py_int _) as [m|e] eqn:Ep;
    [|destruct e; try congruence; injection H as <-; lia].
  injection H as ->.
  apply py_int_negative in Ep as [r Er]; [|exact Hn].
  assert (Hin : In 45%N (if match t with 45%N :: _ => true | _ => false end
                            && negb (length f =? 0)%nat
                         then 45%N :: f else f)).
  { apply In_strip. rewrite Er. left. reflexivity. }
  assert (Hf : ~ In 45%N f).
  { unfold f. rewrite filter_In. intros [_ Hd]. vm_compute in Hd. discriminate. }
  assert (Ht : In 45%N t).
  { destruct t as [|c t'] eqn:Et; [simpl in Hin; contradiction|].
    destruct (N.eq_dec c 45%N) as [->|Hc]; [left; reflexivity|].
    exfalso. apply Hf.
    destruct c as [|p]; [exact Hin|].
    repeat (destruct p as [p|p|]; try exact Hin). congruence. }
  unfold t in Ht. apply In_strip in Ht.
  apply (In_translate_minus 1632) in Ht; [|lia].
  apply (In_translate_minus 1776) in Ht; [|lia].
  unfold remove_char in Ht. rewrite !filter_In in Ht. tauto.
Qed.

(** The text "-12" gives -12 and has a minus sign; the text of the
    repository's test, "منفی 123", gives 123. *)
Lemma normalize_text_negative_witness : In 45%N (u "-12").
Proof.
  apply (normalize_text_negative_has_minus (u "-12") (-12)).
  - vm_compute. reflexivity.
  - lia.
Defined.

Example normalize_word_for_minus :
  _normalize_number (VStr (u "منفی 123")) = Ok 123.
Proof. vm_compute. reflexivity. Qed.

(** X1: [_normalize_number] returns an integer for every value except
    the two infinite floats, on which it raises [OverflowError]. *)
Theorem normalize_number_total_except_infinity (val : value) :
  (exists n, _normalize_number val = Ok n) \/
  (_normalize_number val = Raise OverflowError /\
   exists s, val = VFloat (S754_infinity s)).
Proof.
  destruct (_normalize_number val) as [n|e] eqn:E; [left; eauto|right].
  apply normalize_raises_iff in E as [-> Hs]. split; [reflexivity|exact Hs].
Qed.

(* ===================================================================== *)
(** * Properties of the sheet locator and header matcher *)
(* ===================================================================== *)

Section HeaderProperties.

Variable str_lower : str -> str.
Variable float_str : spec_float -> str.

Lemma find_col_from_spec keywords headers : forall idx,
  match find_col_from str_lower idx headers keywords with
  | Some i =>
    exists name,
      (idx <= i)%nat /\ headers !! (i - idx)%nat = Some name /\
      header_matches str_lower keywords name = true /\
      forall j name', (j < i - idx)%nat -> headers !! j = Some name' ->
                      header_matches str_lower keywords name' = false
  | None => forall name, In name headers -> header_matches str_lower keywords name = false
  end.
Proof.
  induction headers as [|h headers IH]; intros idx; simpl.
  - intros name [].
  - fold (header_matches str_lower keywords h).
    destruct (header_matches str_lower keywords h) eqn:Eh.
    + exists h. rewrite Nat.sub_diag. split; [lia|]. split; [reflexivity|].
      split; [exact Eh|]. intros j name' Hj. lia.
    + specialize (IH (S idx)).
      destruct (find_col_from str_lower (S idx) headers keywords) as [i|].
      * destruct IH as (name & Hle & Hname & Hm & Hbefore).
        exists name. split; [lia|].
        replace (i - idx)%nat with (S (i - S idx)) by lia.
        split; [exact Hname|]. split; [exact Hm|].
        intros [|j] name' Hj; simpl.
        -- intros [= <-]. exact Eh.
        -- apply Hbefore. lia.
      * intros name [<-|Hin]; [exact Eh|apply IH, Hin].
Qed.

(** X5: [_find_col] returns the index of the first header, from the left,
    whose lower-cased and trimmed text contains one of the keywords (in
    whatever position the keyword has in the list), and [None] exactly
    when no header contains a keyword. *)
Theorem find_col_first_matching_header (headers keywords : list str) :
  match _find_col str_lower headers keywords with
  | Some i =>
    exists name,
      headers !! i = Some name /\
      header_matches str_lower keywords name = true /\
      forall j name', (j < i)%nat -> headers !! j = Some name' ->
                      header_matches str_lower keywords name' = false
  | None => forall name, In name headers -> header_matches str_lower keywords name = false
  end.
Proof.
  unfold _find_col. pose proof (find_col_from_spec keywords headers 0) as H.
  destruct (find_col_from str_lower 0 headers keywords) as [i|]; [|exact H].
  destruct H as (name & _ & H). rewrite Nat.sub_0_r in H. exists name. exact H.
Qed.

Lemma find_col_lt headers keywords i :
  _find_col str_lower headers keywords = Some i -> (i < length headers)%nat.
Proof.
  intros H. pose proof (find_col_from_spec keywords headers 0) as Hs.
  unfold _find_col in H. rewrite H in Hs. destruct Hs as (name & _ & Hn & _).
  rewrite Nat.sub_0_r in Hn. apply lookup_lt_Some in Hn. exact Hn.
Qed.

Lemma find_header_spec rows :
  (find_header float_str rows = [] /\
   forall row, In row rows -> (length (List.filter (is_text float_str) row) < 3)%nat) \/
  (exists i row,
      rows !! i = Some row /\
      (3 <= length (List.filter (is_text float_str) row))%nat /\
      find_header float_str rows = map (header_cell float_str) row /\
      forall j row', (j < i)%nat -> rows !! j = Some row' ->
                     (length (List.filter (is_text float_str) row') < 3)%nat).
Proof.
  induction rows as [|row rows IH]; cbn [find_header].
  - left. split; [reflexivity|]. intros row [].
  - destruct (3 <=? length (List.filter (is_text float_str) row))%nat eqn:E.
    + right. exists 0%nat, row. apply Nat.leb_le in E.
      split; [reflexivity|]. split; [exact E|]. split; [reflexivity|].
      intros j row' Hj. lia.
    + apply Nat.leb_gt in E. destruct IH as [[Hnil Hall]|(i & r & Hi & Hr & Hf & Hb)].
      * left. split; [exact Hnil|]. intros r [<-|Hin]; [exact E|apply Hall, Hin].
      * right. exists (S i), r. split; [exact Hi|]. split; [exact Hr|].
        split; [exact Hf|].
        intros [|j] row' Hj; simpl; [intros [= <-]; exact E|apply Hb; lia].
Qed.

(** X6: [_get_header_row] returns the trimmed cells of the first row,
    among the first ten rows of the sheet, that has at least three
    non-empty cells, and the empty list when none of the first ten rows
    has three; a header row further down is never found. *)
Theorem get_header_row_first_of_ten (ws : worksheet) :
  (_get_header_row float_str ws = [] /\
   forall i row, (i < 10)%nat -> ws !! i = Some row ->
                 (length (List.filter (is_text float_str) row) < 3)%nat) \/
  (exists i row,
      (i < 10)%nat /\ ws !! i = Some row /\
      (3 <= length (List.filter (is_text float_str) row))%nat /\
      _get_header_row float_str ws = map (header_cell float_str) row /\
      forall j row', (j < i)%nat -> ws !! j = Some row' ->
                     (length (List.filter (is_text float_str) row') < 3)%nat).
Proof.
  unfold _get_header_row.
  destruct (find_header_spec (take 10 ws)) as [[Hnil Hall]|(i & r & Hi & Hr & Hf & Hb)].
  - left. split; [exact Hnil|]. intros i row Hi Hrow. apply Hall.
    apply list_elem_of_In, list_elem_of_lookup. exists i.
    rewrite lookup_take_lt by exact Hi. exact Hrow.
  - right. pose proof (lookup_lt_Some _ _ _ Hi) as Hlt.
    rewrite length_take in Hlt.
    rewrite lookup_take_lt in Hi by lia.
    exists i, r. split; [lia|]. split; [exact Hi|]. split; [exact Hr|].
    split; [exact Hf|].
    intros j row' Hj Hrow'. apply (Hb j row' Hj).
    rewrite lookup_take_lt by lia. exact Hrow'.
Qed.

Lemma get_header_row_width ws h hs :
  _get_header_row float_str ws = h :: hs ->
  exists row, In row ws /\ length (h :: hs) = length row.
Proof.
  unfold _get_header_row. intros H.
  destruct (find_header_spec (take 10 ws)) as [[Hnil _]|(i & r & Hi & _ & Hf & _)].
  - congruence.
  - exists r. split.
    + apply list_elem_of_lookup_2 in Hi. apply list_elem_of_In.
      apply (subseteq_take 10 ws). exact Hi.
    + rewrite <- H, Hf, length_map. reflexivity.
Qed.

End HeaderProperties.

(* ===================================================================== *)
(** * Further properties of the ledger merger *)
(* ===================================================================== *)

Section MergerFurther.

Variable str_lower : str -> str.
Variable float_str : spec_float -> str.

Lemma py_index_lt row i :
  (i < length row)%nat -> exists v, py_index row i = Ok v /\ In v row.
Proof.
  intros H. unfold py_index.
  destruct (lookup_lt_is_Some_2 row i H) as [v Hv]. rewrite Hv.
  exists v. split; [reflexivity|].
  apply list_elem_of_In, list_elem_of_lookup. eauto.
Qed.

Lemma normalize_outcome row v (k : Z -> result (option contribution)) :
  In v row ->
  (forall n, exists oc, k n = Ok oc) ->
  row_outcome row (bind (_normalize_number v) k).
Proof.
  intros Hin Hk. destruct (_normalize_number v) as [n|e] eqn:E; simpl.
  - left. apply Hk.
  - right. apply normalize_raises_iff in E as [-> [s ->]]. split; [reflexivity|eauto].
Qed.

Lemma sales_contribution_rect t ret io id it ia row :
  (io < length row)%nat -> (id < length row)%nat -> (ia < length row)%nat ->
  (forall i, it = Some i -> (i < length row)%nat) ->
  row_outcome row (sales_contribution float_str t ret io id it ia row).
Proof.
  intros Hio Hid Hia Hit. unfold sales_contribution.
  destruct (py_index_lt row io Hio) as (o & -> & _).
  destruct (py_index_lt row id Hid) as (d & -> & _).
  destruct (py_index_lt row ia Hia) as (a & Ha & Hin).
  rewrite !bind_Ok.
  assert (Ht : exists title,
             match it with Some i => py_index row i | None => Ok (VStr []) end = Ok title).
  { destruct it as [i|]; [|eauto].
    destruct (py_index_lt row i (Hit i eq_refl)) as (v & -> & _). eauto. }
  destruct Ht as [title ->]. rewrite bind_Ok, Ha, bind_Ok.
  destruct (is_None o || is_None d); [left; eauto|].
  apply normalize_outcome; [exact Hin|]. intros n. eauto.
Qed.

Lemma cost_contribution_rect t kind sign io id ia row :
  (io < length row)%nat -> (id < length row)%nat -> (ia < length row)%nat ->
  row_outcome row (cost_contribution float_str t kind sign io id ia row).
Proof.
  intros Hio Hid Hia. unfold cost_contribution.
  destruct (py_index_lt row io Hio) as (o & -> & _).
  destruct (py_index_lt row id Hid) as (d & -> & _).
  destruct (py_index_lt row ia Hia) as (a & -> & Hin).
  rewrite !bind_Ok.
  destruct (is_None o || is_None d); [left; eauto|].
  apply normalize_outcome; [exact Hin|]. intros n. eauto.
Qed.

Lemma collect_outcome read rows :
  (forall row, In row rows -> row_outcome row (read row)) ->
  (exists cs, collect read rows = Ok cs) \/
  (collect read rows = Raise OverflowError /\
   exists row s, In row rows /\ In (VFloat (S754_infinity s)) row).
Proof.
  induction rows as [|row rows IH]; intros H; simpl; [left; eauto|].
  destruct (H row (or_introl eq_refl)) as [[oc ->]|[-> [s Hs]]]; simpl.
  - destruct IH as [[cs ->]|[-> (r & s & Hr & Hs)]]; simpl.
    + intros r Hr. apply H. right. exact Hr.
    + left. eauto.
    + right. split; [reflexivity|]. exists r, s. split; [right; exact Hr|exact Hs].
  - right. split; [reflexivity|]. exists row, s. split; [left; reflexivity|exact Hs].
Qed.

Lemma call_contributions_outcome wb c :
  (forall n ws, wb_get wb n = Some ws -> rectangular ws) ->
  (exists cs, call_contributions str_lower float_str wb c = Ok cs) \/
  (call_contributions str_lower float_str wb c = Raise OverflowError /\
   has_infinite_cell wb).
Proof.
  intros Hrect.
  destruct c as [n t r|n t k r]; simpl;
    (destruct (wb_get wb n) as [ws|] eqn:Ews; [|left; eauto]);
    (destruct (_get_header_row float_str ws) as [|h hs] eqn:Eh; [left; eauto|]);
    destruct (get_header_row_width float_str ws h hs Eh) as (row0 & Hrow0 & Hw);
    (destruct (_find_col str_lower (h :: hs) KW_ORDER) as [io|] eqn:Eo; [|left; eauto]);
    (destruct (_find_col str_lower (h :: hs) KW_DKPC) as [id|] eqn:Ed; [|left; eauto]);
    (destruct (_find_col str_lower (h :: hs) KW_AMOUNT) as [ia|] eqn:Ea; [|left; eauto]);
    apply find_col_lt in Eo, Ed, Ea;
    assert (Hlen : forall row, In row (drop 1 ws) -> length row = length (h :: hs))
      by (intros row Hin; rewrite Hw; apply (Hrect n ws Ews); [|exact Hrow0];
          apply list_elem_of_In, (subseteq_drop 1 ws), list_elem_of_In, Hin).
  - destruct (collect_outcome
                (sales_contribution float_str t r io id
                   (_find_col str_lower (h :: hs) KW_TITLE) ia) (drop 1 ws))
      as [Hok|[Hr (row & s & Hin & Hs)]].
    + intros row Hin. apply sales_contribution_rect; rewrite ?(Hlen row Hin); try assumption.
      intros i Hi. apply find_col_lt in Hi. exact Hi.
    + left. exact Hok.
    + right. split; [exact Hr|]. exists n, ws, row, s. split; [exact Ews|].
      split; [|exact Hs].
      apply list_elem_of_In, (subseteq_drop 1 ws), list_elem_of_In, Hin.
  - destruct (collect_outcome
                (cost_contribution float_str t k (if r then -1 else 1) io id ia)
                (drop 1 ws))
      as [Hok|[Hr (row & s & Hin & Hs)]].
    + intros row Hin. apply cost_contribution_rect; rewrite ?(Hlen row Hin); assumption.
    + left. exact Hok.
    + right. split; [exact Hr|]. exists n, ws, row, s. split; [exact Ews|].
      split; [|exact Hs].
      apply list_elem_of_In, (subseteq_drop 1 ws), list_elem_of_In, Hin.
Qed.

Lemma contributions_outcome wb calls :
  (forall n ws, wb_get wb n = Some ws -> rectangular ws) ->
  (exists cs, contributions str_lower float_str calls wb = Ok cs) \/
  (contributions str_lower float_str calls wb = Raise OverflowError /\
   has_infinite_cell wb).
Proof.
  intros Hrect. induction calls as [|c calls IH]; simpl; [left; eauto|].
  destruct (call_contributions_outcome wb c Hrect) as [[cs ->]|[-> Hinf]]; simpl.
  - destruct IH as [[more ->]|[-> Hinf]]; simpl; [left; eauto|right; auto].
  - right. auto.
Qed.

(** X7: on a workbook whose sheets are rectangular (every row of a
    sheet has the same width, as openpyxl delivers them), the merge
    either succeeds or raises the [OverflowError] of an infinite float
    in some cell; no row index is ever out of range. *)
Theorem merge_fails_only_on_infinite_cell (wb : workbook) :
  (forall n ws, wb_get wb n = Some ws -> rectangular ws) ->
  (exists st, parse_invoice_excel str_lower float_str wb = Ok st) \/
  (parse_invoice_excel str_lower float_str wb = Raise OverflowError /\
   has_infinite_cell wb).
Proof.
  intros Hrect. unfold parse_invoice_excel, parse_with.
  pose proof (for_each_calls_spec str_lower float_str wb fixed_sequence initial_state)
    as Hs.
  destruct (contributions_outcome wb fixed_sequence Hrect) as [[cs Hcs]|[Hr Hinf]].
  - rewrite Hcs in Hs. destruct Hs as (st & Hst & _). left. eauto.
  - rewrite Hr in Hs. right. split; assumption.
Qed.

End MergerFurther.

Lemma wb_partial_return_rectangular n ws :
  wb_get wb_partial_return n = Some ws -> rectangular ws.
Proof.
  unfold wb_partial_return. cbn [wb_get].
  repeat (destruct (decide _);
          [intros [= <-]; intros r1 r2 [<-|[<-|[]]] [<-|[<-|[]]]; reflexivity|]).
  discriminate.
Qed.

(** The sheets of [wb_partial_return] are rectangular. *)
Lemma merge_fails_only_on_infinite_cell_witness :
  (exists st, parse_invoice_excel ascii_lower no_float_str wb_partial_return = Ok st) \/
  (parse_invoice_excel ascii_lower no_float_str wb_partial_return = Raise OverflowError /\
   has_infinite_cell wb_partial_return).
Proof.
  apply (merge_fails_only_on_infinite_cell ascii_lower no_float_str wb_partial_return).
  exact wb_partial_return_rectangular.
Defined.

Lemma ledger_ok_initial : ledger_ok initial_state.
Proof.
  unfold ledger_ok, initial_state. simpl. split; [constructor|]. split.
  - intros k. rewrite lookup_empty. split; [intros []|intros [x Hx]; discriminate].
  - intros k r. rewrite lookup_empty. discriminate.
Qed.

Lemma key_of_add_field f a r : key_of (add_field f a r) = key_of r.
Proof. destruct f as [|[]]; reflexivity. Qed.

Lemma key_of_created_row c : key_of (created_row c) = c_key c.
Proof. unfold key_of, created_row. simpl. destruct (c_key c) as [[t o] d]. reflexivity. Qed.

Lemma parsed_rows_apply_contribution c st :
  parsed_rows (apply_contribution c st) =
  match rows_map st !! c_key c with
  | Some _ => parsed_rows st
  | None => parsed_rows st ++ [c_key c]
  end.
Proof. unfold apply_contribution. destruct (rows_map st !! c_key c); reflexivity. Qed.

(** A contribution keeps the ledger well formed. *)
Lemma ledger_ok_apply_contribution c st :
  ledger_ok st -> ledger_ok (apply_contribution c st).
Proof.
  intros (Hnd & Hdom & Hkey). unfold ledger_ok.
  rewrite parsed_rows_apply_contribution.
  split; [|split].
  - destruct (rows_map st !! c_key c) as [r|] eqn:E; [exact Hnd|].
    apply NoDup_app. split; [exact Hnd|]. split; [|apply NoDup_singleton].
    intros k Hk Hk'. apply list_elem_of_singleton in Hk'. subst k.
    apply list_elem_of_In, Hdom in Hk. rewrite E in Hk. destruct Hk; discriminate.
  - intros k. rewrite lookup_apply_contribution.
    destruct (decide (c_key c = k)) as [<-|Hne].
    + split; [intros _; eauto|]. intros _.
      destruct (rows_map st !! c_key c) as [r|] eqn:E.
      * apply Hdom. rewrite E. eauto.
      * apply in_or_app. right. left. reflexivity.
    + rewrite <- Hdom.
      destruct (rows_map st !! c_key c); [reflexivity|].
      rewrite in_app_iff. simpl. intuition congruence.
  - intros k r. rewrite lookup_apply_contribution.
    destruct (decide (c_key c = k)) as [<-|Hne]; [|apply Hkey].
    intros [= <-]. rewrite key_of_add_field.
    destruct (rows_map st !! c_key c) as [r|] eqn:E; simpl.
    + apply Hkey. exact E.
    + apply key_of_created_row.
Qed.

Lemma ledger_ok_apply_all cs st : ledger_ok st -> ledger_ok (apply_all cs st).
Proof.
  revert st. induction cs as [|c cs IH]; intros st H; simpl; [exact H|].
  apply IH, ledger_ok_apply_contribution, H.
Qed.

Lemma ledger_ok_same st st' : same_ledger st st' -> ledger_ok st' -> ledger_ok st.
Proof. intros [Hm Hp]. unfold ledger_ok. rewrite Hm, Hp. tauto. Qed.

Lemma parsed_rows_out_keys st :
  ledger_ok st -> map key_of (parsed_rows_out st) = parsed_rows st.
Proof.
  intros (_ & Hdom & Hkey). unfold parsed_rows_out.
  assert (H : forall ks, (forall k, In k ks -> In k (parsed_rows st)) ->
                         map key_of (omap (fun k => rows_map st !! k) ks) = ks).
  { induction ks as [|k ks IH]; intros Hks; [reflexivity|]. simpl.
    destruct (proj1 (Hdom k) (Hks k (or_introl eq_refl))) as [r Hr].
    rewrite Hr. simpl. rewrite (Hkey k r Hr). f_equal.
    apply IH. intros k' Hk'. apply Hks. right. exact Hk'. }
  apply H. auto.
Qed.

Lemma ledger_rows_In st r :
  ledger_ok st ->
  In r (parsed_rows_out st) <-> rows_map st !! key_of r = Some r.
Proof.
  intros (_ & Hdom & Hkey). unfold parsed_rows_out.
  rewrite <- list_elem_of_In, list_elem_of_omap. split.
  - intros (k & _ & Hk). rewrite (Hkey k r Hk). exact Hk.
  - intros Hr. exists (key_of r). split; [|exact Hr].
    apply list_elem_of_In, Hdom. rewrite Hr. eauto.
Qed.

Lemma log_lines_apply_all cs st : log_lines (apply_all cs st) = log_lines st.
Proof.
  revert st. induction cs as [|c cs IH]; intros st; simpl; [reflexivity|].
  rewrite IH. unfold apply_contribution.
  destruct (rows_map st !! c_key c); reflexivity.
Qed.

Lemma for_each_ext {A S : Type} (f g : S -> A -> result S) (l : list A) :
  (forall s x, In x l -> f s x = g s x) ->
  forall s, for_each f l s = for_each g l s.
Proof.
  induction l as [|x l IH]; intros H s; simpl; [reflexivity|].
  rewrite (H s x (or_introl eq_refl)).
  destruct (g s x) as [s'|e]; simpl; [|reflexivity].
  apply IH. intros s0 y Hy. apply H. right. exact Hy.
Qed.

Section LedgerInvariants.

Variable str_lower : str -> str.
Variable float_str : spec_float -> str.

(** The merge leaves a well-formed ledger. *)
Lemma parsed_ledger_ok (wb : workbook) (st : merge_state) :
  parse_invoice_excel str_lower float_str wb = Ok st -> ledger_ok st.
Proof.
  intros Hp.
  destruct (parse_with_spec _ _ _ _ _ Hp) as (cs & _ & Hsame).
  eapply ledger_ok_same; [exact Hsame|].
  apply ledger_ok_apply_all, ledger_ok_initial.
Qed.

(** X8: the merge keeps one ledger line per identity: in the list that
    [parse_invoice_excel] returns no two rows have the same (sale_type,
    order_id, dkpc), and the list holds exactly the rows of the map,
    each under its own identity. *)
Theorem one_line_per_identity (wb : workbook) (st : merge_state) :
  parse_invoice_excel str_lower float_str wb = Ok st ->
  NoDup (map key_of (parsed_rows_out st)) /\
  forall r, In r (parsed_rows_out st) <-> rows_map st !! key_of r = Some r.
Proof.
  intros Hp.
  destruct (parse_with_spec _ _ _ _ _ Hp) as (cs & _ & Hsame).
  assert (Hok : ledger_ok st).
  { eapply ledger_ok_same; [exact Hsame|].
    apply ledger_ok_apply_all, ledger_ok_initial. }
  split.
  - rewrite parsed_rows_out_keys by exact Hok. apply Hok.
  - destruct Hok as (_ & Hdom & Hkey). intros r. unfold parsed_rows_out.
    rewrite <- list_elem_of_In, list_elem_of_omap. split.
    + intros (k & _ & Hk). rewrite (Hkey k r Hk). exact Hk.
    + intros Hr. exists (key_of r). split; [|exact Hr].
      apply list_elem_of_In, Hdom. rewrite Hr. eauto.
Qed.

(** The log grows by one line per sheet call. *)
Lemma for_each_calls_log wb calls : forall st st',
  for_each (run_call str_lower float_str wb) calls st = Ok st' ->
  length (log_lines st') = (length (log_lines st) + length calls)%nat.
Proof.
  induction calls as [|c calls IH]; intros st st'; simpl.
  - intros [= <-]. lia.
  - pose proof (run_call_spec str_lower float_str wb st c) as Hc.
    destruct (call_contributions str_lower float_str wb c) as [cs|e].
    + destruct Hc as [l ->]. simpl. intros H. apply IH in H. rewrite H.
      unfold log_append. simpl. rewrite length_app, log_lines_apply_all. simpl. lia.
    + rewrite Hc. discriminate.
Qed.

(** X9: a successful merge writes exactly one log line for each of the
    nineteen sheets of the fixed sequence, found or not. *)
Theorem one_log_line_per_sheet (wb : workbook) (st : merge_state) :
  parse_invoice_excel str_lower float_str wb = Ok st ->
  length (log_lines st) = 19%nat.
Proof.
  intros H. apply for_each_calls_log in H. rewrite H. reflexivity.
Qed.

(** X10: sheets outside the vocabulary are ignored: two workbooks that
    have the same sheet under each of the nineteen names of the fixed
    sequence give the same result, rows and log. *)
Theorem unknown_sheets_are_ignored (wb wb' : workbook) :
  (forall c, In c fixed_sequence -> wb_get wb (call_sheet c) = wb_get wb' (call_sheet c)) ->
  parse_invoice_excel str_lower float_str wb = parse_invoice_excel str_lower float_str wb'.
Proof.
  intros H. unfold parse_invoice_excel, parse_with. apply for_each_ext.
  intros st c Hc. specialize (H c Hc).
  destruct c as [n t r|n t k r]; simpl in *;
    unfold _read_sales_sheet, _apply_cost_sheet; rewrite H; reflexivity.
Qed.

(** X11: the [is_return] flag of a ledger line is the one it got when it
    was created: it is set exactly when the first contribution that
    carries the identity of the line comes from a return sheet. *)
Theorem is_return_is_first_contribution
    (wb : workbook) (st : merge_state) (k : key) (r : ParsedRow.t) :
  parse_invoice_excel str_lower float_str wb = Ok st ->
  rows_map st !! k = Some r ->
  exists cs c,
    contributions str_lower float_str fixed_sequence wb = Ok cs /\
    first_contribution k cs = Some c /\
    ParsedRow.is_return r = c_return c.
Proof.
  intros Hp Hk.
  destruct (parse_with_spec _ _ _ _ _ Hp) as (cs & Hcs & Hm & _).
  pose proof (identity_after_apply_all k cs initial_state) as Hid.
  rewrite <- Hm, Hk in Hid. simpl in Hid. rewrite lookup_empty in Hid.
  destruct (first_contribution k cs) as [c|] eqn:Hc; [|discriminate].
  exists cs, c. split; [exact Hcs|]. split; [exact Hc|].
  simpl in Hid. congruence.
Qed.

End LedgerInvariants.

(** On [wb_cost_only] the two lines have different identities. *)
Lemma one_line_per_identity_witness :
  let st := parsed_state fixed_sequence wb_cost_only in
  NoDup (map key_of (parsed_rows_out st)) /\
  forall r, In r (parsed_rows_out st) <-> rows_map st !! key_of r = Some r.
Proof.
  apply (one_line_per_identity ascii_lower no_float_str wb_cost_only).
  vm_compute. reflexivity.
Defined.

(** The log of the merge of [wb_cost_only]. *)
Lemma one_log_line_per_sheet_witness :
  length (log_lines (parsed_state fixed_sequence wb_cost_only)) = 19%nat.
Proof.
  apply (one_log_line_per_sheet ascii_lower no_float_str wb_cost_only).
  vm_compute. reflexivity.
Defined.

(** [wb_partial_return] with a sheet of another name put in front. *)
Lemma unknown_sheets_witness :
  parse_invoice_excel ascii_lower no_float_str wb_partial_return =
  parse_invoice_excel ascii_lower no_float_str
    ((u "Sheet1", [[VStr (u "x"); VInt 1]]) :: wb_partial_return).
Proof.
  apply (unknown_sheets_are_ignored ascii_lower no_float_str).
  intros c Hc.
  repeat (destruct Hc as [<-|Hc]; [vm_compute; reflexivity|]).
  destruct Hc.
Defined.

(** On [wb_partial_return] the line was created by the sale row. *)
Lemma is_return_first_contribution_witness :
  exists cs c,
    contributions ascii_lower no_float_str fixed_sequence wb_partial_return = Ok cs /\
    first_contribution line_1001_55 cs = Some c /\
    ParsedRow.is_return (ParsedRow.mk cash (u "1001") (u "55") (u "A") 70 false 0 0 0 0)
    = c_return c.
Proof.
  apply (is_return_is_first_contribution ascii_lower no_float_str wb_partial_return
           (parsed_state fixed_sequence wb_partial_return) line_1001_55).
  - vm_compute. reflexivity.
  - vm_compute. reflexivity.
Defined.

(* ===================================================================== *)
(** * Further properties of finalization and persistence *)
(* ===================================================================== *)

Lemma stored_row_well_formed pr : row_well_formed (stored_row pr).
Proof.
  unfold row_well_formed, stored_row.
  destruct (ParsedRow.is_return pr) eqn:R; simpl.
  - repeat split; try lia; discriminate.
  - destruct (ParsedRow.sale_amount pr <=? 0) eqn:E; simpl.
    + repeat split; try lia; discriminate.
    + apply Z.leb_gt in E.
      repeat split; try lia; try discriminate.
      apply Z.div_pos; lia.
Qed.

Section PersistenceFurther.

Variable faults : nat -> option exn.
Variable str_lower : str -> str.
Variable float_str : spec_float -> str.

(** X13: after a successful run every stored row of the invoice is well
    formed: no stored amount is negative, a row stored as a sale has a
    positive sale amount, and a row stored as a return has every amount
    0. *)
Theorem stored_rows_well_formed
    (wb : workbook) (w w' : world) (n : Z) (log : list log_line) :
  process_invoice_file faults str_lower float_str (Ok wb) w
  = (Ok (n, LogText log), w') ->
  Forall row_well_formed (db_rows w').
Proof.
  intros H. apply process_ok_inv in H as (w0 & _ & E).
  apply try_block_ok in E as (st & _ & _ & _ & -> & _).
  apply Forall_map, Forall_forall. intros pr _. apply stored_row_well_formed.
Qed.

Hypothesis no_faults : forall q, faults q = None.

Lemma query_no_fault effect w : query faults effect w = (Ok tt, tick (effect w)).
Proof. unfold query. rewrite no_faults. reflexivity. Qed.

Lemma create_rows_no_fault prs : forall n w,
  exists w', create_rows faults prs n w = (Ok (n + Z.of_nat (length prs)), w').
Proof.
  induction prs as [|pr prs IH]; intros n w; simpl.
  - exists w. rewrite Z.add_0_r. reflexivity.
  - unfold create_row. rewrite query_no_fault.
    destruct (IH (n + 1) (tick
      (mk_world (invoice w) (db_invoice w) (db_rows w ++ [stored_row pr])
         (db_tiers w) (queries w)))) as [w' Hw'].
    exists w'. rewrite Hw'. do 2 f_equal. lia.
Qed.

Lemma replace_rows_no_fault prs w :
  exists w', replace_rows faults prs w = (Ok tt, w').
Proof.
  unfold replace_rows, delete_rows. rewrite query_no_fault.
  destruct (create_rows_no_fault prs 0 (tick
    (mk_world (invoice w) (db_invoice w) [] (db_tiers w) (queries w)))) as [w2 ->].
  unfold price_invoice, save_result.
  destruct (0 + Z.of_nat (length prs) <=? 0); rewrite ?query_no_fault; eauto.
Qed.

Lemma replace_rows_error_message prs w w' :
  replace_rows faults prs w = (Ok tt, w') ->
  InvoiceFile.error_message (db_invoice w') = InvoiceFile.error_message (db_invoice w).
Proof.
  unfold replace_rows, delete_rows. rewrite query_no_fault.
  destruct (create_rows faults prs 0 _) as [[m|e] w2] eqn:E2; [|discriminate].
  apply create_rows_ok in E2 as (_ & H2 & _).
  unfold price_invoice, save_result.
  destruct (m <=? 0); rewrite ?query_no_fault; intros [= <-]; simpl; rewrite H2;
    reflexivity.
Qed.

(** Without faults a status write succeeds. *)
Lemma mark_no_fault s msg w :
  exists w0,
    mark faults s msg w = (Ok tt, w0) /\
    db_rows w0 = db_rows w /\ db_tiers w0 = db_tiers w /\
    db_invoice w0 =
      InvoiceFile.mk s msg (InvoiceFile.row_count (db_invoice w))
        (InvoiceFile.processing_price (db_invoice w)).
Proof.
  unfold mark, save_status. rewrite query_no_fault.
  eexists. split; [reflexivity|]. repeat split.
Qed.

(** Without faults the [try] block succeeds when the merge does. *)
Lemma try_block_no_fault wb st w :
  parse_invoice_excel str_lower float_str wb = Ok st ->
  exists w',
    try_block faults str_lower float_str (Ok wb) w
    = (Ok (Z.of_nat (length (parsed_rows_out st)), log_lines st), w') /\
    db_rows w' = map stored_row (parsed_rows_out st) /\
    db_tiers w' = db_tiers w /\
    db_invoice w' =
      InvoiceFile.mk STATUS_DONE (InvoiceFile.error_message (db_invoice w))
        (Z.of_nat (length (parsed_rows_out st)))
        (calculate_price_for_row_count (db_tiers w)
           (Z.of_nat (length (parsed_rows_out st)))).
Proof.
  intros Hp.
  destruct (replace_rows_no_fault (parsed_rows_out st) w) as [w1 Hw1].
  pose proof (replace_rows_error_message _ _ _ Hw1) as Hmsg.
  pose proof (replace_rows_ok faults _ _ _ Hw1) as (H1 & H2 & H3 & H4 & H5 & H6 & _).
  unfold try_block, atomic. rewrite Hp, Hw1, no_faults.
  exists (tick w1). simpl. rewrite H5. split; [reflexivity|].
  split; [exact H1|]. split; [exact H2|].
  destruct (db_invoice w1) as [s m rc pp]. simpl in *. congruence.
Qed.

(** X14: when no query fails and the merge succeeds, the run ends with
    the invoice done: the stored rows are the stored forms of the merged
    lines in first-seen order, the record of the invoice carries no
    error text, their count as [row_count] and the price of that count
    in the tier table as [processing_price], and the function returns
    the count and the log. *)
Theorem run_without_faults_is_done (wb : workbook) (st : merge_state) (w : world) :
  parse_invoice_excel str_lower float_str wb = Ok st ->
  let n := Z.of_nat (length (parsed_rows_out st)) in
  exists w',
    process_invoice_file faults str_lower float_str (Ok wb) w
    = (Ok (n, LogText (log_lines st)), w') /\
    db_rows w' = map stored_row (parsed_rows_out st) /\
    db_invoice w' =
      InvoiceFile.mk STATUS_DONE [] n (calculate_price_for_row_count (db_tiers w) n).
Proof.
  intros Hp n. unfold process_invoice_file.
  destruct (mark_no_fault STATUS_PROCESSING [] w) as (w0 & -> & _ & Htiers & Hi0).
  destruct (try_block_no_fault wb st w0 Hp) as (w' & Ht & Hr & _ & Hi).
  rewrite Ht. exists w'. split; [reflexivity|]. split; [exact Hr|].
  rewrite Hi, Hi0, Htiers. reflexivity.
Qed.

(** X15: a run replaces whatever was stored: without faults, running
    [process_invoice_file] a second time on the same file gives the same
    return value, the same stored rows and the same invoice record as
    the first run. *)
Theorem rerun_is_idempotent (file : result workbook) (w : world) :
  let r1 := process_invoice_file faults str_lower float_str file w in
  let r2 := process_invoice_file faults str_lower float_str file (snd r1) in
  fst r2 = fst r1 /\
  db_rows (snd r2) = db_rows (snd r1) /\
  db_invoice (snd r2) = db_invoice (snd r1).
Proof.
  intros r1 r2. subst r1 r2.
  assert (Hfail : forall e w,
    try_block faults str_lower float_str file w = (Raise e, w) ->
    exists w',
      process_invoice_file faults str_lower float_str file w
      = (Ok (0, ErrorText e), w') /\
      db_rows w' = db_rows w /\
      db_invoice w' =
        InvoiceFile.mk STATUS_ERROR (exn_str e)
          (InvoiceFile.row_count (db_invoice w))
          (InvoiceFile.processing_price (db_invoice w))).
  { intros e w0 Ht. unfold process_invoice_file.
    destruct (mark_no_fault STATUS_PROCESSING [] w0) as (w1 & -> & Hr1 & _ & Hi1).
    assert (Ht1 : try_block faults str_lower float_str file w1 = (Raise e, w1)).
    { revert Ht. unfold try_block. destruct file as [wb|e0]; [|congruence].
      destruct (parse_invoice_excel str_lower float_str wb) as [st0|e0];
        [|congruence].
      destruct (atomic faults _ w0) as [[x|e1] w2] eqn:Ea; [discriminate|].
      intros [= -> ->]. exfalso.
      revert Ea. unfold atomic.
      destruct (replace_rows_no_fault (parsed_rows_out st0) w0) as [w3 ->].
      rewrite no_faults. discriminate. }
    rewrite Ht1.
    destruct (mark_no_fault STATUS_ERROR (exn_str e) w1) as (w2 & -> & Hr2 & _ & Hi2).
    exists w2. split; [reflexivity|]. split; [congruence|].
    rewrite Hi2, Hi1. reflexivity. }
  destruct file as [wb|e].
  - destruct (parse_invoice_excel str_lower float_str wb) as [st|e] eqn:Hp.
    + unfold process_invoice_file.
      destruct (mark_no_fault STATUS_PROCESSING [] w) as (w0 & -> & _ & Htiers0 & Hi0).
      destruct (try_block_no_fault wb st w0 Hp) as (w1 & Ht1 & Hr1 & Htiers1 & Hi1).
      rewrite Ht1. cbn [snd fst].
      destruct (mark_no_fault STATUS_PROCESSING [] w1)
        as (w2 & -> & _ & Htiers2 & Hi2).
      destruct (try_block_no_fault wb st w2 Hp) as (w3 & Ht3 & Hr3 & _ & Hi3).
      rewrite Ht3. cbn [snd fst].
      split; [reflexivity|]. split; [congruence|].
      rewrite Hi3, Hi2, Hi1, Hi0, Htiers2, Htiers1. reflexivity.
    + destruct (Hfail e w (merge_exception_raises faults str_lower float_str wb e w Hp))
        as (w1 & -> & Hr1 & Hi1). cbn [snd fst].
      destruct (Hfail e w1 (merge_exception_raises faults str_lower float_str wb e w1 Hp))
        as (w2 & -> & Hr2 & Hi2). cbn [snd fst].
      split; [reflexivity|]. split; [congruence|].
      rewrite Hi2, Hi1. reflexivity.
  - destruct (Hfail e w eq_refl) as (w1 & -> & Hr1 & Hi1). cbn [snd fst].
    destruct (Hfail e w1 eq_refl) as (w2 & -> & Hr2 & Hi2). cbn [snd fst].
    split; [reflexivity|]. split; [congruence|].
    rewrite Hi2, Hi1. reflexivity.
Qed.

End PersistenceFurther.

(** The run on [wb_full_return] stores one well-formed row. *)
Lemma stored_rows_well_formed_witness :
  Forall row_well_formed
    (db_rows (snd (process_invoice_file no_fault ascii_lower no_float_str
                     (Ok wb_full_return) processed_world))).
Proof.
  apply (stored_rows_well_formed no_fault ascii_lower no_float_str wb_full_return
           processed_world _ 1 (log_lines (parsed_state fixed_sequence wb_full_return))).
  vm_compute. reflexivity.
Defined.

(** The run on [wb_partial_return] without faults. *)
Lemma run_without_faults_witness :
  let st := parsed_state fixed_sequence wb_partial_return in
  exists w',
    process_invoice_file no_fault ascii_lower no_float_str (Ok wb_partial_return)
      processed_world = (Ok (1, LogText (log_lines st)), w') /\
    db_rows w' = map stored_row (parsed_rows_out st) /\
    db_invoice w' = InvoiceFile.mk STATUS_DONE [] 1 490000.
Proof.
  apply (run_without_faults_is_done no_fault ascii_lower no_float_str
           (fun q => eq_refl) wb_partial_return
           (parsed_state fixed_sequence wb_partial_return) processed_world).
  vm_compute. reflexivity.
Defined.

(** Two runs on [wb_partial_return] without faults. *)
Lemma rerun_is_idempotent_witness :
  let r1 := process_invoice_file no_fault ascii_lower no_float_str
              (Ok wb_partial_return) processed_world in
  let r2 := process_invoice_file no_fault ascii_lower no_float_str
              (Ok wb_partial_return) (snd r1) in
  fst r2 = fst r1 /\ db_rows (snd r2) = db_rows (snd r1) /\
  db_invoice (snd r2) = db_invoice (snd r1).
Proof.
  apply (rerun_is_idempotent no_fault ascii_lower no_float_str (fun q => eq_refl)).
Defined.

(* ===================================================================== *)
(** * Further properties of the pricing tiers and of the prices *)
(* ===================================================================== *)

Lemma head_filter_find {A : Type} (p : A -> bool) (l : list A) :
  head (List.filter p l) = List.find p l.
Proof.
  induction l as [|x l IH]; simpl; [reflexivity|].
  destruct (p x); [reflexivity|exact IH].
Qed.

(** X16: the two tier lookups of the repository agree:
    [InvoiceFile.calculate_price_from_tiers] (a filtered query and its
    first row) and [calculate_price_for_row_count] (a scan of the
    ordered table) give the same price for every table and row count,
    the two queries listing tiers of equal [min_rows] in the same order. *)
Theorem price_from_tiers_agrees (table : list PricingTier.t) (row_count : Z) :
  calculate_price_from_tiers table row_count
  = calculate_price_for_row_count table row_count.
Proof.
  unfold calculate_price_from_tiers, calculate_price_for_row_count.
  destruct (row_count <=? 0); [reflexivity|].
  rewrite head_filter_find.
  assert (E : forall l, List.find
                (fun tier =>
                   (PricingTier.min_rows tier <=? row_count) &&
                   match PricingTier.max_rows tier with
                   | Some max_rows => row_count <=? max_rows
                   | None => true
                   end) l
              = List.find (tier_matches row_count) l).
  { induction l as [|t l IH]; simpl; [reflexivity|].
    rewrite IH. unfold tier_matches.
    destruct (PricingTier.max_rows t); rewrite ?andb_true_r; reflexivity. }
  rewrite E. reflexivity.
Qed.

(** X17: when several tiers match a row count (overlapping ranges), the
    price is the fee of a matching tier with the least [min_rows]. *)
Theorem lowest_min_rows_wins (table : list PricingTier.t) (n : Z) (t' : PricingTier.t) :
  0 < n -> In t' table -> tier_matches n t' = true ->
  exists t,
    In t table /\ tier_matches n t = true /\
    calculate_price_for_row_count table n = PricingTier.price_per_invoice t /\
    forall t'', In t'' table -> tier_matches n t'' = true ->
                PricingTier.min_rows t <= PricingTier.min_rows t''.
Proof.
  intros Hn Hin Hm. unfold calculate_price_for_row_count.
  replace (n <=? 0) with false by (symmetry; apply Z.leb_gt; exact Hn).
  destruct (List.find (tier_matches n) (order_by_min_rows table)) as [t|] eqn:E.
  - pose proof (find_some _ _ E) as [Ht Hmt].
    exists t. split; [apply (proj1 (order_by_min_rows_In _ _)), Ht|].
    split; [exact Hmt|].
    split; [reflexivity|]. intros t'' Hin'' Hm''.
    apply (first_match_least _ n t t'' (order_by_min_rows_sorted table) E);
      [apply (proj2 (order_by_min_rows_In _ _)), Hin''|exact Hm''].
  - apply (proj2 (order_by_min_rows_In _ _)) in Hin.
    rewrite (find_none _ _ E _ Hin) in Hm. discriminate.
Qed.

Lemma non_overlapping_unique table n t1 t2 :
  non_overlapping table -> In t1 table -> In t2 table ->
  tier_matches n t1 = true -> tier_matches n t2 = true -> t1 = t2.
Proof.
  intros Hno H1 H2 M1 M2.
  apply list_elem_of_In, list_elem_of_lookup in H1 as [i Hi].
  apply list_elem_of_In, list_elem_of_lookup in H2 as [j Hj].
  destruct (decide (i = j)) as [->|Hne]; [congruence|].
  exfalso. exact (Hno i j t1 t2 n Hi Hj Hne M1 M2).
Qed.

(** X18: for a table with non-overlapping ranges the price does not
    depend on the order of the rows of the table: every permutation of
    the table gives the same price for every row count. *)
Theorem price_independent_of_table_order
    (table table' : list PricingTier.t) (n : Z) :
  non_overlapping table -> Permutation table table' ->
  calculate_price_for_row_count table n = calculate_price_for_row_count table' n.
Proof.
  intros Hno HP. unfold calculate_price_for_row_count.
  destruct (n <=? 0); [reflexivity|].
  destruct (List.find (tier_matches n) (order_by_min_rows table)) as [t|] eqn:E;
    destruct (List.find (tier_matches n) (order_by_min_rows table')) as [t2|] eqn:E2;
    try reflexivity.
  - apply find_some in E as [Ht Hm]. apply find_some in E2 as [Ht2 Hm2].
    apply (proj1 (order_by_min_rows_In _ _)) in Ht.
    apply (proj1 (order_by_min_rows_In _ _)) in Ht2.
    apply (Permutation_in _ (Permutation_sym HP)) in Ht2.
    rewrite (non_overlapping_unique table n t t2 Hno Ht Ht2 Hm Hm2). reflexivity.
  - apply find_some in E as [Ht Hm].
    apply (proj1 (order_by_min_rows_In _ _)) in Ht.
    apply (Permutation_in _ HP) in Ht.
    apply (proj2 (order_by_min_rows_In _ _)) in Ht.
    rewrite (find_none _ _ E2 _ Ht) in Hm. discriminate.
  - apply find_some in E2 as [Ht Hm].
    apply (proj1 (order_by_min_rows_In _ _)) in Ht.
    apply (Permutation_in _ (Permutation_sym HP)) in Ht.
    apply (proj2 (order_by_min_rows_In _ _)) in Ht.
    rewrite (find_none _ _ E _ Ht) in Hm. discriminate.
Qed.

(** Two overlapping tiers: the one that starts at 1 is charged at 600. *)
Lemma lowest_min_rows_wins_witness :
  let table := [ PricingTier.mk 500 None 890000; PricingTier.mk 1 (Some 1000) 490000 ] in
  exists t,
    In t table /\ tier_matches 600 t = true /\
    calculate_price_for_row_count table 600 = PricingTier.price_per_invoice t /\
    forall t'', In t'' table -> tier_matches 600 t'' = true ->
                PricingTier.min_rows t <= PricingTier.min_rows t''.
Proof.
  intros table.
  apply (lowest_min_rows_wins table 600 (PricingTier.mk 500 None 890000)).
  - lia.
  - left. reflexivity.
  - reflexivity.
Defined.

Lemma scenario_tiers_non_overlapping : non_overlapping scenario_tiers.
Proof.
  intros i j t1 t2 n Hi Hj Hij H1 H2.
  apply tier_matches_spec in H1, H2. unfold scenario_tiers in *.
  destruct i as [|[|[|i]]], j as [|[|[|j]]]; simpl in Hi, Hj; try discriminate;
    try congruence; injection Hi as <-; injection Hj as <-; simpl in *; lia.
Qed.

(** The tiers of the scenario in reverse order. *)
Lemma price_independent_of_table_order_witness :
  calculate_price_for_row_count scenario_tiers 750
  = calculate_price_for_row_count (rev scenario_tiers) 750.
Proof.
  apply (price_independent_of_table_order scenario_tiers (rev scenario_tiers) 750).
  - exact scenario_tiers_non_overlapping.
  - apply Permutation_rev.
Defined.



Lemma with_price_twice v r : with_price v (with_price v r) = with_price v r.
Proof. reflexivity. Qed.








(* ===================================================================== *)
(** * Properties of the wallet *)
(* ===================================================================== *)

Lemma ledger_total_app l t :
  ledger_total (l ++ [t]) =
  ledger_total l + match txn_type t with
                   | TYPE_CREDIT => txn_amount t
                   | TYPE_DEBIT => - txn_amount t
                   end.
Proof.
  induction l as [|x l IH]; simpl.
  - destruct (txn_type t); lia.
  - rewrite IH. destruct (txn_type x), (txn_type t); lia.
Qed.

Lemma debits_for_app i l t :
  debits_for i (l ++ [t]) = debits_for i l ++ debits_for i [t].
Proof. unfold debits_for. apply List.filter_app. Qed.

(** What [invoice_pay] does to the account: nothing, or the payment of an
    unpaid invoice with a positive price that the balance covers. *)
Lemma invoice_pay_cases post i a :
  snd (invoice_pay post i a) = a \/
  exists inv,
    bills a !! i = Some inv /\ bill_paid inv = false /\
    0 < bill_price inv <= balance a /\
    snd (invoice_pay post i a) =
    mk_account (balance a - bill_price inv)
      (transactions a ++ [mk_txn TYPE_DEBIT (bill_price inv) (Some i)])
      (<[i := mk_bill (bill_price inv) true]> (bills a)).
Proof.
  unfold invoice_pay. destruct (bills a !! i) as [inv|] eqn:E; [|left; reflexivity].
  destruct (bill_paid inv) eqn:P; [left; reflexivity|].
  destruct post; [|left; reflexivity].
  destruct (bill_price inv <=? 0) eqn:E0; [left; reflexivity|].
  destruct (balance a <? bill_price inv) eqn:E1; [left; reflexivity|].
  right. exists inv. apply Z.leb_gt in E0. apply Z.ltb_ge in E1.
  repeat split; try assumption; lia.
Qed.

Section WalletTheory.

Variable redirect : str -> option exn.

(** What [wallet_topup_view] does to the account: nothing, or the credit
    of a positive amount. *)
Lemma topup_cases post next_url a :
  snd (wallet_topup_view redirect post next_url a) = a \/
  exists amount,
    0 < amount /\
    snd (wallet_topup_view redirect post next_url a) =
    mk_account (balance a + amount)
      (transactions a ++ [mk_txn TYPE_CREDIT amount None]) (bills a).
Proof.
  unfold wallet_topup_view. destruct post as [raw|]; [|left; reflexivity].
  destruct (normalize_number (VStr raw)) as [amount|e]; [|left; reflexivity].
  destruct (amount <=? 0) eqn:E; [left; reflexivity|].
  destruct (in_bigint (balance a + amount)); [|left; reflexivity].
  destruct (in_bigint amount); [|left; reflexivity].
  right. exists amount. apply Z.leb_gt in E. split; [exact E|].
  cbn [negb]. destruct next_url as [[|c rest]|]; try reflexivity.
  destruct (redirect (c :: rest)); reflexivity.
Qed.

Lemma handle_ledger a r :
  balance (handle redirect a r) - ledger_total (transactions (handle redirect a r))
  = balance a - ledger_total (transactions a) /\
  (0 <= balance a -> 0 <= balance (handle redirect a r)).
Proof.
  destruct r as [post i|post next_url].
  - simpl. destruct (invoice_pay_cases post i a) as [->|(inv & _ & _ & Hp & ->)];
      [split; [reflexivity|tauto]|].
    simpl. rewrite ledger_total_app. simpl. split; lia.
  - cbn [handle].
    destruct (topup_cases post next_url a) as [->|(amount & Hpos & ->)];
      [split; [reflexivity|tauto]|].
    simpl. rewrite ledger_total_app. simpl. split; lia.
Qed.

(** X20: the balance of the wallet moves with its transactions: over any
    sequence of payment and top-up requests the balance changes by the
    credits minus the debits that the requests record, and a balance
    that is not negative never becomes negative. *)
Theorem wallet_balance_follows_ledger (reqs : list request) (a : account) :
  let a' := fold_left (handle redirect) reqs a in
  balance a' - ledger_total (transactions a')
  = balance a - ledger_total (transactions a) /\
  (0 <= balance a -> 0 <= balance a').
Proof.
  revert a. induction reqs as [|r reqs IH]; intros a; simpl.
  - split; [reflexivity|tauto].
  - destruct (IH (handle redirect a r)) as [H1 H2].
    destruct (handle_ledger a r) as [H3 H4].
    split; [lia|]. intros H. apply H2, H4, H.
Qed.

Lemma handle_charged_once a r :
  charged_once a ->
  charged_once (handle redirect a r) /\
  forall i inv, bills a !! i = Some inv -> bill_paid inv = true ->
                bills (handle redirect a r) !! i = Some inv.
Proof.
  intros Hc. destruct r as [post i0|post next_url].
  - simpl. destruct (invoice_pay_cases post i0 a)
      as [->|(inv0 & Hb & Hu & Hp & ->)]; [split; [exact Hc|auto]|].
    split.
    + intros i. simpl. rewrite debits_for_app, length_app.
      destruct (Hc i) as [Hle Hpaid]. simpl.
      destruct (Nat.eqb_spec i0 i) as [<-|Hne]; simpl.
      * assert (Hz : length (debits_for i0 (transactions a)) = 0%nat).
        { destruct (length (debits_for i0 (transactions a))) as [|[|n]] eqn:El;
            [reflexivity| |lia].
          destruct (Hpaid eq_refl) as (inv & Hinv & Htrue). congruence. }
        rewrite Hz. split; [lia|]. intros _.
        rewrite lookup_insert_eq. eauto.
      * rewrite Nat.add_0_r. split; [exact Hle|].
        intros H1. rewrite lookup_insert_ne by exact Hne. apply Hpaid, H1.
    + intros i inv Hi Ht. simpl.
      destruct (decide (i0 = i)) as [<-|Hne]; [congruence|].
      rewrite lookup_insert_ne by exact Hne. exact Hi.
  - cbn [handle].
    destruct (topup_cases post next_url a) as [->|(amount & Hpos & ->)];
      [split; [exact Hc|auto]|].
    split; [|auto].
    intros i. simpl. rewrite debits_for_app, length_app. simpl.
    rewrite Nat.add_0_r. apply Hc.
Qed.

(** X21: an invoice is charged at most once: if every invoice has at
    most one debit, and only when it is paid, then this still holds
    after any sequence of payment and top-up requests, and an invoice
    that is paid stays paid at its price. *)
Theorem invoice_charged_at_most_once (reqs : list request) (a : account) :
  charged_once a ->
  charged_once (fold_left (handle redirect) reqs a) /\
  forall i inv, bills a !! i = Some inv -> bill_paid inv = true ->
                bills (fold_left (handle redirect) reqs a) !! i = Some inv.
Proof.
  revert a. induction reqs as [|r reqs IH]; intros a Hc; simpl.
  - split; [exact Hc|auto].
  - destruct (handle_charged_once a r Hc) as [Hc' Hp'].
    destruct (IH _ Hc') as [Hc'' Hp''].
    split; [exact Hc''|]. intros i inv Hi Ht. apply Hp''; [apply Hp'|]; assumption.
Qed.

(** X22: [wallet_topup_view] never lowers the balance, and what it
    writes is nothing or the credit of the positive amount it read. It
    raises in two cases only. Either the amount or the new balance is
    beyond the range of the column: the exception comes inside the
    transaction and nothing is written. Or [redirect(next_url)] raises:
    the exception comes after the commit and the credit stays. *)
Theorem topup_raises_only_out_of_range_or_at_redirect
    (post next_url : option str) (a : account) :
  let '(r, a') := wallet_topup_view redirect post next_url a in
  balance a <= balance a' /\
  (a' = a \/
   exists raw amount,
     post = Some raw /\ normalize_number (VStr raw) = Ok amount /\ 0 < amount /\
     a' = mk_account (balance a + amount)
            (transactions a ++ [mk_txn TYPE_CREDIT amount None]) (bills a)) /\
  forall e, r = Raise e ->
    (a' = a /\
     exists raw amount,
       post = Some raw /\ normalize_number (VStr raw) = Ok amount /\ 0 < amount /\
       (in_bigint (balance a + amount) = false \/ in_bigint amount = false)) \/
    (balance a < balance a' /\
     exists to, next_url = Some to /\ redirect to = Some e).
Proof.
  unfold wallet_topup_view. destruct post as [raw|].
  2: { split; [lia|]. split; [left; reflexivity|]. discriminate. }
  destruct (normalize_number (VStr raw)) as [amount|e0] eqn:En.
  2: { exfalso. revert En. unfold normalize_number. simpl.
       destruct (normalize_text_total raw) as [n ->]. discriminate. }
  destruct (amount <=? 0) eqn:E.
  { split; [lia|]. split; [left; reflexivity|]. discriminate. }
  apply Z.leb_gt in E.
  destruct (in_bigint (balance a + amount)) eqn:Eb; cbn [negb].
  2: { split; [lia|]. split; [left; reflexivity|].
       intros e _. left. split; [reflexivity|]. exists raw, amount. auto. }
  destruct (in_bigint amount) eqn:Em; cbn [negb].
  2: { split; [lia|]. split; [left; reflexivity|].
       intros e _. left. split; [reflexivity|]. exists raw, amount. auto. }
  assert (Hcredit : forall r : result topup_response,
    (forall e, r = Raise e ->
               exists to, next_url = Some to /\ redirect to = Some e) ->
    let a' := mk_account (balance a + amount)
                (transactions a ++ [mk_txn TYPE_CREDIT amount None]) (bills a) in
    balance a <= balance a' /\
    (a' = a \/
     exists raw0 amount0,
       Some raw = Some raw0 /\ normalize_number (VStr raw0) = Ok amount0 /\
       0 < amount0 /\
       a' = mk_account (balance a + amount0)
              (transactions a ++ [mk_txn TYPE_CREDIT amount0 None]) (bills a)) /\
    forall e, r = Raise e ->
      (a' = a /\
       exists raw0 amount0,
         Some raw = Some raw0 /\ normalize_number (VStr raw0) = Ok amount0 /\
       0 < amount0 /\
         (in_bigint (balance a + amount0) = false \/ in_bigint amount0 = false)) \/
      (balance a < balance a' /\
       exists to, next_url = Some to /\ redirect to = Some e)).
  { intros r Hr a'. subst a'. simpl. split; [lia|]. split.
    - right. exists raw, amount. auto.
    - intros e He. right. split; [lia|]. apply Hr, He. }
  destruct next_url as [[|c rest]|].
  - apply Hcredit. discriminate.
  - destruct (redirect (c :: rest)) as [e1|] eqn:Er.
    + apply Hcredit. intros e [= <-]. exists (c :: rest). auto.
    + apply Hcredit. discriminate.
  - apply Hcredit. discriminate.
Qed.

End WalletTheory.

(** Two payment attempts for the invoice of [example_account]: one debit,
    balance 0. *)
Example two_payment_attempts :
  let a' := fold_left (handle example_redirect)
              [PayRequest true 7; PayRequest true 7] example_account in
  balance a' = 0 /\
  transactions a' = [mk_txn TYPE_DEBIT 1000000 (Some 7%nat)] /\
  fst (invoice_pay true 7 example_account) = PayDone /\
  fst (invoice_pay true 7 (snd (invoice_pay true 7 example_account))) = PayAlreadyPaid.
Proof. vm_compute. repeat split. Qed.

(** A top-up of thirty digits raises and leaves the account; a top-up of
    "500" with the parameter [next=abc] raises after the credit. *)
Example topups_that_raise :
  wallet_topup_view example_redirect
    (Some (u "100000000000000000000000000000")) None example_account
  = (Raise out_of_range, example_account) /\
  wallet_topup_view example_redirect (Some (u "500")) (Some (u "abc")) example_account
  = (Raise (NoReverseMatch (u "abc")),
     mk_account 1000500 [mk_txn TYPE_CREDIT 500 None] (bills example_account)).
Proof. vm_compute. split; reflexivity. Qed.

(** A top-up of "۵۰۰" and a payment on [example_account]. *)
Lemma wallet_balance_follows_ledger_witness :
  let reqs := [TopupRequest (Some (u "۵۰۰")) None; PayRequest true 7] in
  let a' := fold_left (handle example_redirect) reqs example_account in
  balance a' - ledger_total (transactions a')
  = balance example_account - ledger_total (transactions example_account) /\
  (0 <= balance example_account -> 0 <= balance a').
Proof.
  apply (wallet_balance_follows_ledger example_redirect
           [TopupRequest (Some (u "۵۰۰")) None; PayRequest true 7] example_account).
Defined.

Lemma example_account_charged_once : charged_once example_account.
Proof. intros i. simpl. split; [lia|discriminate]. Qed.

(** Two payment attempts on [example_account]. *)
Lemma invoice_charged_at_most_once_witness :
  let a' := fold_left (handle example_redirect)
              [PayRequest true 7; PayRequest true 7] example_account in
  charged_once a' /\
  forall i inv, bills example_account !! i = Some inv -> bill_paid inv = true ->
                bills a' !! i = Some inv.
Proof.
  apply (invoice_charged_at_most_once example_redirect
           [PayRequest true 7; PayRequest true 7] example_account).
  exact example_account_charged_once.
Defined.

(* ===================================================================== *)
(** * Properties of the export *)
(* ===================================================================== *)

Lemma summary_has_In key d : summary_has key d = true <-> In key (map fst d).
Proof.
  unfold summary_has. rewrite existsb_exists, in_map_iff. split.
  - intros (ke & Hin & Hk). apply bool_decide_eq_true in Hk. eauto.
  - intros (ke & Hk & Hin). exists ke. split; [exact Hin|].
    apply bool_decide_eq_true. exact Hk.
Qed.

Lemma summary_bump_keys key sale profit d :
  map fst (summary_bump key sale profit d) = map fst d.
Proof.
  induction d as [|[k e] d IH]; simpl; [reflexivity|].
  destruct (decide (k = key)); simpl; [reflexivity|]. rewrite IH. reflexivity.
Qed.

Lemma summary_bump_sums key sale profit d :
  In key (map fst d) ->
  sum_entries e_count (summary_bump key sale profit d) = sum_entries e_count d + 1 /\
  sum_entries e_sale (summary_bump key sale profit d) = sum_entries e_sale d + sale /\
  sum_entries e_profit (summary_bump key sale profit d) = sum_entries e_profit d + profit.
Proof.
  induction d as [|[k e] d IH]; simpl; [intros []|].
  intros Hin. destruct (decide (k = key)) as [Hk|Hk]; simpl.
  - unfold sum_entries. simpl. repeat split; lia.
  - destruct Hin as [Hin|Hin]; [congruence|].
    destruct (IH Hin) as (H1 & H2 & H3).
    unfold sum_entries in *. simpl. repeat split; lia.
Qed.

Lemma sum_entries_app f d ke :
  sum_entries f (d ++ [ke]) = sum_entries f d + f (snd ke).
Proof.
  unfold sum_entries. induction d as [|x d IH]; simpl; [lia|]. rewrite IH. lia.
Qed.


Lemma sum_sales_app f done r :
  sum_sales f (done ++ [r])
  = sum_sales f done + (if InvoiceRow.is_return r then 0 else f r).
Proof.
  unfold sum_sales. induction done as [|x done IH]; simpl.
  - destruct (InvoiceRow.is_return r); lia.
  - rewrite IH. destruct (InvoiceRow.is_return x); lia.
Qed.

Lemma export_row_inv done s r :
  export_inv done s -> export_inv (done ++ [r]) (export_row s r).
Proof.
  intros (Hc & Hr & Ht & Hnd & Hn & Hs & Hp).
  unfold export_inv, export_row.
  rewrite !List.filter_app, !sum_sales_app. cbn [List.filter].
  destruct (InvoiceRow.is_return r) eqn:R.
  - rewrite !Z.add_0_r.
    destruct (InvoiceRow.sale_type r); simpl; rewrite ?app_nil_r, Hc, Hr;
      repeat split; assumption.
  - set (d0 := if summary_has (InvoiceRow.dkpc r) (dkpc_summary s)
               then dkpc_summary s
               else dkpc_summary s
                    ++ [(InvoiceRow.dkpc r, mk_entry (InvoiceRow.title r) 0 0 0)]).
    assert (Hd0 : In (InvoiceRow.dkpc r) (map fst d0) /\ NoDup (map fst d0) /\
                  sum_entries e_count d0 = sum_entries e_count (dkpc_summary s) /\
                  sum_entries e_sale d0 = sum_entries e_sale (dkpc_summary s) /\
                  sum_entries e_profit d0 = sum_entries e_profit (dkpc_summary s)).
    { unfold d0. destruct (summary_has _ _) eqn:E.
      - apply summary_has_In in E. repeat split; assumption.
      - assert (Hnot : ~ In (InvoiceRow.dkpc r) (map fst (dkpc_summary s))).
        { intros Hin. apply summary_has_In in Hin. congruence. }
        rewrite map_app, !sum_entries_app. simpl. split; [|split].
        + apply in_or_app. right. left. reflexivity.
        + apply NoDup_app. split; [exact Hnd|]. split; [|apply NoDup_singleton].
          intros x Hx Hx'. apply list_elem_of_singleton in Hx'. subst x.
          apply Hnot, list_elem_of_In, Hx.
        + repeat split; lia. }
    destruct Hd0 as (Hin & Hnd0 & Hn0 & Hs0 & Hp0).
    destruct (summary_bump_sums (InvoiceRow.dkpc r) (InvoiceRow.sale_amount r)
                (InvoiceRow.profit r) d0 Hin) as (B1 & B2 & B3).
    destruct (InvoiceRow.sale_type r); simpl; rewrite ?app_nil_r, Hc, Hr, Ht;
      rewrite summary_bump_keys, B1, B2, B3; simpl;
      repeat split; try assumption; try reflexivity; lia.
Qed.

Lemma export_loop_inv rows : forall done s,
  export_inv done s -> export_inv (done ++ rows) (fold_left export_row rows s).
Proof.
  induction rows as [|r rows IH]; intros done s H; simpl.
  - rewrite app_nil_r. exact H.
  - replace (done ++ r :: rows) with ((done ++ [r]) ++ rows)
      by (rewrite <- app_assoc; reflexivity).
    apply IH, export_row_inv, H.
Qed.

Lemma export_inv_initial : export_inv [] (mk_export [] [] (mk_totals 0 0 0 0 0 0) []).
Proof. unfold export_inv. simpl. repeat split; try reflexivity. constructor. Qed.

(** X23: the export of a paid invoice puts every row in the sheet of its
    channel, in the order of the query, and its six totals are the sums
    of the fields over the rows that are not returns; an unpaid invoice
    is not exported. *)
Theorem export_sheets_and_totals (rows : list InvoiceRow.t) :
  export_invoice_excel false rows = None /\
  exists s,
    export_invoice_excel true rows = Some s /\
    cash_rows s
    = List.filter (fun r => match InvoiceRow.sale_type r with
                            | cash => true | credit => false end) rows /\
    credit_rows s
    = List.filter (fun r => match InvoiceRow.sale_type r with
                            | cash => false | credit => true end) rows /\
    export_totals s
    = mk_totals (sum_sales InvoiceRow.sale_amount rows) (sum_sales InvoiceRow.profit rows)
        (sum_sales InvoiceRow.commission_amount rows)
        (sum_sales InvoiceRow.shipping_fee rows)
        (sum_sales InvoiceRow.processing_fee rows)
        (sum_sales InvoiceRow.platform_dev_revenue rows).
Proof.
  split; [reflexivity|]. unfold export_invoice_excel. simpl.
  eexists. split; [reflexivity|].
  destruct (export_loop_inv rows [] _ export_inv_initial) as (H1 & H2 & H3 & _).
  simpl in *. repeat split; assumption.
Qed.

(** X24: the summary per variant code is consistent with the totals: it
    has one entry per [dkpc], the counts of its entries add up to the
    number of rows that are not returns, and their sale amounts and
    profits add up to the total sale and the total profit. *)
Theorem export_summary_adds_up (rows : list InvoiceRow.t) :
  exists s,
    export_invoice_excel true rows = Some s /\
    NoDup (map fst (dkpc_summary s)) /\
    sum_entries e_count (dkpc_summary s) = sum_sales (fun _ => 1) rows /\
    sum_entries e_sale (dkpc_summary s) = total_sale (export_totals s) /\
    sum_entries e_profit (dkpc_summary s) = total_profit (export_totals s).
Proof.
  unfold export_invoice_excel. simpl. eexists. split; [reflexivity|].
  destruct (export_loop_inv rows [] _ export_inv_initial)
    as (_ & _ & H3 & H4 & H5 & H6 & H7).
  simpl in *. rewrite H3. simpl. repeat split; assumption.
Qed.

(** The export of [example_export_rows]: two entries, totals over three
    rows. *)
Example export_example :
  match export_invoice_excel true example_export_rows with
  | Some s =>
    export_totals s = mk_totals 12900 5780 200 0 0 50 /\
    dkpc_summary s = [ (u "55", mk_entry (u "A") 2 12000 5780);
                       (u "57", mk_entry (u "C") 1 900 0) ] /\
    length (cash_rows s) = 3%nat /\ length (credit_rows s) = 1%nat
  | None => False
  end.
Proof. vm_compute. repeat split. Qed.

(* ===================================================================== *)
(** * Properties of the merged fields and of the price upload *)
(* ===================================================================== *)

Section FieldSums.

Variable str_lower : str -> str.
Variable float_str : spec_float -> str.

(** X12: the merge sums the contributions per identity: a ledger line
    exists exactly for the identities that some sheet row names, and
    each of its five accumulated fields is the sum of what the rows with
    that identity contribute to the field (sale rows add their amount,
    return rows subtract its absolute value, cost rows add the amount,
    reversal rows subtract it). *)
Theorem line_fields_are_sums (wb : workbook) (st : merge_state) :
  parse_invoice_excel str_lower float_str wb = Ok st ->
  exists cs,
    contributions str_lower float_str fixed_sequence wb = Ok cs /\
    forall k,
      match rows_map st !! k with
      | Some r =>
        first_contribution k cs <> None /\
        forall f, get_field f r = field_sum f k cs
      | None => first_contribution k cs = None
      end.
Proof.
  intros Hp.
  destruct (parse_with_spec _ _ _ _ _ Hp) as (cs & Hcs & Hm & _).
  exists cs. split; [exact Hcs|]. intros k.
  assert (H : forall f, get_field f <$> (rows_map st !! k)
                        = match first_contribution k cs with
                          | Some _ => Some (field_sum f k cs)
                          | None => None
                          end).
  { intros f. rewrite Hm, field_after_apply_all. simpl. rewrite lookup_empty.
    reflexivity. }
  destruct (rows_map st !! k) as [r|]; simpl in H.
  - split.
    + intros Hn. specialize (H FSale). rewrite Hn in H. discriminate.
    + intros f. specialize (H f).
      destruct (first_contribution k cs); congruence.
  - specialize (H FSale). destruct (first_contribution k cs); congruence.
Qed.

End FieldSums.

(** The line of [wb_full_return]: sale 100 - 100, commission 10. *)
Lemma line_fields_are_sums_witness :
  exists cs,
    contributions ascii_lower no_float_str fixed_sequence wb_full_return = Ok cs /\
    forall k,
      match rows_map (parsed_state fixed_sequence wb_full_return) !! k with
      | Some r =>
        first_contribution k cs <> None /\
        forall f, get_field f r = field_sum f k cs
      | None => first_contribution k cs = None
      end.
Proof.
  apply (line_fields_are_sums ascii_lower no_float_str wb_full_return).
  vm_compute. reflexivity.
Defined.







(** An empty price cell stops the upload: the first price is written,
    the third line is not read, and nothing is recalculated. *)
Example upload_stops_on_empty_price :
  upload_prices no_float_str example_price_sheet
    (mk_price_db ∅ (take 2 example_export_rows))
  = (Some (PriceTooSmall (u "56")),
     mk_price_db {[ u "55" := 60000 ]}
       [ InvoiceRow.mk cash (u "1001") (u "55") (u "A") 5000 60000 100 0 0 0 10 1890 false;
         InvoiceRow.mk cash (u "1002") (u "55") (u "A2") 7000 60000 100 0 0 0 10 3890
           false ]).
Proof. vm_compute. reflexivity. Qed.

(* ===================================================================== *)
(** * Lines of cost sheets alone, from the merge to the database *)
(* ===================================================================== *)

Lemma stored_row_key pr : row_key (stored_row pr) = key_of pr.
Proof.
  unfold stored_row, row_key, key_of.
  destruct (ParsedRow.is_return pr || (ParsedRow.sale_amount pr <=? 0)); reflexivity.
Qed.

Section CostOnlyLines.

Variable faults : nat -> option exn.
Variable str_lower : str -> str.
Variable float_str : spec_float -> str.

(** C10: a ledger line whose identity no row of a sales or return sheet
    names, so that all its contributions come from cost sheets, has
    [sale_amount] 0 after the merge. A successful run stores a row
    with the identity of the line, and every stored row with that
    identity is a return with [sale_amount], [commission_amount],
    [shipping_fee], [processing_fee], [platform_dev_revenue] and
    [tax_amount] all 0: the costs that created the line are in no
    stored field. *)
Theorem cost_only_line_stored_as_zero_return
    (wb : workbook) (w w' : world) (n : Z) (log : list log_line)
    (st : merge_state) (cs : list contribution) (k : key) (pr : ParsedRow.t) :
  process_invoice_file faults str_lower float_str (Ok wb) w
  = (Ok (n, LogText log), w') ->
  parse_invoice_excel str_lower float_str wb = Ok st ->
  contributions str_lower float_str fixed_sequence wb = Ok cs ->
  rows_map st !! k = Some pr ->
  (forall c, In c cs -> c_key c = k -> c_field c <> FSale) ->
  ParsedRow.sale_amount pr = 0 /\
  (exists i r, db_rows w' !! i = Some r /\ row_key r = k) /\
  forall r, In r (db_rows w') -> row_key r = k ->
    InvoiceRow.is_return r = true /\
    InvoiceRow.sale_amount r = 0 /\
    InvoiceRow.commission_amount r = 0 /\
    InvoiceRow.shipping_fee r = 0 /\
    InvoiceRow.processing_fee r = 0 /\
    InvoiceRow.platform_dev_revenue r = 0 /\
    InvoiceRow.tax_amount r = 0.
Proof.
  intros H Hp Hcs Hk Hcost.
  pose proof (cost_only_line_sale_amount str_lower float_str wb st cs k pr
                Hp Hcs Hk Hcost) as Hs.
  pose proof (parsed_ledger_ok str_lower float_str wb st Hp) as Hok.
  assert (Hkey : key_of pr = k) by (destruct Hok as (_ & _ & Hkey); eauto).
  apply process_ok_inv in H as (w0 & _ & E).
  apply try_block_ok in E as (st0 & Hp0 & _ & _ & Hrows & _).
  rewrite Hp in Hp0. injection Hp0 as <-.
  split; [exact Hs|]. split.
  - assert (Hin : In pr (parsed_rows_out st)).
    { apply ledger_rows_In; [exact Hok|]. rewrite Hkey. exact Hk. }
    apply list_elem_of_In, list_elem_of_lookup in Hin as [i Hi].
    exists i, (stored_row pr). split.
    + rewrite Hrows, list_lookup_fmap, Hi. reflexivity.
    + rewrite stored_row_key. exact Hkey.
  - intros r Hr Hrk. rewrite Hrows in Hr.
    apply in_map_iff in Hr as (pr' & <- & Hin').
    rewrite stored_row_key in Hrk.
    apply (ledger_rows_In _ _ Hok) in Hin'.
    rewrite Hrk, Hk in Hin'. injection Hin' as <-.
    unfold stored_row. rewrite Hs. simpl. rewrite orb_true_r. simpl. tauto.
Qed.

End CostOnlyLines.

(** The run on [wb_cost_only]: the line of order 77 has a commission
    only, and is stored as a return with 0 everywhere. *)
Lemma cost_only_line_witness :
  let w' := snd (process_invoice_file no_fault ascii_lower no_float_str
                   (Ok wb_cost_only) processed_world) in
  ParsedRow.sale_amount (ParsedRow.mk cash (u "77") (u "5") [] 0 false 9 0 0 0) = 0 /\
  (exists i r, db_rows w' !! i = Some r /\ row_key r = line_77_5) /\
  forall r, In r (db_rows w') -> row_key r = line_77_5 ->
    InvoiceRow.is_return r = true /\
    InvoiceRow.sale_amount r = 0 /\
    InvoiceRow.commission_amount r = 0 /\
    InvoiceRow.shipping_fee r = 0 /\
    InvoiceRow.processing_fee r = 0 /\
    InvoiceRow.platform_dev_revenue r = 0 /\
    InvoiceRow.tax_amount r = 0.
Proof.
  intros w'.
  apply (cost_only_line_stored_as_zero_return no_fault ascii_lower no_float_str
           wb_cost_only processed_world w' 2
           (log_lines (parsed_state fixed_sequence wb_cost_only))
           (parsed_state fixed_sequence wb_cost_only)
           [ mk_contribution line_1001_55 (u "A") false FSale 100;
             mk_contribution line_77_5 [] false (FCost commission) 9 ]
           line_77_5 (ParsedRow.mk cash (u "77") (u "5") [] 0 false 9 0 0 0)).
  - vm_compute. reflexivity.
  - vm_compute. reflexivity.
  - vm_compute. reflexivity.
  - vm_compute. reflexivity.
  - intros c [<-|[<-|[]]].
    + vm_compute. intros H. discriminate H.
    + intros _. discriminate.
Defined.

(* ===================================================================== *)
(** * The views as histories of writes *)
(* ===================================================================== *)

Lemma apply_writes_app h1 h2 rows :
  apply_writes (h1 ++ h2) rows = apply_writes h2 (apply_writes h1 rows).
Proof. unfold apply_writes. apply fold_left_app. Qed.

(** The loop of the upload writes prices and never recalculates. *)
Lemma upload_loop_history float_str df : forall db,
  exists history,
    forallb is_price_write history = true /\
    invoice_rows (snd (upload_loop float_str df db))
    = apply_writes history (invoice_rows db).
Proof.
  induction df as [|[dkpc_cell raw_price] rest IH]; intros db.
  - exists []. split; reflexivity.
  - cbn [upload_loop].
    destruct (strip (py_str float_str dkpc_cell)) as [|c dkpc_val] eqn:Ed; [apply IH|].
    destruct (parse_price_value raw_price) as [price_val|]; [|apply IH].
    destruct (price_val <? 0); [exists []; split; reflexivity|].
    destruct (price_val <? min_purchase_price); [exists []; split; reflexivity|].
    destruct (IH (mk_price_db (<[c :: dkpc_val := price_val]> (product_prices db))
                    (update_purchase_price (c :: dkpc_val) price_val (invoice_rows db))))
      as (history & Hw & Hrows).
    exists (WritePrice (c :: dkpc_val) price_val :: history).
    split; [exact Hw|exact Hrows].
Qed.

(** An upload is a history of writes, which ends with a recalculation
    exactly when the upload ends without error. *)
Lemma upload_prices_history float_str df db :
  exists history,
    invoice_rows (snd (upload_prices float_str df db))
    = apply_writes history (invoice_rows db) /\
    match fst (upload_prices float_str df db) with
    | None => exists before, history = before ++ [Recalc]
    | Some _ => forallb is_price_write history = true
    end.
Proof.
  destruct (upload_loop_history float_str df db) as (history & Hw & Hrows).
  unfold upload_prices.
  destruct (upload_loop float_str df db) as [[err|] db'] eqn:E; simpl in *.
  - exists history. split; [exact Hrows|exact Hw].
  - exists (history ++ [Recalc]). split; [|eauto].
    rewrite apply_writes_app, <- Hrows. reflexivity.
Qed.

(** The loop of the form writes prices and never recalculates. *)
Lemma form_loop_history post summary : forall has_error db,
  exists history,
    forallb is_price_write history = true /\
    invoice_rows (snd (form_loop post summary has_error db))
    = apply_writes history (invoice_rows db).
Proof.
  induction summary as [|[dkpc title] rest IH]; intros has_error db.
  - exists []. split; reflexivity.
  - cbn [form_loop].
    destruct (parse_price_value (VStr (post dkpc))) as [price_val|]; [|apply IH].
    destruct (price_val <? 0); [apply IH|].
    destruct (price_val <? min_purchase_price); [apply IH|].
    destruct (negb (in_bigint price_val)); [exists []; split; reflexivity|].
    destruct (IH has_error
                (mk_price_db (<[dkpc := price_val]> (product_prices db))
                   (update_purchase_price dkpc price_val (invoice_rows db))))
      as (history & Hw & Hrows).
    exists (WritePrice dkpc price_val :: history).
    split; [exact Hw|exact Hrows].
Qed.

(** A submission of the form is a history of writes, which ends with a
    recalculation exactly when no price was rejected. *)
Lemma form_prices_history post summary db :
  exists history,
    invoice_rows (snd (form_prices post summary db))
    = apply_writes history (invoice_rows db) /\
    match fst (form_prices post summary db) with
    | Ok false => exists before, history = before ++ [Recalc]
    | _ => forallb is_price_write history = true
    end.
Proof.
  destruct (form_loop_history post summary false db) as (history & Hw & Hrows).
  unfold form_prices.
  destruct (form_loop post summary false db) as [[[|]|e] db'] eqn:E; simpl in *.
  - exists history. split; [exact Hrows|exact Hw].
  - exists (history ++ [Recalc]). split; [|eauto].
    rewrite apply_writes_app, <- Hrows. reflexivity.
  - exists history. split; [exact Hrows|exact Hw].
Qed.

(** C3 (the claim as stated fails): a non-return line with commission 50
    is stored with tax 5. An upload that prices another variant code
    ends without error and recalculates: the line, whose purchase price
    is still 0, stays non-return with commission 50 and gets tax 0. *)
Lemma stored_tax_counterexample :
  let pr := ParsedRow.mk cash (u "1001") (u "55") [] 100 false 50 0 0 0 in
  let out := upload_prices no_float_str [(VInt 56, VInt 60000)]
               (mk_price_db ∅ [stored_row pr]) in
  fst out = None /\
  exists r,
    invoice_rows (snd out) !! 0%nat = Some r /\
    InvoiceRow.is_return r = false /\
    InvoiceRow.tax_amount r <>
    (InvoiceRow.commission_amount r + InvoiceRow.processing_fee r) / 10.
Proof.
  split; [vm_compute; reflexivity|].
  eexists. split; [vm_compute; reflexivity|]. split; [reflexivity|].
  vm_compute. discriminate.
Qed.

(** The tax of a line can lag behind its price: after the upload above,
    a second upload writes 60000 to the line and stops on the price 999
    of another code, so nothing is recalculated. The line has the
    purchase price 60000, commission 50 and still tax 0. *)
Example tax_after_a_rejected_upload :
  let pr := ParsedRow.mk cash (u "1001") (u "55") [] 100 false 50 0 0 0 in
  let first := upload_prices no_float_str [(VInt 56, VInt 60000)]
                 (mk_price_db ∅ [stored_row pr]) in
  let second := upload_prices no_float_str [(VInt 55, VInt 60000); (VInt 56, VInt 999)]
                  (snd first) in
  fst second = Some (PriceTooSmall (u "56")) /\
  invoice_rows (snd second)
  = [InvoiceRow.mk cash (u "1001") (u "55") [] 100 60000 50 0 0 0 0 0 false].
Proof. vm_compute. split; reflexivity. Qed.
